(** * epubsage: the content extractor of [epub_sage/extractors/content_extractor.py]

    A shallow embedding of the structural inference code (image reference
    resolution, header detection, wrapper descent, section segmentation)
    together with the properties the specification states about it.

    Conventions of the embedding.
    - A Python [str] is a Rocq [string]; one character stands for one code
      point, so the model covers text whose code points are below 256.
    - [os.path] is the POSIX flavour ([posixpath]).
    - A parsed document is a tree of [node]s as BeautifulSoup builds it:
      tags with attributes and ordered contents, text strings and comments.
    - Python sets are [gset string]; Python lists are Rocq lists; the list
      objects that the segmenter shares between a section and its header
      block live in an explicit store of cells. *)

From Stdlib Require Import String Ascii List Bool Arith Lia QArith.
From stdpp Require Import gmap strings.
Import ListNotations.

(* String concatenation computes under [simpl] again. *)
#[local] Arguments String.append _ _ : simpl nomatch.

Local Open Scope string_scope.
Local Open Scope list_scope.
Local Open Scope nat_scope.

(* ===================================================================== *)
(** * Python strings                                                      *)
(* ===================================================================== *)

Module PyStr.

(** [s.startswith(p)] *)
Definition startswith (p s : string) : bool := String.prefix p s.

(** [s.endswith(p)] *)
Fixpoint endswith (p s : string) : bool :=
  String.eqb p s ||
  match s with
  | EmptyString => false
  | String _ r => endswith p r
  end.

(** [sub in s] *)
Fixpoint contains (sub s : string) : bool :=
  String.prefix sub s ||
  match s with
  | EmptyString => false
  | String _ r => contains sub r
  end.

(** [s.replace(a, b)] for one-character [a] and [b]. *)
Fixpoint replace (a b : ascii) (s : string) : string :=
  match s with
  | EmptyString => EmptyString
  | String c r => String (if Ascii.eqb c a then b else c) (replace a b r)
  end.

(** [s.split(c)] for a one-character separator: never the empty list. *)
Fixpoint split (c : ascii) (s : string) : list string :=
  match s with
  | EmptyString => [EmptyString]
  | String a r =>
      if Ascii.eqb a c then EmptyString :: split c r
      else match split c r with
           | h :: t => String a h :: t
           | [] => [String a EmptyString]
           end
  end.

(** [sep.join(l)] *)
Fixpoint join (sep : string) (l : list string) : string :=
  match l with
  | [] => EmptyString
  | [x] => x
  | x :: r => x +:+ sep +:+ join sep r
  end.

(** ["".join(l)] *)
Definition concat (l : list string) : string := fold_right String.append EmptyString l.

(** [c.isspace()] on the code points below 256. *)
Definition isspace (c : ascii) : bool :=
  let n := nat_of_ascii c in
  ((9 <=? n) && (n <=? 13)) || ((28 <=? n) && (n <=? 32))
  || (n =? 133) || (n =? 160).

Fixpoint lstrip (s : string) : string :=
  match s with
  | EmptyString => EmptyString
  | String c r => if isspace c then lstrip r else s
  end.

Fixpoint rstrip (s : string) : string :=
  match s with
  | EmptyString => EmptyString
  | String c r =>
      match rstrip r with
      | EmptyString => if isspace c then EmptyString else String c EmptyString
      | r' => String c r'
      end
  end.

(** [s.strip()] *)
Definition strip (s : string) : string := rstrip (lstrip s).

(** [c.lower()] on the code points below 256: the ASCII capitals and the
    Latin-1 capitals (all of 192..222 but the multiplication sign). *)
Definition lower_char (c : ascii) : ascii :=
  let n := nat_of_ascii c in
  if ((65 <=? n) && (n <=? 90)) || ((192 <=? n) && (n <=? 222) && negb (n =? 215))
  then ascii_of_nat (n + 32) else c.

(** [s.lower()] *)
Fixpoint lower (s : string) : string :=
  match s with
  | EmptyString => EmptyString
  | String c r => String (lower_char c) (lower r)
  end.

(** Truth value of a string: [bool(s)]. *)
Definition truthy (s : string) : bool := negb (String.eqb s EmptyString).

(** [s.endswith(suffixes)] for a tuple of suffixes. *)
Definition endswith_any (suffixes : list string) (s : string) : bool :=
  existsb (fun p => endswith p s) suffixes.

(** [s.rstrip(c)] for one character. *)
Fixpoint rstrip_char (c : ascii) (s : string) : string :=
  match s with
  | EmptyString => EmptyString
  | String a r =>
      match rstrip_char c r with
      | EmptyString => if Ascii.eqb a c then EmptyString else String a EmptyString
      | r' => String a r'
      end
  end.

(** [s == c * len(s)] *)
Fixpoint all_char (c : ascii) (s : string) : bool :=
  match s with
  | EmptyString => true
  | String a r => Ascii.eqb a c && all_char c r
  end.

(** [s[:s.rfind(c) + 1]]: up to and with the last [c]; empty without one. *)
Fixpoint upto_last (c : ascii) (s : string) : string :=
  match s with
  | EmptyString => EmptyString
  | String a r =>
      match upto_last c r with
      | EmptyString => if Ascii.eqb a c then String a EmptyString else EmptyString
      | h => String a h
      end
  end.

End PyStr.

(* ===================================================================== *)
(** * [os.path] (POSIX)                                                   *)
(* ===================================================================== *)

Module PosixPath.

(** [os.path.join(a, b)] *)
Definition join (a b : string) : string :=
  if PyStr.startswith "/" b then b
  else if negb (PyStr.truthy a) || PyStr.endswith "/" a then a +:+ b
  else a +:+ "/" +:+ b.

(** The component loop of [normpath]: [new_comps] grows and shrinks at
    its end. *)
Fixpoint normpath_comps (initial_slashes : nat) (comps new_comps : list string)
  : list string :=
  match comps with
  | [] => new_comps
  | comp :: rest =>
      if String.eqb comp "" || String.eqb comp "." then
        normpath_comps initial_slashes rest new_comps
      else if negb (String.eqb comp "..")
              || ((initial_slashes =? 0) && (length new_comps =? 0))
              || (negb (length new_comps =? 0)
                  && String.eqb (List.last new_comps "") "..") then
        normpath_comps initial_slashes rest (new_comps ++ [comp])
      else if negb (length new_comps =? 0) then
        normpath_comps initial_slashes rest (removelast new_comps)
      else
        normpath_comps initial_slashes rest new_comps
  end.

(** [os.path.normpath(path)] *)
Definition normpath (path : string) : string :=
  if String.eqb path "" then "."
  else
    let initial_slashes :=
      if PyStr.startswith "/" path then
        if PyStr.startswith "//" path && negb (PyStr.startswith "///" path)
        then 2 else 1
      else 0 in
    let comps := normpath_comps initial_slashes (PyStr.split "/" path) [] in
    let joined := PyStr.join "/" comps in
    let path' :=
      match initial_slashes with
      | 0 => joined
      | 1 => "/" +:+ joined
      | _ => "//" +:+ joined
      end in
    if PyStr.truthy path' then path' else ".".

(** [os.path.isabs(path)] *)
Definition isabs (path : string) : bool := PyStr.startswith "/" path.

(** [os.path.abspath(path)], with the working directory of the process. *)
Definition abspath (cwd path : string) : string :=
  normpath (if isabs path then path else join cwd path).

(** The length of [os.path.commonprefix] of two lists. *)
Fixpoint common_prefix_len (a b : list string) : nat :=
  match a, b with
  | x :: a', y :: b' => if String.eqb x y then S (common_prefix_len a' b') else 0
  | _, _ => 0
  end.

(** [os.path.join] of more than two parts: one part after the other. *)
Definition join_all (parts : list string) : string :=
  match parts with
  | [] => EmptyString
  | a :: p => fold_left join p a
  end.

(** The components of an absolute path: [[x for x in p.split('/') if x]]. *)
Definition path_list (p : string) : list string :=
  List.filter PyStr.truthy (PyStr.split "/" p).

(** [os.path.relpath(path, start)]; [None] is the [ValueError] for an
    empty path. *)
Definition relpath (cwd path start : string) : option string :=
  if negb (PyStr.truthy path) then None
  else
    let start_list := path_list (abspath cwd start) in
    let path_list := path_list (abspath cwd path) in
    let i := common_prefix_len start_list path_list in
    let rel_list := repeat ".." (length start_list - i) ++ skipn i path_list in
    if length rel_list =? 0 then Some "." else Some (join_all rel_list).

(** [os.path.dirname(p)] *)
Definition dirname (p : string) : string :=
  let head := PyStr.upto_last "/" p in
  if PyStr.truthy head && negb (PyStr.all_char "/" head)
  then PyStr.rstrip_char "/" head else head.

End PosixPath.

(* ===================================================================== *)
(** * Image reference resolution                                          *)
(* ===================================================================== *)

Definition EXTERNAL_PREFIXES : list string := ["http://"; "https://"; "data:"].

Definition _is_external_url (path : string) : bool :=
  existsb (fun p => PyStr.startswith p path) EXTERNAL_PREFIXES.

(** The [while normalized.startswith('../')] loop: each turn drops three
    characters. *)
Fixpoint strip_parent_refs (normalized : string) : string :=
  match normalized with
  | String "." (String "." (String "/" rest)) => strip_parent_refs rest
  | _ => normalized
  end.

Definition _normalize_path (path : string) : string :=
  strip_parent_refs (PyStr.replace "\" "/" path).

(** [img_src.split('#')[0].split('?')[0]]: a reference without its fragment
    and query. *)
Definition base_src_of (img_src : string) : string :=
  hd "" (PyStr.split "?" (hd "" (PyStr.split "#" img_src))).

Definition resolve_image_path (img_src html_rel_dir : string) : option string :=
  if _is_external_url img_src then Some img_src
  else
    let base_src := base_src_of img_src in
    if negb (PyStr.truthy base_src) then None
    else
      let resolved := PosixPath.normpath (PosixPath.join html_rel_dir base_src) in
      Some (_normalize_path resolved).

(** The [for img_src in raw_images] loop with its two accumulators. *)
Fixpoint resolve_loop (html_rel_dir : string) (valid_images : gset string)
    (raw_images : list string) (seen : gset string) (result : list string)
  : list string :=
  match raw_images with
  | [] => result
  | img_src :: rest =>
      match resolve_image_path img_src html_rel_dir with
      | Some resolved =>
          if negb (PyStr.truthy resolved) || bool_decide (resolved ∈ seen) then
            resolve_loop html_rel_dir valid_images rest seen result
          else if _is_external_url resolved || bool_decide (resolved ∈ valid_images) then
            resolve_loop html_rel_dir valid_images rest
              ({[resolved]} ∪ seen) (result ++ [resolved])
          else
            resolve_loop html_rel_dir valid_images rest seen result
      | None => resolve_loop html_rel_dir valid_images rest seen result
      end
  end.

Definition resolve_and_validate_images (raw_images : list string)
    (html_rel_dir : string) (valid_images : gset string) : list string :=
  resolve_loop html_rel_dir valid_images raw_images ∅ [].


(* ===================================================================== *)
(** * The parsed document tree                                            *)
(* ===================================================================== *)

(** An attribute value: a string, or a list of strings for the
    multi-valued attributes ([class]) of the HTML tree builder. *)
Inductive attr_value : Type :=
| AStr (s : string)
| AList (l : list string).

(** A node of the tree.  [NavigableString] stands for the strings that
    [get_text] collects, [Comment] for those it skips. *)
#[warnings="-register-all"]
Inductive node : Type :=
| NavigableString (s : string)
| Comment (s : string)
| Tag (name : string) (attrs : list (string * attr_value)) (contents : list node).

(** [d.get(key)] on the attribute dictionary. *)
Fixpoint get (attrs : list (string * attr_value)) (key : string) : option attr_value :=
  match attrs with
  | [] => None
  | (k, v) :: rest => if String.eqb k key then Some v else get rest key
  end.

Definition attr_truthy (v : attr_value) : bool :=
  match v with
  | AStr s => PyStr.truthy s
  | AList l => negb (length l =? 0)
  end.

(** [v == s] for the result [v] of a [get] and a string [s]. *)
Definition py_eq_str (v : option attr_value) (s : string) : bool :=
  match v with
  | Some (AStr x) => String.eqb x s
  | _ => false
  end.

(** Python's [a or b] on optional attribute values. *)
Definition py_or (a b : option attr_value) : option attr_value :=
  match a with
  | Some v => if attr_truthy v then a else b
  | None => b
  end.

Definition name_of (n : node) : string :=
  match n with
  | Tag name _ _ => name
  | _ => EmptyString
  end.

Definition attrs_of (n : node) : list (string * attr_value) :=
  match n with
  | Tag _ attrs _ => attrs
  | _ => []
  end.

(** [element.children] *)
Definition children (n : node) : list node :=
  match n with
  | Tag _ _ contents => contents
  | _ => []
  end.

(** [isinstance(child, Tag) and child.name] *)
Definition is_named_tag (n : node) : bool :=
  match n with
  | Tag name _ _ => PyStr.truthy name
  | _ => false
  end.

(** [[child for child in element.children if isinstance(child, Tag) and child.name]] *)
Definition tag_children (n : node) : list node :=
  List.filter is_named_tag (children n).

(** [element.descendants]: every node below the element, in document order. *)
Fixpoint descendants (n : node) : list node :=
  match n with
  | Tag _ _ contents => flat_map (fun c => c :: descendants c) contents
  | _ => []
  end.

(** [element.find_all(name)] *)
Definition find_all (n : node) (name : string) : list node :=
  List.filter (fun d => is_named_tag d && String.eqb (name_of d) name) (descendants n).

(** [soup.find(name)] *)
Definition find (n : node) (name : string) : option node :=
  head (find_all n name).

(** The strings [get_text] walks over. *)
Definition all_strings (n : node) : list string :=
  flat_map (fun d => match d with NavigableString s => [s] | _ => [] end)
           (descendants n).

(** [element.get_text()] *)
Definition get_text (n : node) : string :=
  PyStr.concat (all_strings n).

(** [element.get_text(strip=True)]: every string is stripped and the empty
    ones are left out. *)
Definition get_text_strip (n : node) : string :=
  PyStr.concat (List.filter PyStr.truthy (map PyStr.strip (all_strings n))).

(** Nesting depth: a leaf has height 0. *)
Fixpoint height (n : node) : nat :=
  match n with
  | Tag _ _ contents => S (list_max (map height contents))
  | _ => 0
  end.

(* ===================================================================== *)
(** * Header detection                                                    *)
(* ===================================================================== *)

Definition HEADING_TAGS : list string := ["h1"; "h2"; "h3"; "h4"; "h5"; "h6"].

Definition keywords : list string :=
  ["title"; "heading"; "chapter-head"; "ch-title"; "section-title";
   "chapter-label"; "ch-label"; "title-prefix"; "chapter-number";
   "label"; "title-text"].

(** [x in l] for a list of strings *)
Definition str_in (x : string) (l : list string) : bool :=
  existsb (String.eqb x) l.

(** [cls + " " + id_str]: the class list and the id of an element, joined
    into the one string the keyword test reads. *)
Definition class_id_text (attrs : list (string * attr_value)) : string :=
  let class_attr := get attrs "class" in
  let cls :=
    match class_attr with
    | Some (AList l) => PyStr.join " " l
    | Some (AStr s) => if PyStr.truthy s then s else ""
    | None => ""
    end in
  let id_val :=
    py_or (match get attrs "id" with Some v => Some v | None => Some (AStr "") end)
          (Some (AStr "")) in
  let id_str :=
    match id_val with
    | Some (AStr s) => s
    | _ => ""
    end in
  cls +:+ " " +:+ id_str.

Definition is_generic_header (element : option node) : bool :=
  match element with
  | Some (Tag name attrs contents) =>
      if negb (PyStr.truthy name) then false
      else if str_in name HEADING_TAGS then true
      else if py_eq_str (get attrs "role") "heading" then true
      else
        let combined := PyStr.lower (class_id_text attrs) in
        if existsb (fun kw => PyStr.contains kw combined) keywords then
          let text := get_text_strip (Tag name attrs contents) in
          if (0 <? String.length text) && (String.length text <? 200) then true
          else false
        else false
  | _ => false
  end.

(* ===================================================================== *)
(** * Boilerplate stripping and wrapper descent                           *)
(* ===================================================================== *)

Definition JUNK_TAGS : list string :=
  ["nav"; "aside"; "script"; "style"; "footer"; "header"].

Definition CONTAINER_TAGS : list string := ["div"; "section"; "article"].

(** The test guarding [junk.decompose()]. *)
Definition decomposable (junk : node) : bool :=
  negb (is_generic_header (Some junk))
  && negb (existsb (fun c => is_generic_header (Some c))
                   (List.filter is_named_tag (descendants junk))).

(** One turn of the outer loop, for one junk tag name.  [find_all] lists
    the matching elements in document order, so an element is examined
    before anything below it; once it is decomposed the elements below it
    read as nameless and childless, and decomposing them again changes
    nothing.  An element that stays has its own contents examined next. *)
Fixpoint strip_junk_tag (junk_tag : string) (n : node) : node :=
  match n with
  | Tag name attrs contents =>
      Tag name attrs
        (flat_map (fun c =>
           if is_named_tag c && String.eqb (name_of c) junk_tag && decomposable c
           then []
           else [strip_junk_tag junk_tag c]) contents)
  | _ => n
  end.

(** The whole stripping loop over the six junk tag names. *)
Definition strip_junk (body : node) : node :=
  fold_left (fun b junk_tag => strip_junk_tag junk_tag b) JUNK_TAGS body.

(** One turn of the [while True] loop: [Some child] goes one level deeper,
    [None] is a [break]. *)
Definition descend_step (current_container : node) : option node :=
  let children := tag_children current_container in
  match children with
  | [only] => Some only
  | _ =>
      let header_tags := List.filter (fun child => is_generic_header (Some child)) children in
      if 0 <? length header_tags then None
      else if (0 <? length children)
              && forallb (fun child => str_in (name_of child) CONTAINER_TAGS) children
      then None
      else None
  end.

(** The loop with a bound on its turns; the result is the number of
    descents made and the container the loop stops at, or [None] when the
    bound is used up first. *)
Fixpoint descend (fuel : nat) (current_container : node) : option (nat * node) :=
  match fuel with
  | 0 => None
  | S fuel' =>
      match descend_step current_container with
      | Some child =>
          match descend fuel' child with
          | Some (k, final) => Some (S k, final)
          | None => None
          end
      | None => Some (0, current_container)
      end
  end.

(** The container the loop stops at; the height of the tree is bound
    enough ([descend_total]). *)
Definition content_container (body : node) : node :=
  match descend (S (height body)) body with
  | Some (_, final) => final
  | None => body
  end.

(** The elements at the content level of a container. *)
Definition content_children_of (current_container : node) : list node :=
  let all_direct_children := tag_children current_container in
  let direct_headers :=
    List.filter (fun child => is_generic_header (Some child)) all_direct_children in
  if negb (length direct_headers =? 0) then all_direct_children
  else
    flat_map (fun child =>
      if str_in (name_of child) CONTAINER_TAGS then
        let child_elements := tag_children child in
        if negb (length child_elements =? 0) then child_elements
        else if PyStr.truthy (PyStr.strip (get_text child)) then [child]
        else []
      else [child]) all_direct_children.

(* ===================================================================== *)
(** * Exceptions                                                          *)
(* ===================================================================== *)

Inductive exn : Type :=
| ZeroDivisionError
| OSError
| ParserError.

(** The outcome of a Python computation: a value or a raised exception. *)
Inductive exc (A : Type) : Type :=
| Ret (a : A)
| Raise (e : exn).

Arguments Ret {A} a.
Arguments Raise {A} e.

Definition bind {A B : Type} (m : exc A) (k : A -> exc B) : exc B :=
  match m with
  | Ret a => k a
  | Raise e => Raise e
  end.

Notation "x <- m ;; k" := (bind m (fun x => k))
  (at level 100, m at next level, right associativity).

(** [try: body except Exception: handler] *)
Definition try_except {A : Type} (body : exc A) (handler : exn -> exc A) : exc A :=
  match body with
  | Ret a => Ret a
  | Raise e => handler e
  end.

(** [a / b] on two lengths.  The exact quotient stands for the float: the
    correctly rounded quotient of two lengths below 10^15 is above the
    float [0.70] exactly when the exact quotient is above 7/10. *)
Definition truediv (a b : nat) : exc Q :=
  if b =? 0 then Raise ZeroDivisionError
  else Ret (Z.of_nat a # Pos.of_nat b)%Q.

Definition Qgt_bool (a b : Q) : bool := negb (Qle_bool a b).

(* ===================================================================== *)
(** * Sections, blocks and the store of image lists                       *)
(* ===================================================================== *)

(** A content block and a section, over the representation [I] of an image
    list: a reference into the store while the segmenter runs, the list
    itself in the result. *)
Record block (I : Type) : Type := mkBlock {
  tag : string;
  text : string;
  html : string;
  images : I;
  is_header : option bool
}.

Record section (I : Type) : Type := mkSection {
  header : string;
  content : list (block I);
  section_images : I
}.

Arguments mkBlock {I} _ _ _ _ _.
Arguments tag {I} _.
Arguments text {I} _.
Arguments html {I} _.
Arguments images {I} _.
Arguments is_header {I} _.
Arguments mkSection {I} _ _ _.
Arguments header {I} _.
Arguments content {I} _.
Arguments section_images {I} _.

(** A reference to a list object, and the store of all list objects made so
    far, in the order they were made. *)
Abbreviation ref := nat (only parsing).
Abbreviation store := (list (list string)) (only parsing).

Definition alloc (h : store) (v : list string) : ref * store :=
  (length h, h ++ [v]).

Definition deref (h : store) (r : ref) : list string :=
  default [] (h !! r).

(** [target.extend(v)] on the list object [target]. *)
Definition extend (h : store) (target : ref) (v : list string) : store :=
  <[target := deref h target ++ v]> h.

Definition snapshot_block (h : store) (b : block ref) : block (list string) :=
  mkBlock (tag b) (text b) (html b) (deref h (images b)) (is_header b).

Definition snapshot_section (h : store) (s : section ref) : section (list string) :=
  mkSection (header s) (map (snapshot_block h) (content s)) (deref h (section_images s)).

(* ===================================================================== *)
(** * Image extraction from one content element                           *)
(* ===================================================================== *)

(** [src = img.get('src')], kept [if src and isinstance(src, str)]. *)
Definition src_of (img : node) : option string :=
  match get (attrs_of img) "src" with
  | Some (AStr src) => if PyStr.truthy src then Some src else None
  | _ => None
  end.

(** [href = e.get('href') or e.get('xlink:href')], kept
    [if href and isinstance(href, str)]. *)
Definition href_of (svg_img : node) : option string :=
  match py_or (get (attrs_of svg_img) "href") (get (attrs_of svg_img) "xlink:href") with
  | Some (AStr href) => if PyStr.truthy href then Some href else None
  | _ => None
  end.

Definition opt_list {A : Type} (o : option A) : list A :=
  match o with
  | Some a => [a]
  | None => []
  end.

Definition append_if_new (l : list string) (o : option string) : list string :=
  match o with
  | Some x => if str_in x l then l else l ++ [x]
  | None => l
  end.

Definition extract_child_images (child : node) : list string :=
  let child_images :=
    flat_map (fun img => opt_list (src_of img)) (find_all child "img")
    ++ flat_map (fun svg_img => opt_list (href_of svg_img)) (find_all child "image") in
  if String.eqb (name_of child) "img" then append_if_new child_images (src_of child)
  else if String.eqb (name_of child) "image" then append_if_new child_images (href_of child)
  else child_images.

(* ===================================================================== *)
(** * Section segmentation                                                *)
(* ===================================================================== *)

Section Segmenter.

(** [str(child)]: the serializer of the tree library. *)
Variable str_of : node -> string.

Record seg_state : Type := mkState {
  sections : list (section ref);
  current_header : option string;
  current_content : list (block ref);
  current_images : ref;
  heap : store
}.

(** [current_header or current_content] *)
Definition open_section_nonempty (st : seg_state) : bool :=
  match current_header st with
  | Some h => PyStr.truthy h
  | None => false
  end || negb (length (current_content st) =? 0).

(** [current_header or 'Intro'] *)
Definition header_or_intro (current_header : option string) : string :=
  match current_header with
  | Some h => if PyStr.truthy h then h else "Intro"
  | None => "Intro"
  end.

(** The [sections.append({...})] guarded by [current_header or current_content]. *)
Definition flush (st : seg_state) : list (section ref) :=
  if open_section_nonempty st then
    sections st ++ [mkSection (header_or_intro (current_header st))
                              (current_content st) (current_images st)]
  else sections st.

(** The link-density test of a non-header element. *)
Definition link_heavy (child : node) : exc bool :=
  let text := get_text_strip child in
  if 40 <? String.length text then
    let links_text := PyStr.concat (map get_text_strip (find_all child "a")) in
    ratio <- truediv (String.length links_text) (String.length text) ;;
    Ret (Qgt_bool ratio (7 # 10)%Q)
  else Ret false.

(** The two [continue] tests: [true] when the element is skipped. *)
Definition skipped (child : node) (child_images : list string) : exc bool :=
  if negb (is_generic_header (Some child)) then
    heavy <- link_heavy child ;;
    if heavy then Ret true
    else Ret (negb (PyStr.truthy (get_text_strip child))
              && (length child_images =? 0))
  else Ret false.

(** One turn of [for child in content_children]. *)
Definition segment_step (st : seg_state) (child : node) : exc seg_state :=
  let imgs := extract_child_images child in
  let '(child_images, h) := alloc (heap st) imgs in
  let generic_header := is_generic_header (Some child) in
  skip <- skipped child imgs ;;
  if skip then
    Ret (mkState (sections st) (current_header st) (current_content st)
                 (current_images st) h)
  else if generic_header then
    let new_header := PyStr.strip (get_text child) in
    Ret (mkState (flush st) (Some new_header)
                 [mkBlock (name_of child) new_header (str_of child)
                          child_images (Some true)]
                 child_images h)
  else
    Ret (mkState (sections st) (current_header st)
                 (current_content st ++
                    [mkBlock (name_of child) (PyStr.strip (get_text child))
                             (str_of child) child_images None])
                 (current_images st)
                 (extend h (current_images st) imgs)).

Fixpoint segment_loop (st : seg_state) (content_children : list node) : exc seg_state :=
  match content_children with
  | [] => Ret st
  | child :: rest =>
      st' <- segment_step st child ;;
      segment_loop st' rest
  end.

(** The state before the loop: [current_images = []] is the first list
    object made. *)
Definition initial_state : seg_state :=
  let '(current_images, h) := alloc [] [] in
  mkState [] None [] current_images h.

(** The grouping of the content elements into sections, read out of the
    store once the loop and the final flush are over. *)
Definition segment (content_children : list node) : exc (list (section (list string))) :=
  st <- segment_loop initial_state content_children ;;
  Ret (map (snapshot_section (heap st)) (flush st)).

(** Everything [extract_content_sections] does once it holds the body. *)
Definition sections_of_body (body : node) : exc (list (section (list string))) :=
  let stripped := strip_junk body in
  let current_container := content_container stripped in
  segment (content_children_of current_container).

(** ** The file system and the parsers, as the function sees them *)

Inductive parse_result : Type :=
| ParseFailure
| Parsed (soup : node).

(** What a path holds: nothing, something [open] fails on, or a file with
    the outcome of each of the two tree builders on it. *)
Inductive file_entry : Type :=
| Missing
| Unreadable
| Readable (lxml_xml html_parser : parse_result).

Definition file_system : Type := string -> file_entry.

(** [os.path.exists(path)] *)
Definition path_exists (fs : file_system) (path : string) : bool :=
  match fs path with
  | Missing => false
  | _ => true
  end.

(** [open(path, 'r', encoding='utf-8')] *)
Definition open_file (fs : file_system) (path : string)
  : exc (parse_result * parse_result) :=
  match fs path with
  | Readable x h => Ret (x, h)
  | _ => Raise OSError
  end.

(** [BeautifulSoup(file, builder)] *)
Definition BeautifulSoup (outcome : parse_result) : exc node :=
  match outcome with
  | Parsed soup => Ret soup
  | ParseFailure => Raise ParserError
  end.

(** The body of the outer [try]. *)
Definition load_soup (fs : file_system) (html_file_path : string) : exc node :=
  file <- open_file fs html_file_path ;;
  try_except (BeautifulSoup (fst file)) (fun _ => BeautifulSoup (snd file)).

Definition extract_content_sections (fs : file_system) (html_file_path : string)
  : exc (list (section (list string))) :=
  if negb (path_exists fs html_file_path) then Ret []
  else
    match load_soup fs html_file_path with
    | Raise _ => Ret []
    | Ret soup =>
        match find soup "body" with
        | None => Ret []
        | Some body => sections_of_body body
        end
    end.

End Segmenter.

(* ===================================================================== *)
(** * Resolution of the image lists of a file's sections                  *)
(* ===================================================================== *)

(** The body of [for section in sections] in [extract_book_content]: both
    assignments bind a new list, so the lists read are those of the
    sections as [extract_content_sections] returned them. *)
Definition resolve_section (html_rel_dir : string) (valid_images : gset string)
    (s : section (list string)) : section (list string) :=
  mkSection (header s)
    (map (fun b => mkBlock (tag b) (text b) (html b)
                     (resolve_and_validate_images (images b) html_rel_dir valid_images)
                     (is_header b))
         (content s))
    (resolve_and_validate_images (section_images s) html_rel_dir valid_images).

(* ===================================================================== *)
(** * Notions of the specification                                        *)
(* ===================================================================== *)

(** The order-preserving union of the specification: duplicates removed,
    the first occurrence kept. *)
Fixpoint ordered_union (l : list string) : list string :=
  match l with
  | [] => []
  | x :: r => x :: List.filter (fun y => negb (String.eqb y x)) (ordered_union r)
  end.

(** A keyword occurs in a text whatever the case of the letters. *)
Definition contains_ignoring_case (kw s : string) : Prop :=
  exists pre mid post, s = pre +:+ mid +:+ post /\ PyStr.lower mid = PyStr.lower kw.

(** [wrapper_chain body e]: from [body] down to [e] every element has
    exactly one tag child, and [e] has none or at least two. *)
Inductive wrapper_chain : node -> node -> Prop :=
| chain_end (e : node) :
    length (tag_children e) <> 1 -> wrapper_chain e e
| chain_wrap (e only final : node) :
    tag_children e = [only] -> wrapper_chain only final -> wrapper_chain e final.

(** What the resolver makes of one reference on its own: the value it would
    append, if any. *)
Definition kept_value (html_rel_dir : string) (valid_images : gset string)
    (img_src : string) : option string :=
  match resolve_image_path img_src html_rel_dir with
  | Some resolved =>
      if PyStr.truthy resolved
         && (_is_external_url resolved || bool_decide (resolved ∈ valid_images))
      then Some resolved else None
  | None => None
  end.

(** The values the references of a list resolve to and pass validation
    with, one after the other, repetitions included. *)
Definition kept_values (html_rel_dir : string) (valid_images : gset string)
    (raw_images : list string) : list string :=
  flat_map (fun img_src => opt_list (kept_value html_rel_dir valid_images img_src))
           raw_images.

(* ===================================================================== *)
(** * The segmenter without the store                                     *)
(* ===================================================================== *)

(** The same loop over list values instead of list objects: the one list a
    header block shares with its section is written to both whenever it
    grows.  [segment_store_free] below shows [segment] computes this. *)
Section StoreFree.

Variable str_of : node -> string.

Record pure_state : Type := mkPure {
  p_sections : list (section (list string));
  p_header : option string;
  p_content : list (block (list string));
  p_images : list string
}.

(** The block made for a non-header element. *)
Definition block_of (child : node) : block (list string) :=
  mkBlock (name_of child) (PyStr.strip (get_text child)) (str_of child)
          (extract_child_images child) None.

(** The block made for a header element, before anything is added to its
    image list. *)
Definition header_block_of (child : node) : block (list string) :=
  mkBlock (name_of child) (PyStr.strip (get_text child)) (str_of child)
          (extract_child_images child) (Some true).

(** The header block sees the list of its section. *)
Definition retarget (imgs : list string) (b : block (list string))
  : block (list string) :=
  match is_header b with
  | Some true => mkBlock (tag b) (text b) (html b) imgs (is_header b)
  | _ => b
  end.

Definition pure_flush (ps : pure_state) : list (section (list string)) :=
  if match p_header ps with
     | Some h => PyStr.truthy h
     | None => false
     end || negb (length (p_content ps) =? 0)
  then p_sections ps ++ [mkSection (header_or_intro (p_header ps))
                                   (p_content ps) (p_images ps)]
  else p_sections ps.

(** An element passes both filters. *)
Definition survives (child : node) : bool :=
  match skipped child (extract_child_images child) with
  | Ret false => true
  | _ => false
  end.

Definition pure_step (ps : pure_state) (child : node) : pure_state :=
  if negb (survives child) then ps
  else if is_generic_header (Some child) then
    mkPure (pure_flush ps) (Some (PyStr.strip (get_text child)))
           [header_block_of child] (extract_child_images child)
  else
    let imgs := p_images ps ++ extract_child_images child in
    mkPure (p_sections ps) (p_header ps)
           (map (retarget imgs) (p_content ps) ++ [block_of child]) imgs.

Definition pure_segment (content_children : list node)
  : list (section (list string)) :=
  pure_flush (fold_left pure_step content_children (mkPure [] None [] [])).

End StoreFree.

(* ===================================================================== *)
(** * How a state of the segmenter reads as a store-free state            *)
(* ===================================================================== *)

(** Every reference of a finished section is older than [n]. *)
Definition refs_below (n : nat) (s : section ref) : Prop :=
  section_images s < n /\ Forall (fun b => images b < n) (content s).

(** A block of the open section: its list exists, and it is the list of the
    section exactly when the block is the header block. *)
Definition block_ref_ok (cur : ref) (h : store) (b : block ref) : Prop :=
  images b < length h
  /\ (is_header b = Some true -> images b = cur)
  /\ (is_header b <> Some true -> images b <> cur).

Definition sim (st : seg_state) (ps : pure_state) : Prop :=
  current_header st = p_header ps
  /\ current_images st < length (heap st)
  /\ deref (heap st) (current_images st) = p_images ps
  /\ map (snapshot_section (heap st)) (sections st) = p_sections ps
  /\ map (snapshot_block (heap st)) (current_content st) = p_content ps
  /\ Forall (refs_below (current_images st)) (sections st)
  /\ Forall (block_ref_ok (current_images st) (heap st)) (current_content st).

(** The image list of a section against those of its blocks: either the
    first block is the header block and holds the very list of the section,
    which covers the lists of the other blocks, or there is no header block
    and the list of the section is the lists of its blocks one after the
    other. *)
Definition section_ok (content : list (block (list string))) (imgs : list string)
  : Prop :=
  (exists hb rest,
      content = hb :: rest /\ is_header hb = Some true /\ images hb = imgs
      /\ incl (List.concat (map images rest)) imgs
      /\ Forall (fun b => is_header b = None) rest)
  \/ (Forall (fun b => is_header b = None) content
      /\ imgs = List.concat (map images content)).

(** The invariant of the loop: every section, finished or open, has its
    image list in step with its blocks. *)
Definition images_in_step (ps : pure_state) : Prop :=
  section_ok (p_content ps) (p_images ps)
  /\ Forall (fun s => section_ok (content s) (section_images s)) (p_sections ps).

(** A block is in the open section or in a finished one. *)
Definition holds_block (ps : pure_state) (b : block (list string)) : Prop :=
  (exists s, In s (p_sections ps) /\ In b (content s)) \/ In b (p_content ps).

(* ===================================================================== *)
(** * Further notions: paths and references                               *)
(* ===================================================================== *)

(** A path as the normalizer leaves it: no backslash, no leading [../]. *)
Definition clean_path (p : string) : Prop :=
  PyStr.contains "\" p = false /\ PyStr.startswith "../" p = false.

(** A value the resolver may give out: not empty, and either beginning with
    an external prefix or a member of the set of known images. *)
Definition validated (valid_images : gset string) (x : string) : Prop :=
  x <> "" /\ (_is_external_url x = true \/ x ∈ valid_images).

(* ===================================================================== *)
(** * Further notions: the tree                                           *)
(* ===================================================================== *)

(** An [h1]..[h6] element. *)
Definition is_heading (n : node) : bool := str_in (name_of n) HEADING_TAGS.

(** The [h1]..[h6] elements among some nodes, each by its name and its
    attributes, in the order of the nodes. *)
Definition heading_list (ds : list node) : list (string * list (string * attr_value)) :=
  map (fun d => (name_of d, attrs_of d)) (List.filter is_heading ds).

(** The [h1]..[h6] elements below a node, in document order. *)
Definition headings (n : node) : list (string * list (string * attr_value)) :=
  heading_list (descendants n).

(** Where a content element sits: it is a tag child of the container, or a
    tag child of a [div], [section] or [article] tag child of it. *)
Definition at_content_level (current_container c : node) : Prop :=
  In c (tag_children current_container)
  \/ exists p, In p (tag_children current_container)
               /\ str_in (name_of p) CONTAINER_TAGS = true
               /\ In c (tag_children p).

(* ===================================================================== *)
(** * Further notions: sections and blocks                                *)
(* ===================================================================== *)

(** What is fixed of a block when it is made: tag, text, markup and the
    header flag. *)
Definition block_sig {I : Type} (b : block I) : string * string * string * option bool :=
  (tag b, text b, html b, is_header b).

(** The same four for the block a content element gives. *)
Definition element_sig (str_of : node -> string) (c : node)
  : string * string * string * option bool :=
  (name_of c, PyStr.strip (get_text c), str_of c,
   if is_generic_header (Some c) then Some true else None).

(** A block that is no header block. *)
Definition is_plain {I : Type} (b : block I) : bool :=
  match is_header b with
  | Some true => false
  | _ => true
  end.

(** The shape of a section of the result: it has a first block; no block
    after the first is a header block; if the first block is a header
    block, the header of the section is its text ([Intro] if that is empty)
    and its image list is the list of the section; otherwise the header is
    [Intro]. *)
Definition well_formed_section (s : section (list string)) : Prop :=
  match content s with
  | [] => False
  | b :: rest =>
      Forall (fun b' => is_header b' = None) rest
      /\ match is_header b with
         | Some true =>
             header s = (if PyStr.truthy (text b) then text b else "Intro")
             /\ images b = section_images s
         | _ => header s = "Intro"
         end
  end.

(** The open section of a store-free state has that shape, too. *)
Definition open_section_shape (ps : pure_state) : Prop :=
  match p_header ps with
  | None => Forall (fun b => is_header b = None) (p_content ps)
  | Some h =>
      exists hb rest,
        p_content ps = hb :: rest /\ is_header hb = Some true /\ text hb = h
        /\ images hb = p_images ps
        /\ Forall (fun b => is_header b = None) rest
  end.

Definition sections_shape (ps : pure_state) : Prop :=
  open_section_shape ps /\ Forall well_formed_section (p_sections ps).

(** The blocks of a store-free state, finished sections first. *)
Definition all_blocks (ps : pure_state) : list (block (list string)) :=
  List.concat (map content (p_sections ps)) ++ p_content ps.

(** A state with some more finished sections in front. *)
Definition with_prefix (done : list (section (list string))) (ps : pure_state)
  : pure_state :=
  mkPure (done ++ p_sections ps) (p_header ps) (p_content ps) (p_images ps).

(** The first element that passes the filters is no header. *)
Definition first_survivor_plain (l : list node) : bool :=
  match List.filter survives l with
  | c :: _ => negb (is_generic_header (Some c))
  | [] => false
  end.

(* ===================================================================== *)
(** * Further notions: path components                                    *)
(* ===================================================================== *)

(** A name as a directory listing gives it: not empty, not [.] or [..],
    without a separator or a backslash. *)
Definition plain_comp (c : string) : bool :=
  PyStr.truthy c && negb (String.eqb c ".") && negb (String.eqb c "..")
  && negb (PyStr.contains "/" c) && negb (PyStr.contains "\" c).

(** Such a name that, written in a reference, is read whole: it has no
    [#] and no [?]. *)
Definition ref_comp (c : string) : bool :=
  plain_comp c && negb (PyStr.contains "#" c) && negb (PyStr.contains "?" c).

(** A component the loop of [normpath] appends as it is. *)
Definition ordinary (c : string) : bool :=
  PyStr.truthy c && negb (String.eqb c ".") && negb (String.eqb c "..").

(** A relative path written from its components. *)
Definition path_of (comps : list string) : string := PyStr.join "/" comps.

(* ===================================================================== *)
(** * The images and the documents of a package                           *)
(* ===================================================================== *)

Definition IMAGE_EXTENSIONS : list string :=
  [".jpg"; ".jpeg"; ".png"; ".gif"; ".svg"; ".webp"].

Definition HTML_EXTENSIONS : list string := [".html"; ".xhtml"; ".htm"].

Definition SKIP_DIRS : list string := ["META-INF"; "__MACOSX"; ".git"].

(** [file.lower().endswith(IMAGE_EXTENSIONS)] *)
Definition is_image_file (file : string) : bool :=
  PyStr.endswith_any IMAGE_EXTENSIONS (PyStr.lower file).

(** [file.endswith(('.html', '.xhtml', '.htm'))] *)
Definition is_html_file (file : string) : bool :=
  PyStr.endswith_any HTML_EXTENSIONS file.

(** [any(skip in root for skip in ['META-INF', '__MACOSX', '.git'])] *)
Definition skipped_root (root : string) : bool :=
  existsb (fun skip => PyStr.contains skip root) SKIP_DIRS.

(** What [os.walk] gives for a directory: its [(root, dirs, files)]
    triples in the order of the walk. *)
Abbreviation walk_listing := (list (string * list string * list string)) (only parsing).

(** A loop whose body may raise: [None] as soon as one turn gives [None]. *)
Fixpoint fold_option {A S : Type} (f : S -> A -> option S) (l : list A) (s : S)
  : option S :=
  match l with
  | [] => Some s
  | a :: rest =>
      match f s a with
      | Some s' => fold_option f rest s'
      | None => None
      end
  end.

Section Package.

(** The working directory of the process, which [relpath] reads. *)
Variable cwd : string.

(** The listing [os.walk(epub_directory_path)] gives. *)
Variable walk : walk_listing.

Variable epub_directory_path : string.

(** One turn of [for file in files] in [discover_epub_images]. *)
Definition discover_file (root : string) (image_paths : gset string) (file : string)
  : option (gset string) :=
  if is_image_file file then
    let file_path := PosixPath.join root file in
    match PosixPath.relpath cwd file_path epub_directory_path with
    | Some relative_path => Some ({[ _normalize_path relative_path ]} ∪ image_paths)
    | None => None
    end
  else Some image_paths.

Definition discover_epub_images : option (gset string) :=
  fold_option
    (fun image_paths '(root, _, files) =>
       fold_option (discover_file root) files image_paths)
    walk ∅.

Variable str_of : node -> string.
Variable fs : file_system.

(** One turn of [for file in files] in [extract_book_content]. *)
Definition book_file (valid_images : gset string) (root : string)
    (content_data : gmap string (list (section (list string)))) (file : string)
  : option (gmap string (list (section (list string)))) :=
  if is_html_file file then
    let file_path := PosixPath.join root file in
    match PosixPath.relpath cwd file_path epub_directory_path with
    | None => None
    | Some relative_path =>
        let relative_path := PyStr.replace "\" "/" relative_path in
        match extract_content_sections str_of fs file_path with
        | Raise _ => None
        | Ret sections =>
            if negb (length sections =? 0) then
              let html_rel_dir := PosixPath.dirname relative_path in
              Some (<[relative_path :=
                        map (resolve_section html_rel_dir valid_images) sections]>
                      content_data)
            else Some content_data
        end
    end
  else Some content_data.

(** One turn of [for root, dirs, files in os.walk(...)]. *)
Definition book_root (valid_images : gset string)
    (content_data : gmap string (list (section (list string))))
    (entry : string * list string * list string)
  : option (gmap string (list (section (list string)))) :=
  let '(root, _, files) := entry in
  if skipped_root root then Some content_data
  else fold_option (book_file valid_images root) files content_data.

(** [extract_book_content]; [None] when an exception escapes. *)
Definition extract_book_content : option (gmap string (list (section (list string)))) :=
  match discover_epub_images with
  | None => None
  | Some valid_images => fold_option (book_root valid_images) walk ∅
  end.

End Package.

(** A section all of whose image lists, its own and those of its blocks,
    hold validated values only. *)
Definition section_validated (valid_images : gset string)
    (s : section (list string)) : Prop :=
  Forall (validated valid_images) (section_images s)
  /\ Forall (fun b => Forall (validated valid_images) (images b)) (content s).

(** Where an entry of the result of [extract_book_content] comes from. *)
Definition entry_of_file (cwd : string) (walk : walk_listing)
    (epub_directory_path : string) (str_of : node -> string) (fs : file_system)
    (valid_images : gset string)
    (key : string) (secs : list (section (list string))) : Prop :=
  exists root dirs files file relative_path sections,
    In (root, dirs, files) walk /\ In file files
    /\ skipped_root root = false /\ is_html_file file = true
    /\ PosixPath.relpath cwd (PosixPath.join root file) epub_directory_path
       = Some relative_path
    /\ key = PyStr.replace "\" "/" relative_path
    /\ extract_content_sections str_of fs (PosixPath.join root file) = Ret sections
    /\ sections <> []
    /\ secs = map (resolve_section (PosixPath.dirname key) valid_images) sections.

(** Where a discovered image path comes from. *)
Definition image_of_file (cwd : string) (walk : walk_listing)
    (epub_directory_path : string) (p : string) : Prop :=
  exists root dirs files file relative_path,
    In (root, dirs, files) walk /\ In file files
    /\ is_image_file file = true
    /\ PosixPath.relpath cwd (PosixPath.join root file) epub_directory_path
       = Some relative_path
    /\ p = _normalize_path relative_path.

(** A directory or file named by its components, from the root of the
    file system or from the working directory. *)
Definition package_path (absolute : bool) (comps : list string) : string :=
  if absolute then "/" +:+ path_of comps else path_of comps.

(** The components of the absolute path of a package directory [T], which
    is taken from the working directory [W] unless it is absolute. *)
Definition package_base (absolute : bool) (W T : list string) : list string :=
  if absolute then T else W ++ T.

(** An image reference of an element: the [src] of an [img], or the [href]
    of an [image], that is the element or lies below it. *)
Definition image_reference (child : node) (x : string) : Prop :=
  exists d,
    (d = child \/ In d (descendants child))
    /\ ((name_of d = "img" /\ src_of d = Some x)
        \/ (name_of d = "image" /\ href_of d = Some x)).

(* ===================================================================== *)
(** * The command line: the cover of a book                               *)
(* ===================================================================== *)

(** [Path(f).name]: the last component of the path, its empty and [.]
    components left aside; empty when there is none. *)
Definition path_name (f : string) : string :=
  List.last
    (List.filter (fun x => PyStr.truthy x && negb (String.eqb x "."))
                 (PyStr.split "/" f))
    "".

Definition cover_patterns : list string :=
  ["cover."; "Cover."; "COVER."; "cover-image"; "coverimage"].

(** The test of the first loop of [cover], on one file of the archive. *)
Definition cover_named (f : string) : bool :=
  let fname := PyStr.lower (path_name f) in
  existsb (fun p => PyStr.contains (PyStr.lower p) fname) cover_patterns
  && PyStr.endswith_any IMAGE_EXTENSIONS fname.

(** [not cover_file] for a variable that holds [None] or a string. *)
Definition unset (cover_file : option string) : bool :=
  match cover_file with
  | None => true
  | Some f => negb (PyStr.truthy f)
  end.

(** The choice of the cover file in [cover]; [None] is the error
    [No cover image found in EPUB]. *)
Definition find_cover (all_files : list string) : option string :=
  let cover_file := List.find cover_named all_files in
  let cover_file :=
    if unset cover_file then
      let image_files := List.filter is_image_file all_files in
      if negb (length image_files =? 0) then
        let cover_file :=
          match List.find (fun img => PyStr.contains "cover" (PyStr.lower img))
                          image_files with
          | Some img => Some img
          | None => cover_file
          end in
        if unset cover_file && negb (length image_files =? 0)
        then Some (hd "" image_files) else cover_file
      else cover_file
    else cover_file in
  if unset cover_file then None else cover_file.

(* ===================================================================== *)
(** * The command line: shortening a text                                 *)
(* ===================================================================== *)

(** The first [n] characters of a string, or all of it. *)
Fixpoint take_chars (n : nat) (s : string) : string :=
  match n, s with
  | S n', String a r => String a (take_chars n' r)
  | _, _ => EmptyString
  end.

(** [s[:k]]: a negative [k] counts from the end. *)
Definition slice_to (k : Z) (s : string) : string :=
  let n := Z.of_nat (String.length s) in
  let stop := if (k <? 0)%Z then Z.max (n + k) 0 else Z.min k n in
  take_chars (Z.to_nat stop) s.

Definition truncate_text (text : string) (max_length : Z) : string :=
  if (Z.of_nat (String.length text) <=? max_length)%Z then text
  else slice_to (max_length - 3) text +:+ "...".

(* ===================================================================== *)
(** * Further notions of the specification                                *)
(* ===================================================================== *)

(** The path the specification describes for a reference that is not
    external: the reference without its fragment and query, taken from the
    containing directory, with the separators normalized and the [..]
    segments collapsed. *)
Definition described_path (html_rel_dir img_src : string) : string :=
  PosixPath.normpath
    (PosixPath.join html_rel_dir (PyStr.replace "\" "/" (base_src_of img_src))).

(** The strings of an element that lie inside a hyperlink element, the
    element itself counted when it is one. *)
Fixpoint strings_in_anchors (inside : bool) (n : node) : list string :=
  match n with
  | NavigableString s => if inside then [s] else []
  | Comment _ => []
  | Tag name _ contents =>
      flat_map (strings_in_anchors (inside || String.eqb name "a")) contents
  end.

(** The text inside hyperlink elements, stripped like the text of the
    element. *)
Definition anchor_text (child : node) : string :=
  PyStr.concat
    (List.filter PyStr.truthy (map PyStr.strip (strings_in_anchors false child))).

(* ===================================================================== *)
(** * Sample documents                                                    *)
(* ===================================================================== *)

Module Samples.

Definition no_markup (n : node) : string := name_of n.

Definition para (s : string) : node := Tag "p" [] [NavigableString s].

Definition five_paragraphs : list node :=
  [para "one"; para "two"; para "three"; para "four"; para "five"].

(** Three nested single-child divs around five paragraphs. *)
Definition wrapped_body : node :=
  Tag "body" []
    [NavigableString " ";
     Tag "div" [("class", AList ["outer"])]
       [Tag "div" [] [Tag "div" [("id", AStr "inner")] five_paragraphs]]].

(** 50 characters of text, 40 of them inside an anchor. *)
Definition breadcrumb : node :=
  Tag "p" []
    [Tag "a" [("href", AStr "toc.xhtml")]
       [NavigableString "0123456789012345678901234567890123456789"];
     NavigableString "abcdefghij"].

(** No text, one image. *)
Definition figure : node :=
  Tag "div" [] [Tag "img" [("src", AStr "../images/fig1.png")] []].

(** One paragraph naming the same image twice. *)
Definition twice : node :=
  Tag "p" []
    [Tag "img" [("src", AStr "a.png")] []; Tag "img" [("src", AStr "a.png")] []].

Definition chapter_title : node :=
  Tag "div" [("class", AList ["Chapter-Title"; "big"])] [NavigableString " One "].

Definition one_file (soup : parse_result) : file_system :=
  fun path => if String.eqb path "ch1.xhtml" then Readable soup soup else Missing.

End Samples.

(** A content element that is itself a hyperlink, with 50 characters of
    text. *)
Definition anchor_block : node :=
  Tag "a" [("href", AStr "toc.xhtml")]
    [NavigableString "Back to the table of contents of the whole volume."].

(* ===================================================================== *)
(** * A sample package                                                    *)
(* ===================================================================== *)

Module SamplePackage.

Definition cwd : string := "/home/u".

Definition top : string := "book".

(** The listing of a small unpacked book. *)
Definition listing : list (string * list string * list string) :=
  [("book", ["OEBPS"; "META-INF"], ["mimetype"]);
   ("book/OEBPS", ["Text"; "images"], ["content.opf"]);
   ("book/OEBPS/Text", [], ["ch1.xhtml"; "notes.txt"]);
   ("book/OEBPS/images", [], ["cover.jpg"; "Fig1.PNG"]);
   ("book/META-INF", [], ["container.xml"; "about.html"])].

(** A chapter with a title, a known image, an image the package does not
    hold, and a remote one. *)
Definition chapter : node :=
  Tag "[document]" []
    [Tag "html" []
       [Tag "body" []
          [Tag "h1" [] [NavigableString "One"];
           Tag "p" []
             [NavigableString "first";
              Tag "img" [("src", AStr "../images/cover.jpg")] []];
           Tag "p" []
             [NavigableString "second";
              Tag "img" [("src", AStr "../images/missing.png")] [];
              Tag "img" [("src", AStr "https://example.org/a.png")] []]]]].

Definition files : file_system :=
  fun path =>
    if String.eqb path "book/OEBPS/Text/ch1.xhtml"
    then Readable (Parsed chapter) (Parsed chapter)
    else if String.eqb path "book/META-INF/about.html"
    then Readable (Parsed chapter) (Parsed chapter)
    else Missing.

Definition images : gset string :=
  {[ "OEBPS/images/cover.jpg"; "OEBPS/images/Fig1.PNG" ]}.

Definition book : gmap string (list (section (list string))) :=
  {[ "OEBPS/Text/ch1.xhtml" :=
       [mkSection "One"
          [mkBlock "h1" "One" "h1"
             ["OEBPS/images/cover.jpg"; "https://example.org/a.png"] (Some true);
           mkBlock "p" "first" "p" ["OEBPS/images/cover.jpg"] None;
           mkBlock "p" "second" "p" ["https://example.org/a.png"] None]
          ["OEBPS/images/cover.jpg"; "https://example.org/a.png"]] ]}.

End SamplePackage.

(* ===================================================================== *)
(** * Sample runs                                                         *)
(* ===================================================================== *)

Example normpath_collapses :
  PosixPath.normpath "OEBPS/Text/../images//./cover.jpg" = "OEBPS/images/cover.jpg".
Proof. vm_compute. reflexivity. Qed.

Example normpath_keeps_leading_parent :
  PosixPath.normpath "a/../../x.png" = "../x.png".
Proof. vm_compute. reflexivity. Qed.

Example normalize_path_drops_leading_parents :
  _normalize_path "..\../images\x.png" = "images/x.png".
Proof. vm_compute. reflexivity. Qed.

Example join_absolute : PosixPath.join "OEBPS/Text" "/cover.jpg" = "/cover.jpg".
Proof. vm_compute. reflexivity. Qed.

Example split_fragment : PyStr.split "#" "a.png#x#y" = ["a.png"; "x"; "y"].
Proof. vm_compute. reflexivity. Qed.

Example strip_both_ends : PyStr.strip "  One two  " = "One two".
Proof. vm_compute. reflexivity. Qed.

Example resolve_list :
  resolve_and_validate_images
    ["../images/cover.jpg"; "a.png#top"; "https://example.com/x.png";
     "../Text/a.png"; "missing.png"; "#only"]
    "OEBPS/Text" {[ "OEBPS/Text/a.png"; "OEBPS/images/cover.jpg" ]}
  = ["OEBPS/images/cover.jpg"; "OEBPS/Text/a.png"; "https://example.com/x.png"].
Proof. vm_compute. reflexivity. Qed.

Example empty_title_is_no_header :
  is_generic_header
    (Some (Tag "div" [("class", AList ["title"])] [])) = false.
Proof. vm_compute. reflexivity. Qed.

Example stripping_keeps_header_in_junk :
  strip_junk
    (Tag "body" []
       [Tag "nav" [] [Samples.para "menu"];
        Tag "header" [] [Tag "h1" [] [NavigableString "One"]]])
  = Tag "body" [] [Tag "header" [] [Tag "h1" [] [NavigableString "One"]]].
Proof. vm_compute. reflexivity. Qed.

(** A header block shares its image list with its section: it shows the
    images of the blocks that follow it. *)
Example header_block_shares_images :
  segment Samples.no_markup
    [Tag "h1" [] [NavigableString "One"; Tag "img" [("src", AStr "h.png")] []];
     Samples.figure]
  = Ret [mkSection "One"
           [mkBlock "h1" "One" "h1" ["h.png"; "../images/fig1.png"] (Some true);
            mkBlock "div" "" "div" ["../images/fig1.png"] None]
           ["h.png"; "../images/fig1.png"]].
Proof. vm_compute. reflexivity. Qed.

Example wrapped_body_sections :
  extract_content_sections Samples.no_markup
    (Samples.one_file
       (Parsed (Tag "[document]" [] [Tag "html" [] [Samples.wrapped_body]])))
    "ch1.xhtml"
  = Ret [mkSection "Intro"
           [mkBlock "p" "one" "p" [] None; mkBlock "p" "two" "p" [] None;
            mkBlock "p" "three" "p" [] None; mkBlock "p" "four" "p" [] None;
            mkBlock "p" "five" "p" [] None]
           []].
Proof. vm_compute. reflexivity. Qed.

(* ===================================================================== *)
(** * Properties: lists and the order-preserving union                    *)
(* ===================================================================== *)

Section ListFacts.

Lemma filter_twice {A : Type} (f g : A -> bool) (l : list A) :
  List.filter f (List.filter g l) = List.filter (fun x => g x && f x) l.
Proof.
  induction l as [|a l IH]; simpl; [reflexivity|].
  destruct (g a); simpl; [destruct (f a)|]; rewrite ?IH; reflexivity.
Qed.

Lemma filter_all {A : Type} (f : A -> bool) (l : list A) :
  (forall x, In x l -> f x = true) -> List.filter f l = l.
Proof.
  induction l as [|a l IH]; simpl; intros H; [reflexivity|].
  rewrite (H a) by (left; reflexivity).
  f_equal. apply IH. intros x Hx. apply H. right. exact Hx.
Qed.

Lemma filter_none {A : Type} (f : A -> bool) (l : list A) :
  (forall x, In x l -> f x = false) -> List.filter f l = [].
Proof.
  induction l as [|a l IH]; simpl; intros H; [reflexivity|].
  rewrite (H a) by (left; reflexivity).
  apply IH. intros x Hx. apply H. right. exact Hx.
Qed.

Lemma str_in_In (x : string) (l : list string) :
  str_in x l = true <-> In x l.
Proof.
  unfold str_in. rewrite existsb_exists. split.
  - intros [y [Hy He]]. apply String.eqb_eq in He. subst y. exact Hy.
  - intros H. exists x. split; [exact H | apply String.eqb_refl].
Qed.

Lemma ordered_union_In (l : list string) (y : string) :
  In y (ordered_union l) <-> In y l.
Proof.
  induction l as [|x r IH]; simpl; [tauto|].
  rewrite filter_In, IH, negb_true_iff, String.eqb_neq.
  destruct (String.eqb_spec y x) as [->|Hne]; intuition congruence.
Qed.

Lemma ordered_union_NoDup (l : list string) : List.NoDup (ordered_union l).
Proof.
  induction l as [|x r IH]; simpl; constructor.
  - rewrite filter_In, String.eqb_refl. intros [_ H]. discriminate H.
  - apply List.NoDup_filter. exact IH.
Qed.

Lemma ordered_union_filter (f : string -> bool) (l : list string) :
  List.filter f (ordered_union l) = ordered_union (List.filter f l).
Proof.
  induction l as [|x r IH]; simpl; [reflexivity|].
  destruct (f x) eqn:Hf; simpl.
  - f_equal. rewrite filter_twice.
    rewrite <- IH, filter_twice. apply filter_ext. intros a. apply andb_comm.
  - rewrite filter_twice, <- IH.
    apply filter_ext_in. intros a Ha.
    destruct (String.eqb_spec a x) as [->|Hne]; simpl; [|reflexivity].
    symmetry. exact Hf.
Qed.

Lemma ordered_union_app (a b : list string) :
  ordered_union (a ++ b) =
  ordered_union a ++ List.filter (fun y => negb (str_in y a)) (ordered_union b).
Proof.
  induction a as [|x a IH]; simpl.
  - symmetry. apply filter_all. reflexivity.
  - f_equal. rewrite IH, List.filter_app, filter_twice. f_equal.
    apply filter_ext. intros y.
    destruct (String.eqb y x), (str_in y a); reflexivity.
Qed.

Lemma ordered_union_fixed (l : list string) :
  List.NoDup l -> ordered_union l = l.
Proof.
  induction 1 as [|x r Hx Hr IH]; simpl; [reflexivity|].
  rewrite IH. f_equal. apply filter_all.
  intros y Hy. apply negb_true_iff, String.eqb_neq. intros ->. contradiction.
Qed.

Lemma ordered_union_absorb (a b : list string) :
  incl b a -> ordered_union (a ++ b) = ordered_union a.
Proof.
  intros Hincl. rewrite ordered_union_app, filter_none, app_nil_r; [reflexivity|].
  intros y Hy. apply negb_false_iff, str_in_In, Hincl, ordered_union_In, Hy.
Qed.

Lemma ordered_union_app_l (a b : list string) :
  ordered_union (ordered_union a ++ b) = ordered_union (a ++ b).
Proof.
  rewrite !ordered_union_app.
  rewrite (ordered_union_fixed (ordered_union a)) by apply ordered_union_NoDup.
  f_equal. apply filter_ext. intros y. f_equal.
  apply eq_true_iff_eq. rewrite !str_in_In. apply ordered_union_In.
Qed.

Lemma ordered_union_concat (ls : list (list string)) :
  ordered_union (List.concat (map ordered_union ls)) = ordered_union (List.concat ls).
Proof.
  induction ls as [|l ls IH]; simpl; [reflexivity|].
  rewrite ordered_union_app_l, !ordered_union_app, IH. reflexivity.
Qed.

End ListFacts.

(* ===================================================================== *)
(** * Properties: the image reference resolver                            *)
(* ===================================================================== *)

Section Resolver.

Variable html_rel_dir : string.
Variable valid_images : gset string.

Lemma resolve_loop_spec (raw_images : list string) :
  forall (seen : gset string) (result : list string),
    resolve_loop html_rel_dir valid_images raw_images seen result =
    result ++ List.filter (fun y => negb (bool_decide (y ∈ seen)))
                          (ordered_union (kept_values html_rel_dir valid_images raw_images)).
Proof.
  induction raw_images as [|img_src rest IH]; intros seen result; simpl.
  - symmetry. apply app_nil_r.
  - unfold kept_value.
    destruct (resolve_image_path img_src html_rel_dir) as [resolved|]; simpl;
      [|apply IH].
    destruct (PyStr.truthy resolved) eqn:Ht; simpl; [|apply IH].
    destruct (bool_decide (resolved ∈ seen)) eqn:Hseen; simpl.
    + rewrite IH. f_equal.
      destruct (_is_external_url resolved || bool_decide (resolved ∈ valid_images));
        simpl; [|reflexivity].
      rewrite Hseen. simpl. rewrite filter_twice.
      apply filter_ext. intros y.
      destruct (String.eqb_spec y resolved) as [->|Hne]; simpl; [|reflexivity].
      rewrite Hseen. reflexivity.
    + destruct (_is_external_url resolved || bool_decide (resolved ∈ valid_images));
        simpl; [|apply IH].
      rewrite Hseen. simpl. rewrite IH, <- app_assoc. simpl. do 2 f_equal.
      rewrite filter_twice. apply filter_ext. intros y.
      destruct (String.eqb_spec y resolved) as [->|Hne]; simpl.
      * rewrite bool_decide_eq_true_2 by set_solver. reflexivity.
      * destruct (bool_decide (y ∈ seen)) eqn:Hy.
        -- apply bool_decide_eq_true in Hy.
           rewrite bool_decide_eq_true_2 by set_solver. reflexivity.
        -- apply bool_decide_eq_false in Hy.
           rewrite bool_decide_eq_false_2; [reflexivity|].
           rewrite elem_of_union, elem_of_singleton. tauto.
  Qed.

Lemma resolve_ordered_union (raw_images : list string) :
  resolve_and_validate_images raw_images html_rel_dir valid_images =
  ordered_union (kept_values html_rel_dir valid_images raw_images).
Proof.
  unfold resolve_and_validate_images. rewrite resolve_loop_spec. simpl.
  apply filter_all. intros y _.
  rewrite bool_decide_eq_false_2 by set_solver. reflexivity.
Qed.

Lemma kept_values_app (a b : list string) :
  kept_values html_rel_dir valid_images (a ++ b) =
  kept_values html_rel_dir valid_images a ++ kept_values html_rel_dir valid_images b.
Proof. unfold kept_values. apply flat_map_app. Qed.

Lemma kept_values_incl (a b : list string) :
  incl a b ->
  incl (kept_values html_rel_dir valid_images a)
       (kept_values html_rel_dir valid_images b).
Proof.
  unfold kept_values. intros H y Hy.
  apply in_flat_map in Hy as [x [Hx Hy]].
  apply in_flat_map. exists x. split; [apply H, Hx | exact Hy].
Qed.

End Resolver.

Lemma external_truthy (path : string) :
  _is_external_url path = true -> PyStr.truthy path = true.
Proof. destruct path; [discriminate | reflexivity]. Qed.

Lemma resolve_single (img_src html_rel_dir : string) (valid_images : gset string) :
  resolve_and_validate_images [img_src] html_rel_dir valid_images =
  opt_list (kept_value html_rel_dir valid_images img_src).
Proof.
  rewrite resolve_ordered_union. unfold kept_values. simpl. rewrite app_nil_r.
  destruct (kept_value html_rel_dir valid_images img_src); reflexivity.
Qed.

Lemma resolve_image_path_internal (img_src html_rel_dir : string) :
  _is_external_url img_src = false ->
  resolve_image_path img_src html_rel_dir =
  if PyStr.truthy (base_src_of img_src)
  then Some (_normalize_path
               (PosixPath.normpath (PosixPath.join html_rel_dir (base_src_of img_src))))
  else None.
Proof.
  intros Hext. unfold resolve_image_path. rewrite Hext.
  destruct (PyStr.truthy _); reflexivity.
Qed.

(** C7. The output of the image reference resolver holds no value twice;
    it is the order-preserving union (first occurrence kept) of the values
    the references resolve to and are kept with, so its order is the order
    in which those values first appear in the input. *)
Theorem resolver_dedup_first_occurrence
    (raw_images : list string) (html_rel_dir : string) (valid_images : gset string) :
  let out := resolve_and_validate_images raw_images html_rel_dir valid_images in
  List.NoDup out
  /\ out = ordered_union (kept_values html_rel_dir valid_images raw_images)
  /\ (forall x, In x out <-> In x (kept_values html_rel_dir valid_images raw_images)).
Proof.
  cbv zeta. rewrite resolve_ordered_union. split; [|split].
  - apply ordered_union_NoDup.
  - reflexivity.
  - intros x. apply ordered_union_In.
Qed.

(** C3. Where the resolver departs from the claim.  The reference
    [..\images\x.png] in a document of [OEBPS/Text] is not external; with
    the separators normalized and the [..] segment collapsed it names
    [OEBPS/images/x.png], an image the package holds.  The resolver
    collapses the [..] segments before it normalizes the separators, so it
    comes to [OEBPS/Text/../images/x.png] and drops the reference, while the
    same reference written with [/] is kept.  And the reference [./data:x]
    of a document at the root of the package, not external either, is kept
    although no image is known: the external prefixes are tested again on
    the resolved value [data:x]. *)
Theorem resolver_departs_from_claim :
  (_is_external_url "..\images\x.png" = false
   /\ described_path "OEBPS/Text" "..\images\x.png" = "OEBPS/images/x.png"
   /\ resolve_image_path "..\images\x.png" "OEBPS/Text"
      = Some "OEBPS/Text/../images/x.png"
   /\ resolve_and_validate_images ["..\images\x.png"] "OEBPS/Text"
        {[ "OEBPS/images/x.png" ]} = []
   /\ resolve_and_validate_images ["../images/x.png"] "OEBPS/Text"
        {[ "OEBPS/images/x.png" ]} = ["OEBPS/images/x.png"])
  /\ (_is_external_url "./data:x" = false
      /\ described_path "" "./data:x" = "data:x"
      /\ resolve_and_validate_images ["./data:x"] "" ∅ = ["data:x"]).
Proof.
  split.
  - split; [reflexivity|]. split; [vm_compute; reflexivity|].
    split; [vm_compute; reflexivity|].
    split; rewrite resolve_single; unfold kept_value.
    + replace (resolve_image_path "..\images\x.png" "OEBPS/Text")
        with (Some "OEBPS/Text/../images/x.png") by (vm_compute; reflexivity).
      rewrite bool_decide_eq_false_2
        by (intros H; apply elem_of_singleton in H; discriminate H).
      reflexivity.
    + replace (resolve_image_path "../images/x.png" "OEBPS/Text")
        with (Some "OEBPS/images/x.png") by (vm_compute; reflexivity).
      rewrite bool_decide_eq_true_2 by (apply elem_of_singleton; reflexivity).
      reflexivity.
  - split; [reflexivity|]. split; [vm_compute; reflexivity|].
    rewrite resolve_single. unfold kept_value.
    replace (resolve_image_path "./data:x" "")
      with (Some "data:x") by (vm_compute; reflexivity).
    reflexivity.
Qed.

(* ===================================================================== *)
(** * Properties: strings                                                 *)
(* ===================================================================== *)

Section StringFacts.

Lemma prefix_iff (p s : string) :
  String.prefix p s = true <-> exists r, s = p +:+ r.
Proof.
  revert s. induction p as [|a p IH]; intros s; simpl.
  - split; [intros _; exists s; reflexivity | destruct s; reflexivity].
  - destruct s as [|b s]; simpl.
    + split; [discriminate | intros [r Hr]; discriminate Hr].
    + destruct (ascii_dec a b) as [->|Hne].
      * rewrite IH. split; intros [r Hr]; exists r; simpl in *; congruence.
      * split; [discriminate | intros [r Hr]; simpl in Hr; congruence].
Qed.

Lemma contains_iff (sub s : string) :
  PyStr.contains sub s = true <-> exists pre post, s = pre +:+ sub +:+ post.
Proof.
  induction s as [|a s IH]; cbn [PyStr.contains]; rewrite orb_true_iff, prefix_iff.
  - split.
    + intros [[r Hr]|H]; [|discriminate]. exists "", r. exact Hr.
    + intros [pre [post H]]. left. exists post.
      destruct pre; [exact H | discriminate H].
  - rewrite IH. split.
    + intros [[r Hr]|[pre [post H]]].
      * exists "", r. exact Hr.
      * exists (String a pre), post. simpl. congruence.
    + intros [[|b pre] [post H]].
      * left. exists post. exact H.
      * right. exists pre, post. simpl in H. congruence.
Qed.

Lemma lower_app (a b : string) :
  PyStr.lower (a +:+ b) = PyStr.lower a +:+ PyStr.lower b.
Proof. induction a as [|c a IH]; simpl; congruence. Qed.

Lemma lower_app_inv (a b s : string) :
  PyStr.lower s = a +:+ b ->
  exists a' b', s = a' +:+ b' /\ PyStr.lower a' = a /\ PyStr.lower b' = b.
Proof.
  revert s. induction a as [|c a IH]; intros s H; simpl in H.
  - exists "", s. auto.
  - destruct s as [|d s]; simpl in H; [discriminate|].
    injection H as Hc Hs. destruct (IH s Hs) as [a' [b' [-> [Ha Hb]]]].
    exists (String d a'), b'. simpl. repeat split; congruence.
Qed.

(** A search in the lowered text is a search that ignores case. *)
Lemma contains_lower_iff (kw s : string) :
  PyStr.lower kw = kw ->
  (PyStr.contains kw (PyStr.lower s) = true <-> contains_ignoring_case kw s).
Proof.
  intros Hkw. rewrite contains_iff. unfold contains_ignoring_case. split.
  - intros [pre [post H]].
    apply lower_app_inv in H as [pre' [rest [-> [Hpre Hrest]]]].
    apply lower_app_inv in Hrest as [mid [post' [-> [Hmid Hpost]]]].
    exists pre', mid, post'. split; congruence.
  - intros [pre [mid [post [-> Hmid]]]].
    exists (PyStr.lower pre), (PyStr.lower post).
    rewrite !lower_app. congruence.
Qed.

Lemma truthy_iff (s : string) : PyStr.truthy s = true <-> s <> "".
Proof.
  unfold PyStr.truthy. rewrite negb_true_iff. apply String.eqb_neq.
Qed.

Lemma py_eq_str_iff (v : option attr_value) (s : string) :
  py_eq_str v s = true <-> v = Some (AStr s).
Proof.
  destruct v as [[x|l]|]; simpl; try (split; [discriminate | congruence]).
  rewrite String.eqb_eq. split; congruence.
Qed.

End StringFacts.

(* ===================================================================== *)
(** * Properties: the header detector                                     *)
(* ===================================================================== *)

Lemma keywords_lowercase : Forall (fun kw => PyStr.lower kw = kw) keywords.
Proof. repeat constructor. Qed.

(** C4. An element is a header if its tag name is one of [h1]..[h6], or
    its role is [heading], or else exactly when its class list and id,
    joined, contain one of the keywords whatever the case of the letters
    and its stripped text has more than 0 and fewer than 200 characters;
    no element is no header.  The detector is a function of the element
    alone. *)
Theorem header_detector
    (name : string) (attrs : list (string * attr_value)) (contents : list node)
    (Hname : name <> "") :
  let element := Tag name attrs contents in
  let n := String.length (get_text_strip element) in
  (is_generic_header (Some element) = true <->
     In name HEADING_TAGS
     \/ get attrs "role" = Some (AStr "heading")
     \/ ((exists kw, In kw keywords /\ contains_ignoring_case kw (class_id_text attrs))
         /\ 0 < n < 200))
  /\ is_generic_header None = false.
Proof.
  intros element n. split; [|reflexivity].
  unfold is_generic_header, element.
  apply truthy_iff in Hname. rewrite Hname. cbn [negb].
  destruct (str_in name HEADING_TAGS) eqn:Htag.
  { split; [|reflexivity]. intros _. left. apply str_in_In. exact Htag. }
  assert (Hnot : ~ In name HEADING_TAGS).
  { intros H. apply str_in_In in H. congruence. }
  destruct (py_eq_str (get attrs "role") "heading") eqn:Hrole.
  { split; [|reflexivity]. intros _. right. left. apply py_eq_str_iff. exact Hrole. }
  assert (Hnorole : get attrs "role" <> Some (AStr "heading")).
  { intros H. apply py_eq_str_iff in H. congruence. }
  fold element. fold n.
  assert (Hkw : existsb (fun kw => PyStr.contains kw (PyStr.lower (class_id_text attrs)))
                        keywords = true
                <-> exists kw, In kw keywords
                               /\ contains_ignoring_case kw (class_id_text attrs)).
  { rewrite existsb_exists. split; intros [kw [Hin H]]; exists kw; split; auto.
    - apply contains_lower_iff; [|exact H].
      exact (proj1 (List.Forall_forall _ _) keywords_lowercase kw Hin).
    - apply contains_lower_iff; [|exact H].
      exact (proj1 (List.Forall_forall _ _) keywords_lowercase kw Hin). }
  destruct (existsb _ keywords) eqn:Hex.
  - destruct (Nat.ltb_spec 0 n) as [H0|H0];
      destruct (Nat.ltb_spec n 200) as [H200|H200]; cbn [andb].
    + split; [|reflexivity]. intros _. right. right.
      split; [apply Hkw; reflexivity | lia].
    + split; [discriminate|]. intros [H|[H|[_ H]]]; [tauto | tauto | lia].
    + split; [discriminate|]. intros [H|[H|[_ H]]]; [tauto | tauto | lia].
    + split; [discriminate|]. intros [H|[H|[_ H]]]; [tauto | tauto | lia].
  - split; [discriminate|]. intros [H|[H|[H _]]]; [tauto | tauto |].
    apply Hkw in H. discriminate H.
Qed.

Lemma header_detector_witness :
  is_generic_header (Some Samples.chapter_title) = true.
Proof.
  apply (proj1 (header_detector "div" [("class", AList ["Chapter-Title"; "big"])]
                  [NavigableString " One "] ltac:(discriminate))).
  right. right. split.
  - exists "title". split; [left; reflexivity|].
    exists "Chapter-", "Title", " big ". split; reflexivity.
  - vm_compute. lia.
Defined.

(* ===================================================================== *)
(** * Properties: the wrapper descent                                     *)
(* ===================================================================== *)

Section Descent.

Lemma descend_step_Some (cur child : node) :
  descend_step cur = Some child <-> tag_children cur = [child].
Proof.
  unfold descend_step.
  destruct (tag_children cur) as [|a [|b l]].
  - cbn. split; discriminate.
  - split; congruence.
  - repeat match goal with |- context [if ?c then _ else _] => destruct c end;
      split; discriminate.
Qed.

Lemma descend_step_None (cur : node) :
  descend_step cur = None <-> length (tag_children cur) <> 1.
Proof.
  unfold descend_step.
  destruct (tag_children cur) as [|a [|b l]].
  - cbn. split; [lia | reflexivity].
  - cbn. split; [discriminate | lia].
  - repeat match goal with |- context [if ?c then _ else _] => destruct c end;
      cbn [length]; split; solve [reflexivity | lia].
Qed.

Lemma tag_children_In (n c : node) :
  In c (tag_children n) -> In c (children n) /\ is_named_tag c = true.
Proof. unfold tag_children. apply filter_In. Qed.

Lemma height_child (n c : node) : In c (children n) -> height c < height n.
Proof.
  destruct n as [s|s|name attrs contents]; simpl; try contradiction.
  intros Hin.
  assert (H : Forall (fun k => k <= list_max (map height contents))
                     (map height contents)).
  { apply list_max_le. apply Nat.le_refl. }
  apply Nat.lt_succ_r.
  exact (proj1 (List.Forall_forall _ _) H (height c)
           (in_map height contents c Hin)).
Qed.

Lemma descend_step_child (cur child : node) :
  descend_step cur = Some child ->
  In child (children cur) /\ is_named_tag child = true /\ height child < height cur.
Proof.
  intros H. apply descend_step_Some in H.
  assert (Hin : In child (tag_children cur)) by (rewrite H; left; reflexivity).
  apply tag_children_In in Hin as [Hin Htag].
  auto using height_child.
Qed.

Lemma named_tag_height (n : node) : is_named_tag n = true -> 0 < height n.
Proof. destruct n; simpl; [discriminate | discriminate | lia]. Qed.

(** Fuel above the height always reaches the [break]. *)
Lemma descend_total (fuel : nat) :
  forall n, height n < fuel ->
    exists k final,
      descend fuel n = Some (k, final)
      /\ k <= height n
      /\ (is_named_tag n = true -> S k <= height n).
Proof.
  induction fuel as [|fuel IH]; intros n Hfuel; [lia|].
  cbn [descend].
  destruct (descend_step n) as [child|] eqn:Hstep.
  - apply descend_step_child in Hstep as [_ [Htag Hlt]].
    destruct (IH child ltac:(lia)) as [k [final [-> [Hk Hk']]]].
    exists (S k), final. specialize (Hk' Htag). repeat split; lia.
  - exists 0, n. repeat split; [lia|]. apply named_tag_height.
Qed.

(** More fuel changes nothing. *)
Lemma descend_fuel (fuel : nat) :
  forall n r, descend fuel n = Some r ->
    forall fuel', fuel <= fuel' -> descend fuel' n = Some r.
Proof.
  induction fuel as [|fuel IH]; intros n r H fuel' Hle; [discriminate|].
  destruct fuel' as [|fuel']; [lia|].
  cbn [descend] in *.
  destruct (descend_step n) as [child|]; [|exact H].
  destruct (descend fuel child) as [[k final]|] eqn:Hd; [|discriminate].
  rewrite (IH child _ Hd fuel') by lia. exact H.
Qed.

Lemma descend_chain (body final : node) :
  wrapper_chain body final ->
  forall fuel, height body < fuel -> exists k, descend fuel body = Some (k, final).
Proof.
  induction 1 as [e Hlen|e only final Honly Hchain IH]; intros fuel Hfuel.
  - destruct fuel as [|fuel]; [lia|]. cbn [descend].
    apply descend_step_None in Hlen. rewrite Hlen. exists 0. reflexivity.
  - destruct fuel as [|fuel]; [lia|]. cbn [descend].
    apply descend_step_Some in Honly. rewrite Honly.
    apply descend_step_child in Honly as [_ [_ Hlt]].
    destruct (IH fuel ltac:(lia)) as [k ->]. exists (S k). reflexivity.
Qed.

Lemma content_container_chain (body final : node) :
  wrapper_chain body final -> content_container body = final.
Proof.
  intros H. unfold content_container.
  destruct (descend_chain _ _ H (S (height body)) ltac:(lia)) as [k ->].
  reflexivity.
Qed.

Lemma flat_map_singletons {A : Type} (f : A -> list A) (l : list A) :
  (forall x, In x l -> f x = [x]) -> flat_map f l = l.
Proof.
  induction l as [|a l IH]; intros H; simpl; [reflexivity|].
  rewrite (H a) by (left; reflexivity). simpl. f_equal.
  apply IH. intros x Hx. apply H. right. exact Hx.
Qed.

End Descent.

(** C1. The wrapper resolver goes one level down exactly when the current
    element has exactly one tag child and stops exactly when it has none
    or at least two; so from a body that heads a chain of single-child
    wrappers it stops at the end of the chain.  With three nested
    single-child wrappers around five sibling [p] elements the content
    elements are those five, not a wrapper. *)
Theorem wrapper_descent (body : node) :
  (forall cur child, descend_step cur = Some child <-> tag_children cur = [child])
  /\ (forall cur, descend_step cur = None <-> length (tag_children cur) <> 1)
  /\ (forall final, wrapper_chain body final -> content_container body = final)
  /\ (forall d1 d2 d3 ps,
        tag_children body = [d1] -> tag_children d1 = [d2] ->
        tag_children d2 = [d3] -> tag_children d3 = ps ->
        length ps = 5 -> (forall p, In p ps -> name_of p = "p") ->
        content_children_of (content_container body) = ps).
Proof.
  split; [exact descend_step_Some|].
  split; [exact descend_step_None|].
  split; [exact (content_container_chain body)|].
  intros d1 d2 d3 ps H1 H2 H3 Hps Hlen Hp.
  assert (Hchain : wrapper_chain body d3).
  { apply (chain_wrap body d1 d3 H1), (chain_wrap d1 d2 d3 H2),
      (chain_wrap d2 d3 d3 H3), chain_end. rewrite Hps, Hlen. discriminate. }
  rewrite (content_container_chain _ _ Hchain).
  unfold content_children_of. rewrite Hps.
  destruct (negb _); [reflexivity|].
  apply flat_map_singletons. intros p Hin. rewrite (Hp p Hin). reflexivity.
Qed.

Lemma wrapper_descent_witness :
  content_children_of (content_container Samples.wrapped_body)
  = Samples.five_paragraphs.
Proof.
  apply (proj2 (proj2 (proj2 (wrapper_descent Samples.wrapped_body)))
           (Tag "div" [("class", AList ["outer"])]
              [Tag "div" [] [Tag "div" [("id", AStr "inner")] Samples.five_paragraphs]])
           (Tag "div" [] [Tag "div" [("id", AStr "inner")] Samples.five_paragraphs])
           (Tag "div" [("id", AStr "inner")] Samples.five_paragraphs));
    try reflexivity.
  intros p Hp. cbn in Hp.
  repeat (destruct Hp as [<-|Hp]; [reflexivity|]). contradiction.
Defined.

(** C10. The wrapper-descent loop ends on every tree: a turn that does not
    stop moves to a child of the current element, which is strictly less
    high, so with any bound above the height of the body the loop stops
    after at most as many turns as the body is high. *)
Theorem descent_loop_terminates (body : node) :
  (forall cur child,
      descend_step cur = Some child ->
      In child (children cur) /\ height child < height cur)
  /\ exists k final,
       (forall fuel, height body < fuel -> descend fuel body = Some (k, final))
       /\ content_container body = final
       /\ k <= height body
       /\ (is_named_tag body = true -> k + 1 <= height body).
Proof.
  split.
  - intros cur child H. apply descend_step_child in H. tauto.
  - destruct (descend_total (S (height body)) body ltac:(lia))
      as [k [final [Hd [Hk Hk']]]].
    exists k, final. repeat split.
    + intros fuel Hfuel.
      destruct (descend_total fuel body Hfuel) as [k' [final' [Hd' _]]].
      rewrite Hd'. destruct (Nat.le_ge_cases fuel (S (height body))) as [Hle|Hle].
      * rewrite (descend_fuel _ _ _ Hd' _ Hle) in Hd. congruence.
      * rewrite (descend_fuel _ _ _ Hd _ Hle) in Hd'. congruence.
    + unfold content_container. rewrite Hd. reflexivity.
    + exact Hk.
    + intros Htag. specialize (Hk' Htag). lia.
Qed.

Lemma descent_loop_terminates_witness :
  exists k final,
    descend 10 Samples.wrapped_body = Some (k, final)
    /\ k + 1 <= height Samples.wrapped_body.
Proof.
  destruct (proj2 (descent_loop_terminates Samples.wrapped_body))
    as [k [final [Hd [_ [_ Hk]]]]].
  exists k, final. split.
  - apply Hd. vm_compute. lia.
  - apply Hk. reflexivity.
Defined.

(* ===================================================================== *)
(** * Properties: the store                                               *)
(* ===================================================================== *)

Section Store.

Lemma deref_alloc_old (h : store) (v : list string) (r : ref) :
  r < length h -> deref (h ++ [v]) r = deref h r.
Proof. intros H. unfold deref. rewrite lookup_app_l by exact H. reflexivity. Qed.

Lemma deref_alloc_new (h : store) (v : list string) :
  deref (h ++ [v]) (length h) = v.
Proof. unfold deref. rewrite list_lookup_middle by reflexivity. reflexivity. Qed.

Lemma deref_extend_same (h : store) (c : ref) (v : list string) :
  c < length h -> deref (extend h c v) c = deref h c ++ v.
Proof.
  intros H. unfold extend, deref at 1.
  rewrite list_lookup_insert_eq by exact H. reflexivity.
Qed.

Lemma deref_extend_other (h : store) (c r : ref) (v : list string) :
  r <> c -> deref (extend h c v) r = deref h r.
Proof.
  intros H. unfold extend, deref at 1.
  rewrite list_lookup_insert_ne by congruence. reflexivity.
Qed.

Lemma length_extend (h : store) (c : ref) (v : list string) :
  length (extend h c v) = length h.
Proof. unfold extend. apply length_insert. Qed.

Lemma snapshot_block_agree (h h' : store) (b : block ref) :
  deref h' (images b) = deref h (images b) ->
  snapshot_block h' b = snapshot_block h b.
Proof. unfold snapshot_block. intros ->. reflexivity. Qed.

Lemma snapshot_blocks_agree (h h' : store) (bs : list (block ref)) :
  Forall (fun b => deref h' (images b) = deref h (images b)) bs ->
  map (snapshot_block h') bs = map (snapshot_block h) bs.
Proof.
  induction 1 as [|b bs Hb _ IH]; simpl; [reflexivity|].
  rewrite IH, (snapshot_block_agree _ _ _ Hb). reflexivity.
Qed.

Lemma snapshot_section_agree (h h' : store) (s : section ref) :
  deref h' (section_images s) = deref h (section_images s) ->
  Forall (fun b => deref h' (images b) = deref h (images b)) (content s) ->
  snapshot_section h' s = snapshot_section h s.
Proof.
  unfold snapshot_section. intros -> Hb.
  rewrite (snapshot_blocks_agree _ _ _ Hb). reflexivity.
Qed.

(** Two stores that agree below [n] give the same reading of the sections
    whose references are below [n]. *)
Lemma snapshot_sections_below (h h' : store) (n : nat) (secs : list (section ref)) :
  (forall r, r < n -> deref h' r = deref h r) ->
  Forall (refs_below n) secs ->
  map (snapshot_section h') secs = map (snapshot_section h) secs.
Proof.
  intros Hag. induction 1 as [|s secs [Hs Hbs] _ IH]; simpl; [reflexivity|].
  rewrite IH. f_equal. apply snapshot_section_agree; [apply Hag, Hs|].
  eapply List.Forall_impl; [|exact Hbs]. intros b Hb. apply Hag, Hb.
Qed.

Lemma refs_below_mono (n m : nat) (s : section ref) :
  n <= m -> refs_below n s -> refs_below m s.
Proof.
  intros Hle [Hs Hbs]. split; [lia|].
  eapply List.Forall_impl; [|exact Hbs]. intros b Hb. simpl in Hb. lia.
Qed.

End Store.

(* ===================================================================== *)
(** * Properties: the segmenter computes its store-free reading           *)
(* ===================================================================== *)

Section Refinement.

Variable str_of : node -> string.

Lemma truediv_pos (a b : nat) :
  0 < b -> truediv a b = Ret (Z.of_nat a # Pos.of_nat b)%Q.
Proof.
  intros H. unfold truediv.
  destruct (Nat.eqb_spec b 0) as [->|_]; [lia | reflexivity].
Qed.

(** The division of the link-density test is never by zero. *)
Lemma link_heavy_ret (child : node) : exists b, link_heavy child = Ret b.
Proof.
  unfold link_heavy.
  destruct (Nat.ltb_spec 40 (String.length (get_text_strip child))) as [H|H].
  - rewrite truediv_pos by lia. eexists. reflexivity.
  - eexists. reflexivity.
Qed.

Lemma skipped_ret (child : node) (imgs : list string) :
  exists b, skipped child imgs = Ret b.
Proof.
  unfold skipped. destruct (negb _); [|eexists; reflexivity].
  destruct (link_heavy_ret child) as [b ->]. cbn [bind].
  destruct b; eexists; reflexivity.
Qed.

Lemma skipped_survives (child : node) :
  skipped child (extract_child_images child) = Ret (negb (survives child)).
Proof.
  unfold survives.
  destruct (skipped_ret child (extract_child_images child)) as [[|] ->];
    reflexivity.
Qed.

Lemma flush_sim (st : seg_state) (ps : pure_state) :
  sim st ps ->
  map (snapshot_section (heap st)) (flush st) = pure_flush ps.
Proof.
  intros (Hh & Hcur & Hd & Hsecs & Hcont & _ & _).
  unfold flush, pure_flush, open_section_nonempty.
  rewrite <- Hcont, length_map, <- Hh.
  destruct (_ || _); [|exact Hsecs].
  rewrite map_app, Hsecs. cbn [map]. unfold snapshot_section at 1.
  cbn [header content section_images]. rewrite Hd. reflexivity.
Qed.

Lemma flush_refs_below (st : seg_state) (ps : pure_state) :
  sim st ps -> Forall (refs_below (length (heap st))) (flush st).
Proof.
  intros (Hh & Hcur & Hd & Hsecs & Hcont & Fsecs & Fcont).
  assert (Hold : Forall (refs_below (length (heap st))) (sections st)).
  { eapply List.Forall_impl; [|exact Fsecs].
    intros s. apply refs_below_mono. lia. }
  unfold flush. destruct (open_section_nonempty st); [|exact Hold].
  apply Forall_app. split; [exact Hold|].
  constructor; [|constructor]. split; cbn [section_images content]; [exact Hcur|].
  eapply List.Forall_impl; [|exact Fcont]. intros b [Hb _]. exact Hb.
Qed.

Lemma retarget_block (h h' : store) (cur : ref) (imgs : list string) (b : block ref) :
  block_ref_ok cur h b ->
  deref h' cur = imgs ->
  (forall r, r < length h -> r <> cur -> deref h' r = deref h r) ->
  snapshot_block h' b = retarget imgs (snapshot_block h b).
Proof.
  intros (Hlen & Hhead & Hother) Hcur Hag.
  unfold retarget, snapshot_block. cbn [is_header tag text html images].
  destruct (is_header b) as [[|]|] eqn:Hb.
  - rewrite (Hhead eq_refl), Hcur. reflexivity.
  - rewrite Hag; [reflexivity | exact Hlen | apply Hother; discriminate].
  - rewrite Hag; [reflexivity | exact Hlen | apply Hother; discriminate].
Qed.

Lemma segment_step_sim (st : seg_state) (ps : pure_state) (child : node) :
  sim st ps ->
  exists st', segment_step str_of st child = Ret st'
              /\ sim st' (pure_step str_of ps child).
Proof.
  intros Hsim. pose proof (flush_sim _ _ Hsim) as Hflush.
  pose proof (flush_refs_below _ _ Hsim) as Fflush.
  destruct Hsim as (Hh & Hcur & Hd & Hsecs & Hcont & Fsecs & Fcont).
  unfold segment_step, pure_step. cbn [alloc].
  rewrite skipped_survives.
  destruct (survives child) eqn:Hsurv; cbn [bind negb].
  - destruct (is_generic_header (Some child)) eqn:Hhdr.
    + (* a header opens a new section *)
      eexists. split; [reflexivity|].
      unfold sim. cbn [current_header current_images heap sections current_content
                       p_header p_images p_sections p_content].
      rewrite length_app. cbn [length].
      repeat split.
      * lia.
      * apply deref_alloc_new.
      * rewrite <- Hflush.
        apply (snapshot_sections_below _ _ (length (heap st))); [|exact Fflush].
        intros r Hr. apply deref_alloc_old, Hr.
      * cbn [map]. unfold snapshot_block, header_block_of.
        cbn [tag text html images is_header]. rewrite deref_alloc_new. reflexivity.
      * exact Fflush.
      * constructor; [|constructor]. unfold block_ref_ok.
        cbn [images is_header]. rewrite length_app. cbn [length].
        repeat split; [lia | congruence].
    + (* another block of the open section *)
      eexists. split; [reflexivity|].
      unfold sim. cbn [current_header current_images heap sections current_content
                       p_header p_images p_sections p_content].
      assert (Hag : forall r, r < length (heap st) -> r <> current_images st ->
                deref (extend (heap st ++ [extract_child_images child])
                              (current_images st) (extract_child_images child)) r
                = deref (heap st) r).
      { intros r Hr Hne. rewrite deref_extend_other by exact Hne.
        apply deref_alloc_old, Hr. }
      assert (Hnew : deref (extend (heap st ++ [extract_child_images child])
                              (current_images st) (extract_child_images child))
                           (current_images st)
                     = p_images ps ++ extract_child_images child).
      { rewrite deref_extend_same by (rewrite length_app; lia).
        rewrite deref_alloc_old by exact Hcur. rewrite Hd. reflexivity. }
      rewrite length_extend, length_app. cbn [length].
      repeat split.
      * exact Hh.
      * lia.
      * exact Hnew.
      * rewrite <- Hsecs.
        apply (snapshot_sections_below _ _ (current_images st)); [|exact Fsecs].
        intros r Hr. apply Hag; lia.
      * rewrite !map_app. cbn [map]. f_equal.
        -- rewrite <- Hcont, map_map. apply map_ext_Forall.
           eapply List.Forall_impl; [|exact Fcont]. intros b Hb.
           apply (retarget_block _ _ _ _ _ Hb Hnew Hag).
        -- unfold snapshot_block, block_of. cbn [tag text html images is_header].
           rewrite deref_extend_other by lia.
           rewrite deref_alloc_new. reflexivity.
      * exact Fsecs.
      * apply Forall_app. split.
        -- eapply List.Forall_impl; [|exact Fcont]. intros b (Hb1 & Hb2 & Hb3).
           unfold block_ref_ok. rewrite length_extend, length_app. cbn [length].
           repeat split; [lia | exact Hb2 | exact Hb3].
        -- constructor; [|constructor]. unfold block_ref_ok.
           cbn [images is_header]. rewrite length_extend, length_app. cbn [length].
           repeat split; [lia | discriminate | lia].
  - (* the element is skipped: only its own list was made *)
    eexists. split; [reflexivity|].
    unfold sim. cbn [current_header current_images heap sections current_content
                     p_header p_images p_sections p_content].
    rewrite length_app. cbn [length].
    assert (Hag : forall r, r < length (heap st) ->
              deref (heap st ++ [extract_child_images child]) r = deref (heap st) r).
    { intros r Hr. apply deref_alloc_old, Hr. }
    repeat split.
    + exact Hh.
    + lia.
    + rewrite Hag by exact Hcur. exact Hd.
    + rewrite <- Hsecs.
      apply (snapshot_sections_below _ _ (current_images st)); [|exact Fsecs].
      intros r Hr. apply Hag. lia.
    + rewrite <- Hcont. apply snapshot_blocks_agree.
      eapply List.Forall_impl; [|exact Fcont]. intros b [Hb _]. apply Hag, Hb.
    + exact Fsecs.
    + eapply List.Forall_impl; [|exact Fcont]. intros b (Hb1 & Hb2 & Hb3).
      unfold block_ref_ok. rewrite length_app. cbn [length].
      repeat split; [lia | exact Hb2 | exact Hb3].
Qed.

Lemma segment_loop_sim (content_children : list node) :
  forall st ps, sim st ps ->
    exists st', segment_loop str_of st content_children = Ret st'
                /\ sim st' (fold_left (pure_step str_of) content_children ps).
Proof.
  induction content_children as [|child rest IH]; intros st ps Hsim.
  - exists st. split; [reflexivity | exact Hsim].
  - cbn [segment_loop fold_left].
    destruct (segment_step_sim st ps child Hsim) as [st1 [-> Hsim1]].
    cbn [bind]. apply IH, Hsim1.
Qed.

Lemma initial_sim : sim initial_state (mkPure [] None [] []).
Proof.
  unfold sim, initial_state. cbn. repeat split; try constructor.
Qed.

(** The segmenter never raises, and its sections are those of the
    store-free loop. *)
Lemma segment_store_free (content_children : list node) :
  segment str_of content_children = Ret (pure_segment str_of content_children).
Proof.
  unfold segment, pure_segment.
  destruct (segment_loop_sim content_children _ _ initial_sim) as [st [-> Hsim]].
  cbn [bind]. rewrite (flush_sim _ _ Hsim). reflexivity.
Qed.

End Refinement.

(* ===================================================================== *)
(** * Properties: filtering and grouping                                  *)
(* ===================================================================== *)

Section Grouping.

Variable str_of : node -> string.

Lemma link_heavy_true (child : node) :
  40 < String.length (get_text_strip child) ->
  (7 # 10 <
   Z.of_nat (String.length
               (PyStr.concat (map get_text_strip (find_all child "a"))))
   # Pos.of_nat (String.length (get_text_strip child)))%Q ->
  link_heavy child = Ret true.
Proof.
  intros Hlen Hratio. unfold link_heavy.
  destruct (Nat.ltb_spec 40 (String.length (get_text_strip child))); [|lia].
  rewrite truediv_pos by lia. cbn [bind]. unfold Qgt_bool.
  destruct (Qle_bool _ _) eqn:Hle; [|reflexivity].
  apply Qle_bool_iff in Hle. apply Qle_not_lt in Hle. contradiction.
Qed.

Lemma skipped_non_header (child : node) (imgs : list string) :
  is_generic_header (Some child) = false ->
  (skipped child imgs = Ret true <->
     link_heavy child = Ret true
     \/ (get_text_strip child = "" /\ imgs = [])).
Proof.
  intros Hnh. unfold skipped. rewrite Hnh. cbn [negb].
  destruct (link_heavy_ret child) as [[|] ->]; cbn [bind].
  - split; auto.
  - split.
    + intros H. right. injection H as H.
      apply andb_true_iff in H as [Ht Hi].
      apply negb_true_iff in Ht. unfold PyStr.truthy in Ht.
      apply negb_false_iff, String.eqb_eq in Ht.
      apply Nat.eqb_eq in Hi. split; [exact Ht|].
      destruct imgs; [reflexivity | discriminate].
    + intros [H|[-> ->]]; [discriminate | reflexivity].
Qed.

Lemma pure_step_skip (ps : pure_state) (child : node) :
  survives child = false -> pure_step str_of ps child = ps.
Proof. intros H. unfold pure_step. rewrite H. reflexivity. Qed.

Lemma pure_segment_skip (pre post : list node) (child : node) :
  survives child = false ->
  pure_segment str_of (pre ++ child :: post) = pure_segment str_of (pre ++ post).
Proof.
  intros H. unfold pure_segment. rewrite !fold_left_app. cbn [fold_left].
  rewrite (pure_step_skip _ _ H). reflexivity.
Qed.

Lemma skipped_not_survives (child : node) :
  skipped child (extract_child_images child) = Ret true -> survives child = false.
Proof. intros H. unfold survives. rewrite H. reflexivity. Qed.

Lemma retarget_plain (imgs : list string) (b : block (list string)) :
  is_header b = None -> retarget imgs b = b.
Proof. intros H. unfold retarget. rewrite H. reflexivity. Qed.

Lemma retarget_plain_all (imgs : list string) (bs : list (block (list string))) :
  Forall (fun b => is_header b = None) bs -> map (retarget imgs) bs = bs.
Proof.
  induction 1 as [|b bs Hb _ IH]; simpl; [reflexivity|].
  rewrite IH, (retarget_plain _ _ Hb). reflexivity.
Qed.

Lemma content_nonempty {A : Type} (l : list A) :
  l <> [] -> negb (length l =? 0) = true.
Proof. destruct l; [congruence | reflexivity]. Qed.

Lemma holds_block_step (ps : pure_state) (child : node) (b : block (list string)) :
  is_header b = None -> holds_block ps b ->
  holds_block (pure_step str_of ps child) b.
Proof.
  intros Hb H. unfold pure_step.
  destruct (negb (survives child)); [exact H|].
  destruct (is_generic_header (Some child)).
  - left. cbn [p_sections]. unfold pure_flush.
    destruct H as [[s [Hs Hin]]|Hin].
    + exists s. split; [|exact Hin].
      destruct (_ || _); [apply in_or_app; left|]; exact Hs.
    + rewrite (content_nonempty (p_content ps)), orb_true_r
        by (intros E; rewrite E in Hin; exact Hin).
      eexists. split; [apply in_or_app; right; left; reflexivity|exact Hin].
  - destruct H as [H|Hin]; [left; exact H|]. right. cbn [p_content].
    apply in_or_app. left. apply in_map_iff. exists b.
    split; [apply retarget_plain, Hb | exact Hin].
Qed.

Lemma holds_block_fold (l : list node) (b : block (list string)) :
  is_header b = None ->
  forall ps, holds_block ps b -> holds_block (fold_left (pure_step str_of) l ps) b.
Proof.
  intros Hb. induction l as [|c l IH]; intros ps H; [exact H|].
  cbn [fold_left]. apply IH, holds_block_step; assumption.
Qed.

Lemma holds_block_flush (ps : pure_state) (b : block (list string)) :
  holds_block ps b -> exists s, In s (pure_flush ps) /\ In b (content s).
Proof.
  unfold pure_flush. intros [[s [Hs Hin]]|Hin].
  - exists s. split; [|exact Hin].
    destruct (_ || _); [apply in_or_app; left|]; exact Hs.
  - rewrite (content_nonempty (p_content ps)), orb_true_r
      by (intros E; rewrite E in Hin; exact Hin).
    eexists. split; [apply in_or_app; right; left; reflexivity|exact Hin].
Qed.

Lemma fold_no_headers (l : list node) :
  (forall c, In c l -> is_generic_header (Some c) = false) ->
  forall content imgs,
    Forall (fun b => is_header b = None) content ->
    fold_left (pure_step str_of) l (mkPure [] None content imgs) =
    mkPure [] None
      (content ++ map (block_of str_of) (List.filter survives l))
      (imgs ++ List.concat (map extract_child_images (List.filter survives l))).
Proof.
  induction l as [|c l IH]; intros Hnh content imgs Hplain; cbn [fold_left].
  - cbn. rewrite !app_nil_r. reflexivity.
  - assert (Hnh' : forall c', In c' l -> is_generic_header (Some c') = false).
    { intros c' Hc'. apply Hnh. right. exact Hc'. }
    unfold pure_step at 2. cbn [List.filter].
    destruct (survives c) eqn:Hs; cbn [negb]; [|apply IH; assumption].
    rewrite (Hnh c) by (left; reflexivity).
    cbn [p_sections p_header p_content p_images].
    rewrite (retarget_plain_all _ _ Hplain).
    rewrite IH; [|exact Hnh'|].
    + cbn [map List.concat]. rewrite <- !app_assoc. reflexivity.
    + apply Forall_app. split; [exact Hplain|].
      constructor; [reflexivity | constructor].
Qed.

End Grouping.

(** C2. When no content element is header-like and at least one element
    passes the filters, segmentation gives exactly one section; its header
    is [Intro], its blocks are those of the elements that pass the filters,
    in document order, and its images are theirs. *)
Theorem no_headers_single_intro
    (str_of : node -> string) (content_children : list node)
    (Hnone : forall c, In c content_children -> is_generic_header (Some c) = false)
    (Hsome : List.filter survives content_children <> []) :
  segment str_of content_children =
  Ret [mkSection "Intro"
         (map (block_of str_of) (List.filter survives content_children))
         (List.concat (map extract_child_images
                         (List.filter survives content_children)))].
Proof.
  rewrite segment_store_free. f_equal. unfold pure_segment.
  rewrite (fold_no_headers str_of _ Hnone) by constructor.
  unfold pure_flush. cbn [p_header p_content p_sections p_images app].
  rewrite content_nonempty.
  - reflexivity.
  - intros E. apply map_eq_nil in E. contradiction.
Qed.

Lemma no_headers_single_intro_witness :
  segment Samples.no_markup [Samples.para "one"; Samples.breadcrumb; Samples.figure] =
  Ret [mkSection "Intro"
         [mkBlock "p" "one" "p" [] None;
          mkBlock "div" "" "div" ["../images/fig1.png"] None]
         ["../images/fig1.png"]].
Proof.
  etransitivity.
  - apply (no_headers_single_intro Samples.no_markup
             [Samples.para "one"; Samples.breadcrumb; Samples.figure]).
    + intros c Hc. cbn in Hc.
      repeat (destruct Hc as [<-|Hc]; [vm_compute; reflexivity|]). contradiction.
    + vm_compute. discriminate.
  - vm_compute. reflexivity.
Defined.

(** X26. The link-density filter as the code measures it.  A non-header
    element with more than 40 characters of stripped text is left out when
    the text of the anchors below it is more than 0.70 of that text: the
    sections are those of the same elements without it.  So it is for an
    element with 50 characters of text, 40 of them in anchors below it. *)
Theorem link_density_filter
    (str_of : node -> string) (pre post : list node) (child : node)
    (Hnh : is_generic_header (Some child) = false) :
  let text := String.length (get_text_strip child) in
  let links_text :=
    String.length (PyStr.concat (map get_text_strip (find_all child "a"))) in
  (40 < text -> (7 # 10 < Z.of_nat links_text # Pos.of_nat text)%Q ->
   skipped child (extract_child_images child) = Ret true
   /\ segment str_of (pre ++ child :: post) = segment str_of (pre ++ post))
  /\ (text = 50 -> links_text = 40 ->
      segment str_of (pre ++ child :: post) = segment str_of (pre ++ post)).
Proof.
  intros text links_text.
  assert (Hgen : 40 < text -> (7 # 10 < Z.of_nat links_text # Pos.of_nat text)%Q ->
            skipped child (extract_child_images child) = Ret true
            /\ segment str_of (pre ++ child :: post) = segment str_of (pre ++ post)).
  { intros Hlen Hratio.
    assert (Hskip : skipped child (extract_child_images child) = Ret true).
    { apply (skipped_non_header _ _ Hnh). left.
      apply link_heavy_true; assumption. }
    split; [exact Hskip|].
    rewrite !segment_store_free. f_equal.
    apply pure_segment_skip, skipped_not_survives, Hskip. }
  split; [exact Hgen|].
  intros H50 H40. apply Hgen; [lia|].
  rewrite H50, H40. reflexivity.
Qed.

Lemma link_density_filter_witness :
  segment Samples.no_markup [Samples.para "one"; Samples.breadcrumb; Samples.para "two"]
  = segment Samples.no_markup [Samples.para "one"; Samples.para "two"].
Proof.
  apply (proj1 (link_density_filter Samples.no_markup [Samples.para "one"]
                  [Samples.para "two"] Samples.breadcrumb ltac:(vm_compute; reflexivity))).
  - vm_compute. lia.
  - vm_compute. reflexivity.
Defined.

(** C5. Where the filter departs from the claim.  A content element that
    is itself a hyperlink, with 50 characters of text, is no header and has
    all of its text inside a hyperlink element (a ratio of 1); yet it is
    not excluded: the filter counts the text of the anchors found below an
    element, never the element itself, so the measure is 0 here and the
    block is in the section.  The same hyperlink inside a paragraph is
    excluded. *)
Theorem anchor_element_not_excluded :
  is_generic_header (Some anchor_block) = false
  /\ String.length (get_text_strip anchor_block) = 50
  /\ String.length (anchor_text anchor_block) = 50
  /\ find_all anchor_block "a" = []
  /\ skipped anchor_block (extract_child_images anchor_block) = Ret false
  /\ segment Samples.no_markup [Samples.para "one"; anchor_block] =
     Ret [mkSection "Intro"
            [mkBlock "p" "one" "p" [] None;
             mkBlock "a" "Back to the table of contents of the whole volume." "a"
                     [] None]
            []]
  /\ segment Samples.no_markup [Samples.para "one"; Tag "p" [] [anchor_block]] =
     segment Samples.no_markup [Samples.para "one"].
Proof.
  split; [reflexivity|]. split; [reflexivity|]. split; [vm_compute; reflexivity|].
  split; [reflexivity|]. split; [vm_compute; reflexivity|].
  split; vm_compute; reflexivity.
Qed.

(* ===================================================================== *)
(** * Properties: blocks that are kept, and the images of a section       *)
(* ===================================================================== *)

Section Images.

Variable str_of : node -> string.

Lemma link_heavy_short (child : node) :
  String.length (get_text_strip child) <= 40 -> link_heavy child = Ret false.
Proof.
  intros H. unfold link_heavy.
  destruct (Nat.ltb_spec 40 (String.length (get_text_strip child))); [lia|].
  reflexivity.
Qed.

Lemma image_only_survives (child : node) :
  is_generic_header (Some child) = false ->
  get_text_strip child = "" -> extract_child_images child <> [] ->
  survives child = true.
Proof.
  intros Hnh Htext Himgs. unfold survives, skipped. rewrite Hnh. cbn [negb].
  rewrite link_heavy_short by (rewrite Htext; cbn; lia). cbn [bind].
  destruct (extract_child_images child); [contradiction|].
  rewrite Htext. reflexivity.
Qed.

Lemma kept_block_in_sections (pre post : list node) (child : node) :
  is_generic_header (Some child) = false -> survives child = true ->
  exists s, In s (pure_segment str_of (pre ++ child :: post))
            /\ In (block_of str_of child) (content s).
Proof.
  intros Hnh Hs. unfold pure_segment. rewrite fold_left_app. cbn [fold_left].
  apply holds_block_flush, holds_block_fold; [reflexivity|].
  unfold pure_step at 1. rewrite Hs, Hnh. cbn [negb].
  right. cbn [p_content]. apply in_or_app. right. left. reflexivity.
Qed.

Lemma pure_flush_ok (ps : pure_state) :
  images_in_step ps ->
  Forall (fun s => section_ok (content s) (section_images s)) (pure_flush ps).
Proof.
  intros [Hopen Hdone]. unfold pure_flush.
  destruct (_ || _); [|exact Hdone].
  apply Forall_app. split; [exact Hdone|].
  constructor; [exact Hopen | constructor].
Qed.

Lemma pure_step_ok (ps : pure_state) (child : node) :
  images_in_step ps -> images_in_step (pure_step str_of ps child).
Proof.
  intros Hok. pose proof (pure_flush_ok ps Hok) as Hflush.
  destruct Hok as [Hopen Hdone]. unfold pure_step.
  destruct (negb (survives child)); [split; assumption|].
  destruct (is_generic_header (Some child)).
  - split; [|exact Hflush]. left.
    exists (header_block_of str_of child), [].
    cbn. repeat split; [intros x [] | constructor].
  - split; [|exact Hdone]. cbn [p_content p_images].
    destruct Hopen as [(hb & rest & Hc & Hhb & Himg & Hincl & Hplain)|[Hplain Himg]].
    + left. rewrite Hc. cbn [map].
      rewrite (retarget_plain_all _ _ Hplain).
      exists (retarget (p_images ps ++ extract_child_images child) hb),
             (rest ++ [block_of str_of child]).
      unfold retarget. rewrite Hhb. cbn [images is_header].
      repeat split.
      * rewrite map_app, concat_app. cbn. rewrite app_nil_r.
        intros x Hx. apply in_app_or in Hx as [Hx|Hx]; apply in_or_app;
          [left; apply Hincl, Hx | right; exact Hx].
      * apply Forall_app. split; [exact Hplain|].
        constructor; [reflexivity | constructor].
    + right. rewrite (retarget_plain_all _ _ Hplain). split.
      * apply Forall_app. split; [exact Hplain|].
        constructor; [reflexivity | constructor].
      * rewrite Himg, map_app, concat_app. cbn. rewrite app_nil_r. reflexivity.
Qed.

Lemma pure_fold_ok (l : list node) :
  forall ps, images_in_step ps -> images_in_step (fold_left (pure_step str_of) l ps).
Proof.
  induction l as [|c l IH]; intros ps H; [exact H|].
  cbn [fold_left]. apply IH, pure_step_ok, H.
Qed.

Lemma pure_segment_ok (l : list node) :
  Forall (fun s => section_ok (content s) (section_images s))
         (pure_segment str_of l).
Proof.
  unfold pure_segment. apply pure_flush_ok, pure_fold_ok.
  split; [|constructor]. right. split; [constructor | reflexivity].
Qed.

End Images.

Section Union.

Variable html_rel_dir : string.
Variable valid_images : gset string.

Lemma kept_values_blocks (bs : list (block (list string))) :
  kept_values html_rel_dir valid_images (List.concat (map images bs)) =
  List.concat (map (fun b => kept_values html_rel_dir valid_images (images b)) bs).
Proof.
  induction bs as [|b bs IH]; cbn [map List.concat]; [reflexivity|].
  rewrite kept_values_app, IH. reflexivity.
Qed.

Lemma resolved_blocks_images (bs : list (block (list string))) :
  List.concat
    (map images
       (map (fun b => mkBlock (tag b) (text b) (html b)
                        (resolve_and_validate_images (images b) html_rel_dir
                                                     valid_images)
                        (is_header b)) bs)) =
  List.concat
    (map ordered_union
       (map (fun b => kept_values html_rel_dir valid_images (images b)) bs)).
Proof.
  rewrite !map_map. f_equal. apply map_ext. intros b. cbn [images].
  apply resolve_ordered_union.
Qed.

Lemma section_ok_before (content : list (block (list string))) (imgs : list string) :
  section_ok content imgs ->
  ordered_union imgs = ordered_union (List.concat (map images content)).
Proof.
  intros [(hb & rest & -> & _ & <- & Hincl & _)|[_ ->]]; [|reflexivity].
  cbn [map List.concat]. symmetry. apply ordered_union_absorb, Hincl.
Qed.

Lemma section_ok_after (s : section (list string)) :
  section_ok (content s) (section_images s) ->
  section_images (resolve_section html_rel_dir valid_images s) =
  ordered_union
    (List.concat
       (map images (content (resolve_section html_rel_dir valid_images s)))).
Proof.
  unfold resolve_section. cbn [section_images content].
  rewrite resolved_blocks_images, resolve_ordered_union.
  intros [(hb & rest & -> & _ & <- & Hincl & _)|[_ ->]].
  - cbn [map List.concat]. rewrite ordered_union_app_l. symmetry.
    apply ordered_union_absorb. intros y Hy.
    apply in_concat in Hy as [l [Hl Hy]].
    apply in_map_iff in Hl as [kv [<- Hkv]].
    apply in_map_iff in Hkv as [b [<- Hb]].
    apply (proj1 (ordered_union_In _ _)) in Hy.
    apply (kept_values_incl html_rel_dir valid_images (images b)); [|exact Hy].
    intros x Hx. apply Hincl. apply in_concat. exists (images b).
    split; [apply in_map, Hb | exact Hx].
  - rewrite ordered_union_concat, kept_values_blocks. reflexivity.
Qed.

End Union.

(** C6. The images of a content element are taken before the filters look
    at it.  A non-header element is dropped exactly when it is link-heavy
    or has neither visible text nor an image; so an element with no visible
    text but at least one image passes, and its block, with those images,
    is in a section of the result. *)
Theorem image_only_block_kept
    (str_of : node -> string) (pre post : list node) (child : node)
    (Hnh : is_generic_header (Some child) = false) :
  (skipped child (extract_child_images child) = Ret true <->
     link_heavy child = Ret true
     \/ (get_text_strip child = "" /\ extract_child_images child = []))
  /\ (get_text_strip child = "" -> extract_child_images child <> [] ->
      skipped child (extract_child_images child) = Ret false
      /\ exists secs s,
           segment str_of (pre ++ child :: post) = Ret secs
           /\ In s secs
           /\ In (block_of str_of child) (content s)
           /\ images (block_of str_of child) = extract_child_images child).
Proof.
  split; [apply skipped_non_header, Hnh|].
  intros Htext Himgs.
  pose proof (image_only_survives child Hnh Htext Himgs) as Hs.
  split; [rewrite skipped_survives, Hs; reflexivity|].
  destruct (kept_block_in_sections str_of pre post child Hnh Hs) as [s [Hin Hb]].
  exists (pure_segment str_of (pre ++ child :: post)), s.
  split; [apply segment_store_free|]. auto.
Qed.

Lemma image_only_block_kept_witness :
  exists secs s,
    segment Samples.no_markup [Samples.para "one"; Samples.figure] = Ret secs
    /\ In s secs
    /\ In (mkBlock "div" "" "div" ["../images/fig1.png"] None) (content s).
Proof.
  destruct (proj2 (image_only_block_kept Samples.no_markup [Samples.para "one"] []
                     Samples.figure ltac:(vm_compute; reflexivity))
              ltac:(vm_compute; reflexivity) ltac:(vm_compute; discriminate))
    as [_ [secs [s [H1 [H2 [H3 _]]]]]].
  exists secs, s. repeat split; assumption.
Defined.

(** C9 as stated fails before resolution: the list of a section keeps the
    repetitions of its blocks' lists. *)
Lemma section_images_keep_repetitions :
  ~ (forall (str_of : node -> string) (l : list node)
            (secs : list (section (list string))) (s : section (list string)),
        segment str_of l = Ret secs -> In s secs ->
        section_images s = ordered_union (List.concat (map images (content s)))).
Proof.
  intros H.
  specialize (H Samples.no_markup [Samples.twice]
                [mkSection "Intro" [mkBlock "p" "" "p" ["a.png"; "a.png"] None]
                           ["a.png"; "a.png"]]
                (mkSection "Intro" [mkBlock "p" "" "p" ["a.png"; "a.png"] None]
                           ["a.png"; "a.png"])
                ltac:(vm_compute; reflexivity) ltac:(left; reflexivity)).
  vm_compute in H. discriminate H.
Qed.

(** C9, amended.  For every section of the result, the aggregated image
    list and the image lists of its blocks have the same order-preserving
    union (before resolution the aggregated list may repeat a value); after
    resolution and validation the aggregated list is the order-preserving
    union of the resolved lists of its blocks. *)
Theorem section_images_union
    (str_of : node -> string) (content_children : list node)
    (html_rel_dir : string) (valid_images : gset string)
    (secs : list (section (list string))) (s : section (list string))
    (Hrun : segment str_of content_children = Ret secs) (Hin : In s secs) :
  ordered_union (section_images s) =
  ordered_union (List.concat (map images (content s)))
  /\ section_images (resolve_section html_rel_dir valid_images s) =
     ordered_union
       (List.concat
          (map images (content (resolve_section html_rel_dir valid_images s)))).
Proof.
  rewrite segment_store_free in Hrun. injection Hrun as <-.
  pose proof (proj1 (List.Forall_forall _ _)
                (pure_segment_ok str_of content_children) s Hin) as Hok.
  split; [apply section_ok_before, Hok | apply section_ok_after, Hok].
Qed.

Lemma section_images_union_witness :
  let s := mkSection "One"
             [mkBlock "h1" "One" "h1" ["h.png"; "a.png"; "a.png"] (Some true);
              mkBlock "p" "" "p" ["a.png"; "a.png"] None]
             ["h.png"; "a.png"; "a.png"] in
  ordered_union (section_images s) =
  ordered_union (List.concat (map images (content s)))
  /\ section_images (resolve_section "Text" {[ "Text/a.png" ]} s) =
     ordered_union
       (List.concat
          (map images (content (resolve_section "Text" {[ "Text/a.png" ]} s)))).
Proof.
  intros s.
  apply (section_images_union Samples.no_markup
           [Tag "h1" [] [NavigableString "One"; Tag "img" [("src", AStr "h.png")] []];
            Samples.twice]
           "Text" {[ "Text/a.png" ]} [s] s).
  - vm_compute. reflexivity.
  - left. reflexivity.
Defined.

(** C8. Section extraction never raises: it always returns a list of
    sections, and the list is empty when the file is absent, cannot be
    opened, is rejected by both tree builders, or parses to a tree without
    a [body] element. *)
Theorem extraction_never_raises
    (str_of : node -> string) (fs : file_system) (html_file_path : string) :
  (exists secs, extract_content_sections str_of fs html_file_path = Ret secs)
  /\ (fs html_file_path = Missing ->
      extract_content_sections str_of fs html_file_path = Ret [])
  /\ (fs html_file_path = Unreadable ->
      extract_content_sections str_of fs html_file_path = Ret [])
  /\ (fs html_file_path = Readable ParseFailure ParseFailure ->
      extract_content_sections str_of fs html_file_path = Ret [])
  /\ (forall soup,
        load_soup fs html_file_path = Ret soup -> find soup "body" = None ->
        extract_content_sections str_of fs html_file_path = Ret []).
Proof.
  unfold extract_content_sections, load_soup, open_file, path_exists.
  split; [|split; [|split; [|split]]].
  - destruct (fs html_file_path) as [| |x h]; cbn; try (eexists; reflexivity).
    destruct x as [|soup]; cbn.
    + destruct h as [|soup]; cbn; [eexists; reflexivity|].
      destruct (find soup "body"); [|eexists; reflexivity].
      unfold sections_of_body. rewrite segment_store_free. eexists; reflexivity.
    + destruct (find soup "body"); [|eexists; reflexivity].
      unfold sections_of_body. rewrite segment_store_free. eexists; reflexivity.
  - intros ->. reflexivity.
  - intros ->. reflexivity.
  - intros ->. reflexivity.
  - intros soup. destruct (fs html_file_path) as [| |x h]; cbn; try discriminate.
    intros ->. intros ->. reflexivity.
Qed.

Lemma extraction_never_raises_witness :
  extract_content_sections Samples.no_markup
    (Samples.one_file (Parsed (Tag "[document]" [] [Tag "html" [] []]))) "ch1.xhtml"
  = Ret []
  /\ extract_content_sections Samples.no_markup
       (Samples.one_file ParseFailure) "ch1.xhtml" = Ret []
  /\ extract_content_sections Samples.no_markup
       (Samples.one_file ParseFailure) "ch2.xhtml" = Ret [].
Proof.
  split; [|split].
  - apply (proj2 (proj2 (proj2 (proj2
             (extraction_never_raises Samples.no_markup
                (Samples.one_file (Parsed (Tag "[document]" [] [Tag "html" [] []])))
                "ch1.xhtml"))))
             (Tag "[document]" [] [Tag "html" [] []])); reflexivity.
  - apply (proj1 (proj2 (proj2 (proj2
             (extraction_never_raises Samples.no_markup
                (Samples.one_file ParseFailure) "ch1.xhtml"))))); reflexivity.
  - apply (proj1 (proj2
             (extraction_never_raises Samples.no_markup
                (Samples.one_file ParseFailure) "ch2.xhtml"))); reflexivity.
Defined.

(* ===================================================================== *)
(** * Further properties: the path normalizer                             *)
(* ===================================================================== *)

Section Normalizer.

Lemma prefix_nil (s : string) : String.prefix "" s = true.
Proof. destruct s; reflexivity. Qed.

Lemma contains_char_cons (a c : ascii) (r : string) :
  PyStr.contains (String a "") (String c r) =
  Ascii.eqb a c || PyStr.contains (String a "") r.
Proof.
  cbn [PyStr.contains String.prefix]. f_equal.
  destruct (ascii_dec a c) as [->|Hne].
  - rewrite Ascii.eqb_refl. apply prefix_nil.
  - symmetry. apply Ascii.eqb_neq, Hne.
Qed.

Lemma contains_tail (sub : string) (c : ascii) (r : string) :
  PyStr.contains sub (String c r) = false -> PyStr.contains sub r = false.
Proof.
  cbn [PyStr.contains]. intros H. apply orb_false_iff in H. apply H.
Qed.

Lemma replace_removes (a b : ascii) (s : string) :
  a <> b -> PyStr.contains (String a "") (PyStr.replace a b s) = false.
Proof.
  intros Hab. induction s as [|c r IH]; [reflexivity|].
  cbn [PyStr.replace]. rewrite contains_char_cons, IH, orb_false_r.
  destruct (Ascii.eqb_spec c a) as [->|Hne]; apply Ascii.eqb_neq; congruence.
Qed.

Lemma replace_absent (a b : ascii) (s : string) :
  PyStr.contains (String a "") s = false -> PyStr.replace a b s = s.
Proof.
  induction s as [|c r IH]; [reflexivity|].
  rewrite contains_char_cons. intros H. apply orb_false_iff in H as [Hc Hr].
  cbn [PyStr.replace]. rewrite (IH Hr), Ascii.eqb_sym, Hc. reflexivity.
Qed.

Lemma strip_parent_refs_parent (r : string) :
  strip_parent_refs ("../" +:+ r) = strip_parent_refs r.
Proof. reflexivity. Qed.

Lemma strip_parent_refs_other (s : string) :
  PyStr.startswith "../" s = false -> strip_parent_refs s = s.
Proof.
  destruct s as [|a s]; [reflexivity|].
  destruct a as [[] [] [] [] [] [] [] []]; intros H; try reflexivity.
  destruct s as [|b s]; [reflexivity|].
  destruct b as [[] [] [] [] [] [] [] []]; try reflexivity.
  destruct s as [|c s]; [reflexivity|].
  destruct c as [[] [] [] [] [] [] [] []]; try reflexivity.
  unfold PyStr.startswith in H. cbn in H. rewrite prefix_nil in H. discriminate H.
Qed.

Lemma strip_parent_refs_stops (n : nat) :
  forall s, String.length s <= n ->
    PyStr.startswith "../" (strip_parent_refs s) = false.
Proof.
  induction n as [|n IH]; intros s Hlen.
  - destruct s; [reflexivity | cbn in Hlen; lia].
  - destruct (PyStr.startswith "../" s) eqn:Hs.
    + apply prefix_iff in Hs as [r ->]. rewrite strip_parent_refs_parent.
      apply IH. cbn in Hlen. lia.
    + rewrite (strip_parent_refs_other _ Hs). exact Hs.
Qed.

Lemma strip_parent_refs_keeps_absent (sub : string) (n : nat) :
  forall s, String.length s <= n ->
    PyStr.contains sub s = false ->
    PyStr.contains sub (strip_parent_refs s) = false.
Proof.
  induction n as [|n IH]; intros s Hlen Hsub.
  - destruct s; [exact Hsub | cbn in Hlen; lia].
  - destruct (PyStr.startswith "../" s) eqn:Hs.
    + apply prefix_iff in Hs as [r ->]. rewrite strip_parent_refs_parent.
      apply IH; [cbn in Hlen; lia|].
      do 3 apply contains_tail in Hsub. exact Hsub.
    + rewrite (strip_parent_refs_other _ Hs). exact Hsub.
Qed.

Lemma normalize_path_clean (p : string) : clean_path (_normalize_path p).
Proof.
  unfold _normalize_path. split.
  - apply (strip_parent_refs_keeps_absent _ _ _ (Nat.le_refl _)).
    apply replace_removes. discriminate.
  - apply (strip_parent_refs_stops _ _ (Nat.le_refl _)).
Qed.

Lemma normalize_path_fixed (p : string) : clean_path p -> _normalize_path p = p.
Proof.
  intros [Hb Hp]. unfold _normalize_path.
  rewrite (replace_absent _ _ _ Hb). apply strip_parent_refs_other, Hp.
Qed.

End Normalizer.

(** X1. The path normalizer always gives a path with no backslash and no
    leading [../]; the paths it leaves unchanged are exactly those, so
    normalizing twice is normalizing once. *)
Theorem normalize_path_idempotent (p : string) :
  clean_path (_normalize_path p)
  /\ (_normalize_path p = p <-> clean_path p)
  /\ _normalize_path (_normalize_path p) = _normalize_path p.
Proof.
  split; [apply normalize_path_clean|]. split.
  - split; [intros <-; apply normalize_path_clean | apply normalize_path_fixed].
  - apply normalize_path_fixed, normalize_path_clean.
Qed.

(* ===================================================================== *)
(** * Further properties: the image reference resolver                    *)
(* ===================================================================== *)

Section ResolverMore.

Lemma split_cons (c a : ascii) (r : string) :
  hd "" (PyStr.split c (String a r)) =
  if Ascii.eqb a c then "" else String a (hd "" (PyStr.split c r)).
Proof.
  cbn [PyStr.split]. destruct (Ascii.eqb a c); [reflexivity|].
  destruct (PyStr.split c r); reflexivity.
Qed.

(** What follows the first separator does not reach the first piece. *)
Lemma first_piece_app (c : ascii) (s f : string) :
  hd "" (PyStr.split c (s +:+ String c f)) = hd "" (PyStr.split c s).
Proof.
  induction s as [|a r IH].
  - cbn [String.append]. rewrite split_cons, Ascii.eqb_refl. reflexivity.
  - cbn [String.append]. rewrite !split_cons, IH. reflexivity.
Qed.

Lemma base_src_fragment (s f : string) :
  base_src_of (s +:+ String "#" f) = base_src_of s.
Proof. unfold base_src_of. rewrite first_piece_app. reflexivity. Qed.

Lemma base_src_query (s q : string) :
  base_src_of (s +:+ String "?" q) = base_src_of s.
Proof.
  unfold base_src_of. induction s as [|a r IH].
  - cbn [String.append]. rewrite split_cons. cbn [Ascii.eqb Bool.eqb].
    rewrite split_cons, Ascii.eqb_refl. reflexivity.
  - cbn [String.append]. rewrite !(split_cons "#").
    destruct (Ascii.eqb a "#"); [reflexivity|].
    rewrite !(split_cons "?"), IH. reflexivity.
Qed.

Lemma prefix_app_absent (c : ascii) (f : string) :
  forall p s, PyStr.contains (String c "") p = false ->
    String.prefix p (s +:+ String c f) = String.prefix p s.
Proof.
  induction p as [|a p IH]; intros s Hc.
  - rewrite !prefix_nil. reflexivity.
  - rewrite contains_char_cons in Hc. apply orb_false_iff in Hc as [Hac Hp].
    destruct s as [|b r]; cbn [String.append String.prefix].
    + destruct (ascii_dec a c) as [->|_]; [|reflexivity].
      rewrite Ascii.eqb_refl in Hac. discriminate Hac.
    + destruct (ascii_dec a b); [apply IH, Hp | reflexivity].
Qed.

Lemma external_suffix (c : ascii) (s f : string) :
  c = "#"%char \/ c = "?"%char ->
  _is_external_url (s +:+ String c f) = _is_external_url s.
Proof.
  intros Hc. unfold _is_external_url, EXTERNAL_PREFIXES, PyStr.startswith.
  cbn [existsb].
  rewrite !prefix_app_absent; [reflexivity| | |];
    destruct Hc as [->| ->]; reflexivity.
Qed.

Lemma in_kept_values (html_rel_dir : string) (valid_images : gset string)
    (raw_images : list string) (x : string) :
  In x (kept_values html_rel_dir valid_images raw_images) <->
  exists img_src, In img_src raw_images
                  /\ kept_value html_rel_dir valid_images img_src = Some x.
Proof.
  unfold kept_values. rewrite in_flat_map. split; intros [src [Hsrc H]]; exists src;
    (split; [exact Hsrc|]).
  - destruct (kept_value _ _ src); cbn in H; [|contradiction].
    destruct H as [->|[]]. reflexivity.
  - rewrite H. left. reflexivity.
Qed.

Lemma kept_value_validated (html_rel_dir : string) (valid_images : gset string)
    (img_src x : string) :
  kept_value html_rel_dir valid_images img_src = Some x -> validated valid_images x.
Proof.
  unfold kept_value, validated.
  destruct (resolve_image_path img_src html_rel_dir) as [r|]; [|discriminate].
  destruct (PyStr.truthy r) eqn:Ht; [|discriminate]. cbn [andb].
  destruct (_is_external_url r) eqn:He; cbn [orb].
  - intros H. injection H as Hx. subst x.
    split; [apply truthy_iff, Ht | left; exact He].
  - destruct (bool_decide (r ∈ valid_images)) eqn:Hv; [|discriminate].
    intros H. injection H as Hx. subst x. split; [apply truthy_iff, Ht|].
    right. apply bool_decide_eq_true in Hv. exact Hv.
Qed.

Lemma resolved_validated (raw_images : list string) (html_rel_dir : string)
    (valid_images : gset string) :
  Forall (validated valid_images)
         (resolve_and_validate_images raw_images html_rel_dir valid_images).
Proof.
  apply List.Forall_forall. intros x Hx.
  rewrite resolve_ordered_union in Hx.
  apply (proj1 (ordered_union_In _ _)) in Hx.
  apply in_kept_values in Hx as [src [_ Hk]].
  apply (kept_value_validated _ _ _ _ Hk).
Qed.

Lemma ordered_union_app_r (a b : list string) :
  ordered_union (a ++ ordered_union b) = ordered_union (a ++ b).
Proof.
  rewrite !ordered_union_app.
  rewrite (ordered_union_fixed (ordered_union b)) by apply ordered_union_NoDup.
  reflexivity.
Qed.

End ResolverMore.

(** X2. A fragment or a query added to a reference that does not begin
    with an external prefix does not change the path it resolves to.  (An
    external reference is kept as it is, fragment and query included.) *)
Theorem fragment_and_query_ignored
    (img_src suffix html_rel_dir : string)
    (Hinternal : _is_external_url img_src = false) :
  resolve_image_path (img_src +:+ "#" +:+ suffix) html_rel_dir =
  resolve_image_path img_src html_rel_dir
  /\ resolve_image_path (img_src +:+ "?" +:+ suffix) html_rel_dir =
     resolve_image_path img_src html_rel_dir.
Proof.
  change ("#" +:+ suffix) with (String "#" suffix).
  change ("?" +:+ suffix) with (String "?" suffix).
  unfold resolve_image_path.
  rewrite !external_suffix by auto.
  rewrite Hinternal, base_src_fragment, base_src_query. split; reflexivity.
Qed.

Lemma fragment_and_query_ignored_witness :
  resolve_image_path "../images/fig1.png#page=2" "OEBPS/Text" =
  resolve_image_path "../images/fig1.png" "OEBPS/Text"
  /\ resolve_image_path "../images/fig1.png?v=3#x" "OEBPS/Text" =
     resolve_image_path "../images/fig1.png" "OEBPS/Text".
Proof.
  split.
  - apply (proj1 (fragment_and_query_ignored "../images/fig1.png" "page=2"
                    "OEBPS/Text" eq_refl)).
  - apply (proj2 (fragment_and_query_ignored "../images/fig1.png" "v=3#x"
                    "OEBPS/Text" eq_refl)).
Defined.

(** X3. Every value the resolver gives out is validated: it is not empty,
    and it begins with an external prefix or is in the set of known
    images.  With no known images only external-looking values come out. *)
Theorem resolver_output_validated
    (raw_images : list string) (html_rel_dir : string) (valid_images : gset string) :
  Forall (validated valid_images)
         (resolve_and_validate_images raw_images html_rel_dir valid_images)
  /\ Forall (fun x => _is_external_url x = true)
            (resolve_and_validate_images raw_images html_rel_dir ∅).
Proof.
  split; [apply resolved_validated|].
  eapply List.Forall_impl; [|apply resolved_validated].
  intros x [_ [H|H]]; [exact H | set_solver].
Qed.

(** X4. Resolving two lists one after the other and merging the results
    (first occurrence kept) is resolving their concatenation; so resolving
    the empty list gives the empty list and a repeated list adds nothing. *)
Theorem resolver_concatenation
    (a b : list string) (html_rel_dir : string) (valid_images : gset string) :
  resolve_and_validate_images (a ++ b) html_rel_dir valid_images =
  ordered_union (resolve_and_validate_images a html_rel_dir valid_images
                 ++ resolve_and_validate_images b html_rel_dir valid_images)
  /\ resolve_and_validate_images (a ++ a) html_rel_dir valid_images =
     resolve_and_validate_images a html_rel_dir valid_images.
Proof.
  rewrite !resolve_ordered_union, !kept_values_app.
  rewrite ordered_union_app_l, ordered_union_app_r. split; [reflexivity|].
  apply ordered_union_absorb, incl_refl.
Qed.

(* ===================================================================== *)
(** * Further properties: the tree, stripping and the content level       *)
(* ===================================================================== *)

Section Tree.

(** Induction over a tree, with the property known of all contents. *)
Lemma node_induction (P : node -> Prop) :
  (forall s, P (NavigableString s)) ->
  (forall s, P (Comment s)) ->
  (forall name attrs contents, Forall P contents -> P (Tag name attrs contents)) ->
  forall n, P n.
Proof.
  intros Hs Hc Ht. fix IH 1. intros [s|s|name attrs contents].
  - apply Hs.
  - apply Hc.
  - apply Ht. induction contents as [|c cs IHcs]; constructor;
      [apply IH | exact IHcs].
Qed.

Lemma descendants_child (n c : node) : In c (children n) -> In c (descendants n).
Proof.
  destruct n as [s|s|name attrs contents]; cbn; try contradiction.
  intros H. apply in_flat_map. exists c. split; [exact H | left; reflexivity].
Qed.

Lemma descendants_below (n c d : node) :
  In c (children n) -> In d (descendants c) -> In d (descendants n).
Proof.
  destruct n as [s|s|name attrs contents]; cbn [children]; try contradiction.
  intros Hc Hd. cbn [descendants]. apply in_flat_map.
  exists c. split; [exact Hc | right; exact Hd].
Qed.

Lemma heading_list_app (a b : list node) :
  heading_list (a ++ b) = heading_list a ++ heading_list b.
Proof. unfold heading_list. rewrite List.filter_app, map_app. reflexivity. Qed.

Lemma heading_list_none (ds : list node) :
  (forall d, In d ds -> is_heading d = false) -> heading_list ds = [].
Proof. intros H. unfold heading_list. rewrite filter_none by exact H. reflexivity. Qed.

Lemma heading_named (n : node) : is_heading n = true -> is_named_tag n = true.
Proof.
  destruct n as [s|s|name attrs contents]; try discriminate.
  unfold is_heading. cbn. destruct name; [discriminate | reflexivity].
Qed.

Lemma heading_is_header (n : node) :
  is_heading n = true -> is_generic_header (Some n) = true.
Proof.
  intros H. pose proof (heading_named n H) as Hn.
  destruct n as [s|s|name attrs contents]; try discriminate.
  unfold is_heading in H. cbn [name_of] in H. cbn [is_named_tag] in Hn.
  unfold is_generic_header. rewrite Hn, H. reflexivity.
Qed.

(** What may be decomposed holds no heading. *)
Lemma decomposable_no_heading (c : node) :
  decomposable c = true ->
  forall d, In d (c :: descendants c) -> is_heading d = false.
Proof.
  unfold decomposable. intros H. apply andb_true_iff in H as [Hc Hd].
  apply negb_true_iff in Hc, Hd. intros d [<-|Hin].
  - destruct (is_heading c) eqn:Hh; [|reflexivity].
    rewrite (heading_is_header _ Hh) in Hc. discriminate Hc.
  - destruct (is_heading d) eqn:Hh; [|reflexivity].
    assert (Hex : existsb (fun c0 => is_generic_header (Some c0))
                    (List.filter is_named_tag (descendants c)) = true).
    { apply existsb_exists. exists d. split.
      - apply filter_In. split; [exact Hin | apply heading_named, Hh].
      - apply heading_is_header, Hh. }
    congruence.
Qed.

Lemma strip_junk_tag_name (t : string) (n : node) :
  name_of (strip_junk_tag t n) = name_of n
  /\ attrs_of (strip_junk_tag t n) = attrs_of n.
Proof. destruct n; split; reflexivity. Qed.

Lemma strip_junk_tag_headings (t : string) (n : node) :
  headings (strip_junk_tag t n) = headings n.
Proof.
  induction n as [s|s|name attrs contents IH] using node_induction;
    try reflexivity.
  unfold headings. cbn [strip_junk_tag descendants].
  induction IH as [|c cs Hc _ IHcs]; [reflexivity|].
  cbn [flat_map]. rewrite flat_map_app, !heading_list_app, IHcs. f_equal.
  destruct (is_named_tag c && String.eqb (name_of c) t && decomposable c) eqn:Hrm.
  - apply andb_true_iff in Hrm as [_ Hdec]. cbn [flat_map].
    symmetry. apply heading_list_none, decomposable_no_heading, Hdec.
  - cbn [flat_map]. rewrite app_nil_r.
    change (strip_junk_tag t c :: descendants (strip_junk_tag t c))
      with ([strip_junk_tag t c] ++ descendants (strip_junk_tag t c)).
    change (c :: descendants c) with ([c] ++ descendants c).
    rewrite !heading_list_app. fold (headings (strip_junk_tag t c)).
    fold (headings c). rewrite Hc. f_equal.
    unfold heading_list, is_heading. cbn [List.filter].
    destruct (strip_junk_tag_name t c) as [Hn Ha]. rewrite Hn.
    destruct (str_in (name_of c) HEADING_TAGS); [|reflexivity].
    cbn [map]. rewrite Hn, Ha. reflexivity.
Qed.

Lemma strip_contents_absent (t : string) (cs : list node) :
  Forall (fun c => (forall d, In d (descendants c) -> name_of d <> t) ->
                   strip_junk_tag t c = c) cs ->
  (forall c, In c cs -> forall d, In d (c :: descendants c) -> name_of d <> t) ->
  flat_map (fun c =>
              if is_named_tag c && String.eqb (name_of c) t && decomposable c
              then [] else [strip_junk_tag t c]) cs = cs.
Proof.
  induction 1 as [|c cs Hc _ IHcs]; intros Habs; [reflexivity|].
  cbn [flat_map].
  assert (Hne : String.eqb (name_of c) t = false).
  { apply String.eqb_neq. apply (Habs c); left; reflexivity. }
  rewrite Hne, andb_false_r. cbn [andb app]. f_equal.
  - apply Hc. intros d Hd. apply (Habs c); [left; reflexivity | right; exact Hd].
  - apply IHcs. intros c' Hc' d Hd. apply (Habs c'); [right; exact Hc' | exact Hd].
Qed.

Lemma strip_junk_tag_absent (t : string) (n : node) :
  (forall d, In d (descendants n) -> name_of d <> t) -> strip_junk_tag t n = n.
Proof.
  induction n as [s|s|name attrs contents IH] using node_induction;
    try reflexivity.
  intros Habs. cbn [strip_junk_tag]. f_equal.
  apply strip_contents_absent; [exact IH|].
  intros c Hc d [<-|Hd]; apply Habs.
  - apply descendants_child, Hc.
  - apply (descendants_below _ c); assumption.
Qed.

(** The container the loop stops at. *)
Lemma descend_result (fuel : nat) :
  forall n k final, descend fuel n = Some (k, final) ->
    descend_step final = None /\ (final = n \/ In final (descendants n)).
Proof.
  induction fuel as [|fuel IH]; intros n k final H; [discriminate|].
  cbn [descend] in H.
  destruct (descend_step n) as [child|] eqn:Hstep.
  - destruct (descend fuel child) as [[k' final']|] eqn:Hd; [|discriminate].
    injection H as _ <-. destruct (IH _ _ _ Hd) as [Hstop Hwhere].
    split; [exact Hstop|]. right.
    apply descend_step_child in Hstep as [Hin _].
    destruct Hwhere as [->|Hbelow].
    + apply descendants_child, Hin.
    + apply (descendants_below _ child); assumption.
  - injection H as _ <-. split; [exact Hstep | left; reflexivity].
Qed.

Lemma content_container_result (body : node) :
  descend_step (content_container body) = None
  /\ (content_container body = body \/ In (content_container body) (descendants body)).
Proof.
  unfold content_container.
  destruct (descend_total (S (height body)) body ltac:(lia)) as [k [final [Hd _]]].
  rewrite Hd. apply (descend_result _ _ _ _ Hd).
Qed.

Lemma segment_nil (str_of : node -> string) : segment str_of [] = Ret [].
Proof. reflexivity. Qed.

End Tree.

(** X5. Boilerplate stripping keeps every [h1]..[h6] element: the headings
    below the body are the same, in the same order and with the same
    attributes, after the [nav], [aside], [script], [style], [footer] and
    [header] elements without a header have been removed. *)
Theorem stripping_keeps_headings (body : node) :
  headings (strip_junk body) = headings body.
Proof.
  unfold strip_junk, JUNK_TAGS. cbn [fold_left].
  rewrite !strip_junk_tag_headings. reflexivity.
Qed.

(** X6. A body with no [nav], [aside], [script], [style], [footer] or
    [header] element below it comes out of the stripping unchanged. *)
Theorem stripping_without_junk (body : node)
    (Hnone : Forall (fun d => str_in (name_of d) JUNK_TAGS = false) (descendants body)) :
  strip_junk body = body.
Proof.
  assert (Habs : forall t, In t JUNK_TAGS ->
            forall d, In d (descendants body) -> name_of d <> t).
  { intros t Ht d Hd Heq.
    pose proof (proj1 (List.Forall_forall _ _) Hnone d Hd) as Hd'.
    cbv beta in Hd'. rewrite Heq in Hd'. apply str_in_In in Ht. congruence. }
  unfold strip_junk, JUNK_TAGS. cbn [fold_left].
  rewrite (strip_junk_tag_absent "nav" body) by (apply Habs; cbn; tauto).
  rewrite (strip_junk_tag_absent "aside" body) by (apply Habs; cbn; tauto).
  rewrite (strip_junk_tag_absent "script" body) by (apply Habs; cbn; tauto).
  rewrite (strip_junk_tag_absent "style" body) by (apply Habs; cbn; tauto).
  rewrite (strip_junk_tag_absent "footer" body) by (apply Habs; cbn; tauto).
  apply strip_junk_tag_absent, Habs. cbn. tauto.
Qed.

Lemma stripping_without_junk_witness :
  strip_junk Samples.wrapped_body = Samples.wrapped_body.
Proof.
  apply stripping_without_junk. vm_compute. repeat constructor.
Defined.

(** X7. The container the descent stops at never has exactly one tag
    child; it is the body or an element below it; and starting the descent
    again from it stays there. *)
Theorem content_container_settled (body : node) :
  length (tag_children (content_container body)) <> 1
  /\ (content_container body = body \/ In (content_container body) (descendants body))
  /\ content_container (content_container body) = content_container body.
Proof.
  destruct (content_container_result body) as [Hstop Hwhere].
  apply descend_step_None in Hstop.
  split; [exact Hstop|]. split; [exact Hwhere|].
  apply content_container_chain, chain_end, Hstop.
Qed.

(** X8. The content elements are named tags taken from at most one level
    below the children of the container: each is a tag child of the
    container, or a tag child of a [div], [section] or [article] child.
    If a child is header-like nothing is unwrapped; and a child that is no
    [div], [section] or [article] is always a content element. *)
Theorem content_level_depth (current_container : node) :
  Forall (fun c => is_named_tag c = true /\ at_content_level current_container c)
         (content_children_of current_container)
  /\ (forall h, In h (tag_children current_container) ->
                is_generic_header (Some h) = true ->
                content_children_of current_container = tag_children current_container)
  /\ (forall c, In c (tag_children current_container) ->
                str_in (name_of c) CONTAINER_TAGS = false ->
                In c (content_children_of current_container)).
Proof.
  unfold content_children_of. split; [|split].
  - apply List.Forall_forall. intros c Hc.
    destruct (negb _).
    + split; [apply (tag_children_In current_container), Hc | left; exact Hc].
    + apply in_flat_map in Hc as [p [Hp Hc]].
      destruct (str_in (name_of p) CONTAINER_TAGS) eqn:Hcont.
      * destruct (negb (length (tag_children p) =? 0)).
        -- split; [apply (tag_children_In p), Hc|].
           right. exists p. auto.
        -- destruct (PyStr.truthy _); [|contradiction].
           destruct Hc as [<-|[]].
           split; [apply (tag_children_In current_container), Hp | left; exact Hp].
      * destruct Hc as [<-|[]].
        split; [apply (tag_children_In current_container), Hp | left; exact Hp].
  - intros h Hh Hhdr.
    assert (Hin : In h (List.filter (fun child => is_generic_header (Some child))
                          (tag_children current_container))).
    { apply filter_In. auto. }
    destruct (List.filter _ (tag_children current_container)); [contradiction|].
    reflexivity.
  - intros c Hc Hcont. destruct (negb _); [exact Hc|].
    apply in_flat_map. exists c. split; [exact Hc|].
    rewrite Hcont. left. reflexivity.
Qed.

(** X9. When the stripped body heads a chain of single tag children that
    ends at an element with no tag child (the body itself, or for instance
    its only paragraph), there is no content element and no section: the
    text of such a document is not extracted. *)
Theorem single_chain_gives_nothing
    (str_of : node -> string) (body final : node)
    (Hchain : wrapper_chain (strip_junk body) final)
    (Hleaf : tag_children final = []) :
  content_children_of (content_container (strip_junk body)) = []
  /\ sections_of_body str_of body = Ret [].
Proof.
  assert (H : content_children_of (content_container (strip_junk body)) = []).
  { rewrite (content_container_chain _ _ Hchain).
    unfold content_children_of. rewrite Hleaf. reflexivity. }
  split; [exact H|].
  unfold sections_of_body. rewrite H. apply segment_nil.
Qed.

Lemma single_chain_gives_nothing_witness :
  sections_of_body Samples.no_markup
    (Tag "body" [] [Tag "p" [] [NavigableString "The only paragraph."]]) = Ret [].
Proof.
  apply (proj2 (single_chain_gives_nothing Samples.no_markup
                  (Tag "body" [] [Tag "p" [] [NavigableString "The only paragraph."]])
                  (Tag "p" [] [NavigableString "The only paragraph."])
                  ltac:(apply (chain_wrap _ (Tag "p" [] [NavigableString "The only paragraph."]));
                        [reflexivity | apply chain_end; cbn; lia])
                  eq_refl)).
Defined.

(* ===================================================================== *)
(** * Further properties: the sections of the segmenter                   *)
(* ===================================================================== *)

Section Sections.

Variable str_of : node -> string.

Lemma header_always_survives (child : node) :
  is_generic_header (Some child) = true -> survives child = true.
Proof. intros H. unfold survives, skipped. rewrite H. reflexivity. Qed.

Lemma flush_closed (ps : pure_state) :
  p_content ps = [] -> open_section_shape ps -> pure_flush ps = p_sections ps.
Proof.
  unfold open_section_shape, pure_flush. intros Hc Hshape.
  destruct (p_header ps) as [h|].
  - destruct Hshape as (hb & rest & Hhb & _). congruence.
  - rewrite Hc. reflexivity.
Qed.

Lemma flush_open (ps : pure_state) :
  p_content ps <> [] ->
  pure_flush ps = p_sections ps ++ [mkSection (header_or_intro (p_header ps))
                                             (p_content ps) (p_images ps)].
Proof.
  intros Hc. unfold pure_flush. rewrite (content_nonempty _ Hc), orb_true_r.
  reflexivity.
Qed.

Lemma pure_flush_shape (ps : pure_state) :
  sections_shape ps -> Forall well_formed_section (pure_flush ps).
Proof.
  intros [Hopen Hdone].
  destruct (p_content ps) as [|b rest] eqn:Hc.
  - rewrite (flush_closed ps Hc Hopen). exact Hdone.
  - rewrite flush_open by congruence.
    apply Forall_app. split; [exact Hdone|]. constructor; [|constructor].
    unfold well_formed_section, open_section_shape in *.
    cbn [content header section_images]. rewrite Hc.
    destruct (p_header ps) as [h|]; cbn [header_or_intro].
    + destruct Hopen as (hb & rest' & Heq & Hhb & Ht & Hi & Hrest).
      rewrite Hc in Heq. injection Heq as <- <-. rewrite Hhb, Ht. auto.
    + rewrite Hc in Hopen. inversion Hopen as [|b' rest' Hb Hrest]; subst.
      rewrite Hb. auto.
Qed.

Lemma pure_step_shape (ps : pure_state) (child : node) :
  sections_shape ps -> sections_shape (pure_step str_of ps child).
Proof.
  intros Hshape. pose proof (pure_flush_shape ps Hshape) as Hflush.
  destruct Hshape as [Hopen Hdone]. unfold pure_step.
  destruct (negb (survives child)); [split; assumption|].
  destruct (is_generic_header (Some child)).
  - split; [|exact Hflush]. unfold open_section_shape. cbn [p_header p_content p_images].
    exists (header_block_of str_of child), []. repeat split. constructor.
  - split; [|exact Hdone]. unfold open_section_shape in *.
    cbn [p_header p_content p_images].
    destruct (p_header ps) as [h|].
    + destruct Hopen as (hb & rest & -> & Hhb & Ht & Hi & Hrest).
      cbn [map]. rewrite (retarget_plain_all _ _ Hrest).
      exists (retarget (p_images ps ++ extract_child_images child) hb),
             (rest ++ [block_of str_of child]).
      unfold retarget. rewrite Hhb. cbn [is_header text images].
      repeat split; [exact Ht|].
      apply Forall_app. split; [exact Hrest | repeat constructor].
    + rewrite (retarget_plain_all _ _ Hopen).
      apply Forall_app. split; [exact Hopen | repeat constructor].
Qed.

Lemma pure_fold_shape (l : list node) :
  forall ps, sections_shape ps -> sections_shape (fold_left (pure_step str_of) l ps).
Proof.
  induction l as [|c l IH]; intros ps H; [exact H|].
  cbn [fold_left]. apply IH, pure_step_shape, H.
Qed.

Lemma initial_shape : sections_shape (mkPure [] None [] []).
Proof. split; constructor. Qed.

Lemma pure_segment_shape (l : list node) :
  Forall well_formed_section (pure_segment str_of l).
Proof. apply pure_flush_shape, pure_fold_shape, initial_shape. Qed.

(** ** Blocks *)

Lemma retarget_sig (imgs : list string) (b : block (list string)) :
  block_sig (retarget imgs b) = block_sig b.
Proof.
  unfold retarget, block_sig.
  destruct (is_header b) as [[|]|] eqn:Hb; cbn [tag text html is_header];
    rewrite ?Hb; reflexivity.
Qed.

Lemma retarget_plain_filter (imgs : list string) (bs : list (block (list string))) :
  List.filter is_plain (map (retarget imgs) bs) = List.filter is_plain bs.
Proof.
  induction bs as [|b bs IH]; [reflexivity|]. cbn [map List.filter].
  rewrite IH. unfold retarget, is_plain.
  destruct (is_header b) as [[|]|] eqn:Hb; cbn [is_header]; rewrite ?Hb; reflexivity.
Qed.

Lemma all_blocks_flush (ps : pure_state) :
  open_section_shape ps ->
  List.concat (map content (pure_flush ps)) = all_blocks ps.
Proof.
  intros Hopen. unfold all_blocks.
  destruct (p_content ps) as [|b rest] eqn:Hc.
  - rewrite (flush_closed ps Hc Hopen), app_nil_r. reflexivity.
  - rewrite flush_open by congruence.
    rewrite map_app, concat_app. cbn. rewrite app_nil_r, Hc. reflexivity.
Qed.

Lemma all_blocks_step (ps : pure_state) (child : node) :
  open_section_shape ps ->
  map block_sig (all_blocks (pure_step str_of ps child)) =
  map block_sig (all_blocks ps)
  ++ (if survives child then [element_sig str_of child] else [])
  /\ List.filter is_plain (all_blocks (pure_step str_of ps child)) =
     List.filter is_plain (all_blocks ps)
     ++ (if survives child && negb (is_generic_header (Some child))
         then [block_of str_of child] else []).
Proof.
  intros Hopen. unfold pure_step.
  destruct (survives child); cbn [negb andb]; [|rewrite !app_nil_r; auto].
  unfold element_sig.
  destruct (is_generic_header (Some child)); cbn [negb].
  - unfold all_blocks at 1 3. cbn [p_sections p_content].
    rewrite (all_blocks_flush ps Hopen), map_app, List.filter_app. split; reflexivity.
  - unfold all_blocks. cbn [p_sections p_content].
    rewrite !app_assoc, !map_app, !List.filter_app, retarget_plain_filter.
    split; [|reflexivity]. f_equal. f_equal.
    rewrite map_map. apply map_ext. intros b. apply retarget_sig.
Qed.

Lemma all_blocks_fold (l : list node) :
  forall ps, sections_shape ps ->
    map block_sig (all_blocks (fold_left (pure_step str_of) l ps)) =
    map block_sig (all_blocks ps)
    ++ map (element_sig str_of) (List.filter survives l)
    /\ List.filter is_plain (all_blocks (fold_left (pure_step str_of) l ps)) =
       List.filter is_plain (all_blocks ps)
       ++ map (block_of str_of)
            (List.filter
               (fun c => survives c && negb (is_generic_header (Some c))) l).
Proof.
  induction l as [|c l IH]; intros ps Hshape; cbn [fold_left List.filter map].
  - rewrite !app_nil_r. auto.
  - destruct (IH _ (pure_step_shape ps c Hshape)) as [-> ->].
    destruct (all_blocks_step ps c (proj1 Hshape)) as [-> ->].
    rewrite <- !app_assoc. split; f_equal.
    + destruct (survives c); reflexivity.
    + destruct (survives c && negb (is_generic_header (Some c))); reflexivity.
Qed.

(** ** Composition *)

Lemma pure_flush_prefix (done : list (section (list string))) (ps : pure_state) :
  pure_flush (with_prefix done ps) = done ++ pure_flush ps.
Proof.
  unfold pure_flush, with_prefix. cbn [p_sections p_header p_content p_images].
  destruct (_ || _); [rewrite app_assoc|]; reflexivity.
Qed.

Lemma pure_step_prefix (done : list (section (list string))) (ps : pure_state)
    (child : node) :
  pure_step str_of (with_prefix done ps) child =
  with_prefix done (pure_step str_of ps child).
Proof.
  unfold pure_step. destruct (negb (survives child)); [reflexivity|].
  destruct (is_generic_header (Some child)).
  - rewrite pure_flush_prefix. reflexivity.
  - reflexivity.
Qed.

Lemma pure_fold_prefix (l : list node) :
  forall done ps,
    fold_left (pure_step str_of) l (with_prefix done ps) =
    with_prefix done (fold_left (pure_step str_of) l ps).
Proof.
  induction l as [|c l IH]; intros done ps; [reflexivity|].
  cbn [fold_left]. rewrite pure_step_prefix. apply IH.
Qed.

Lemma pure_segment_at_header (a b : list node) (h : node) :
  is_generic_header (Some h) = true ->
  pure_segment str_of (a ++ h :: b) =
  pure_segment str_of a ++ pure_segment str_of (h :: b).
Proof.
  intros Hh. unfold pure_segment. rewrite fold_left_app. cbn [fold_left].
  set (ps := fold_left (pure_step str_of) a (mkPure [] None [] [])).
  unfold pure_step at 2 4.
  rewrite (header_always_survives h Hh), Hh. cbn [negb].
  change (pure_flush (mkPure [] None [] [])) with (@nil (section (list string))).
  rewrite <- (app_nil_r (pure_flush ps)) at 1.
  change (mkPure (pure_flush ps ++ []) (Some (PyStr.strip (get_text h)))
                 [header_block_of str_of h] (extract_child_images h))
    with (with_prefix (pure_flush ps)
            (mkPure [] (Some (PyStr.strip (get_text h)))
                    [header_block_of str_of h] (extract_child_images h))).
  rewrite pure_fold_prefix, pure_flush_prefix. reflexivity.
Qed.

Lemma pure_fold_survivors (l : list node) :
  forall ps, fold_left (pure_step str_of) (List.filter survives l) ps =
             fold_left (pure_step str_of) l ps.
Proof.
  induction l as [|c l IH]; intros ps; [reflexivity|].
  cbn [List.filter fold_left]. destruct (survives c) eqn:Hs.
  - cbn [fold_left]. apply IH.
  - rewrite (pure_step_skip str_of ps c Hs). apply IH.
Qed.

(** ** Counting *)

Lemma section_count (l : list node) :
  forall ps, sections_shape ps ->
    length (pure_flush (fold_left (pure_step str_of) l ps)) =
    length (pure_flush ps)
    + length (List.filter (fun c => is_generic_header (Some c)) l)
    + (if (length (p_content ps) =? 0) && first_survivor_plain l then 1 else 0).
Proof.
  induction l as [|c l IH]; intros ps Hshape; cbn [fold_left].
  - unfold first_survivor_plain. cbn. rewrite andb_false_r. lia.
  - rewrite (IH _ (pure_step_shape ps c Hshape)).
    unfold first_survivor_plain, pure_step. cbn [List.filter].
    destruct (is_generic_header (Some c)) eqn:Hh.
    + rewrite (header_always_survives c Hh). cbn [negb p_content length Nat.eqb andb].
      rewrite Hh. cbn [negb]. rewrite andb_false_r.
      rewrite (flush_open (mkPure _ _ _ _)) by discriminate.
      cbn [p_sections]. rewrite length_app. cbn [length]. lia.
    + destruct (survives c) eqn:Hs; cbn [negb]; [|reflexivity].
      cbn [p_content p_sections]. rewrite length_app. cbn [length].
      replace (length (map _ (p_content ps)) + 1 =? 0) with false
        by (symmetry; apply Nat.eqb_neq; lia).
      cbn [andb]. rewrite Hh. cbn [negb]. rewrite andb_true_r.
      rewrite (flush_open (mkPure _ _ _ _))
        by (cbn [p_content]; destruct (map _ (p_content ps)); discriminate).
      cbn [p_sections]. rewrite length_app. cbn [length].
      destruct (p_content ps) as [|b rest] eqn:Hc.
      * rewrite (flush_closed ps Hc (proj1 Hshape)). cbn. lia.
      * rewrite (flush_open ps) by congruence. rewrite length_app. cbn. lia.
Qed.

End Sections.

(** X10. Every section of the result has a first block, and only the first
    block of a section can be a header block.  A section that begins with
    a header block has the text of that block as its header ([Intro] if
    the text is empty), and that block carries the whole image list of the
    section; a section that does not is headed [Intro]. *)
Theorem sections_well_formed (str_of : node -> string) (content_children : list node) :
  exists secs,
    segment str_of content_children = Ret secs
    /\ Forall well_formed_section secs.
Proof.
  exists (pure_segment str_of content_children).
  split; [apply segment_store_free | apply pure_segment_shape].
Qed.

(** X11. The blocks of the result, section after section, are one block
    for each element that passes the filters, in document order, with the
    tag, the stripped text and the markup of the element and the header
    flag set exactly for the header-like elements. *)
Theorem one_block_per_survivor (str_of : node -> string) (content_children : list node) :
  exists secs,
    segment str_of content_children = Ret secs
    /\ map block_sig (List.concat (map content secs)) =
       map (element_sig str_of) (List.filter survives content_children).
Proof.
  exists (pure_segment str_of content_children).
  split; [apply segment_store_free|].
  unfold pure_segment.
  rewrite all_blocks_flush by apply (pure_fold_shape str_of), initial_shape.
  rewrite (proj1 (all_blocks_fold str_of _ _ initial_shape)). reflexivity.
Qed.

(** X12. The blocks of the result that are no header blocks are the blocks
    of the non-header elements that pass the filters, in document order,
    each with the images found in its own element. *)
Theorem plain_blocks_own_images (str_of : node -> string) (content_children : list node) :
  exists secs,
    segment str_of content_children = Ret secs
    /\ List.filter is_plain (List.concat (map content secs)) =
       map (block_of str_of)
         (List.filter (fun c => survives c && negb (is_generic_header (Some c)))
                      content_children).
Proof.
  exists (pure_segment str_of content_children).
  split; [apply segment_store_free|].
  unfold pure_segment.
  rewrite all_blocks_flush by apply (pure_fold_shape str_of), initial_shape.
  rewrite (proj2 (all_blocks_fold str_of _ _ initial_shape)). reflexivity.
Qed.

(** X13. Segmentation splits at a header: the sections of a list of
    elements with a header-like element in it are the sections of what
    comes before that element followed by the sections of the rest. *)
Theorem segment_splits_at_header
    (str_of : node -> string) (before after : list node) (h : node)
    (Hheader : is_generic_header (Some h) = true) :
  exists s1 s2,
    segment str_of before = Ret s1
    /\ segment str_of (h :: after) = Ret s2
    /\ segment str_of (before ++ h :: after) = Ret (s1 ++ s2).
Proof.
  exists (pure_segment str_of before), (pure_segment str_of (h :: after)).
  rewrite !segment_store_free, (pure_segment_at_header str_of _ _ _ Hheader).
  auto.
Qed.

Lemma segment_splits_at_header_witness :
  exists s1 s2,
    segment Samples.no_markup [Samples.para "one"] = Ret s1
    /\ segment Samples.no_markup [Samples.chapter_title; Samples.figure] = Ret s2
    /\ segment Samples.no_markup
         [Samples.para "one"; Samples.chapter_title; Samples.figure] = Ret (s1 ++ s2).
Proof.
  apply (segment_splits_at_header Samples.no_markup [Samples.para "one"]
           [Samples.figure] Samples.chapter_title).
  vm_compute. reflexivity.
Defined.

(** X14. The elements the filters skip leave no trace: the sections of a
    list of elements are the sections of the elements that pass. *)
Theorem skipped_leave_no_trace (str_of : node -> string) (content_children : list node) :
  segment str_of content_children =
  segment str_of (List.filter survives content_children).
Proof.
  rewrite !segment_store_free. unfold pure_segment.
  rewrite pure_fold_survivors. reflexivity.
Qed.

(** X15. The number of sections is the number of header-like elements,
    plus one when the first element that passes the filters is no header
    (the [Intro] section). *)
Theorem number_of_sections (str_of : node -> string) (content_children : list node) :
  exists secs,
    segment str_of content_children = Ret secs
    /\ length secs =
       length (List.filter (fun c => is_generic_header (Some c)) content_children)
       + (if first_survivor_plain content_children then 1 else 0).
Proof.
  exists (pure_segment str_of content_children).
  split; [apply segment_store_free|].
  unfold pure_segment. rewrite (section_count str_of _ _ initial_shape).
  reflexivity.
Qed.

(* ===================================================================== *)
(** * Further properties: paths made of components                        *)
(* ===================================================================== *)

Section PathFacts.

Lemma contains_char_nil (a : ascii) : PyStr.contains (String a "") "" = false.
Proof. reflexivity. Qed.

Lemma contains_char_app (a : ascii) (s t : string) :
  PyStr.contains (String a "") (s +:+ t) =
  PyStr.contains (String a "") s || PyStr.contains (String a "") t.
Proof.
  induction s as [|c r IH]; [reflexivity|].
  cbn [String.append]. rewrite !contains_char_cons, IH. apply orb_assoc.
Qed.

Lemma split_absent (c : ascii) (s : string) :
  PyStr.contains (String c "") s = false -> PyStr.split c s = [s].
Proof.
  induction s as [|a r IH]; [reflexivity|].
  rewrite contains_char_cons. intros H. apply orb_false_iff in H as [Hc Hr].
  cbn [PyStr.split]. rewrite Ascii.eqb_sym, Hc, (IH Hr). reflexivity.
Qed.

Lemma split_app_sep (c : ascii) (x y : string) :
  PyStr.contains (String c "") x = false ->
  PyStr.split c (x +:+ String c y) = x :: PyStr.split c y.
Proof.
  induction x as [|a r IH]; intros H.
  - cbn [String.append PyStr.split]. rewrite Ascii.eqb_refl. reflexivity.
  - rewrite contains_char_cons in H. apply orb_false_iff in H as [Hc Hr].
    cbn [String.append PyStr.split]. rewrite Ascii.eqb_sym, Hc, (IH Hr). reflexivity.
Qed.

Lemma path_of_cons (x y : string) (l : list string) :
  path_of (x :: y :: l) = x +:+ "/" +:+ path_of (y :: l).
Proof. reflexivity. Qed.

Lemma append_nil_r (s : string) : s +:+ "" = s.
Proof. induction s as [|a r IH]; cbn; congruence. Qed.

Lemma append_assoc (a b c : string) : (a +:+ b) +:+ c = a +:+ (b +:+ c).
Proof. induction a as [|x r IH]; cbn; congruence. Qed.

Lemma path_of_app (a b : list string) :
  a <> [] -> b <> [] -> path_of (a ++ b) = path_of a +:+ "/" +:+ path_of b.
Proof.
  intros Ha Hb. induction a as [|x a IH]; [contradiction|].
  destruct a as [|y a].
  - destruct b as [|z b]; [contradiction|]. reflexivity.
  - cbn [app]. change ((y :: a) ++ b) with (y :: (a ++ b)).
    rewrite !path_of_cons. change (y :: a ++ b) with ((y :: a) ++ b).
    rewrite IH by discriminate. rewrite !append_assoc. reflexivity.
Qed.

(** A character that is in no component and is not the separator is not
    in the path. *)
Lemma path_of_char_free (c : ascii) (l : list string) :
  c <> "/"%char ->
  forallb (fun x => negb (PyStr.contains (String c "") x)) l = true ->
  PyStr.contains (String c "") (path_of l) = false.
Proof.
  intros Hc. induction l as [|x l IH]; [reflexivity|].
  cbn [forallb]. intros H. apply andb_true_iff in H as [Hx Hl].
  apply negb_true_iff in Hx. destruct l as [|y l]; [exact Hx|].
  rewrite path_of_cons, !contains_char_app, Hx, (IH Hl), orb_false_r.
  cbn [orb]. rewrite (contains_char_cons c "/" ""), contains_char_nil, orb_false_r.
  apply Ascii.eqb_neq, Hc.
Qed.

Lemma split_path_of (l : list string) :
  l <> [] ->
  forallb (fun x => negb (PyStr.contains "/" x)) l = true ->
  PyStr.split "/" (path_of l) = l.
Proof.
  intros Hne. induction l as [|x l IH]; [contradiction|].
  cbn [forallb]. intros H. apply andb_true_iff in H as [Hx Hl].
  apply negb_true_iff in Hx. destruct l as [|y l].
  - apply split_absent, Hx.
  - rewrite path_of_cons. change ("/" +:+ path_of (y :: l)) with (String "/" (path_of (y :: l))).
    rewrite (split_app_sep _ _ _ Hx), IH by (discriminate || exact Hl). reflexivity.
Qed.

Lemma path_of_nonempty (l : list string) :
  l <> [] -> forallb PyStr.truthy l = true -> path_of l <> "".
Proof.
  destruct l as [|x l]; [contradiction|]. intros _ H.
  cbn [forallb] in H. apply andb_true_iff in H as [Hx _].
  apply truthy_iff in Hx. destruct x as [|a r]; [contradiction|].
  destruct l; discriminate.
Qed.

(** The first character of a path is that of its first component. *)
Lemma path_of_head (x : string) (l : list string) :
  x <> "" -> exists a r, x = String a r /\ exists t, path_of (x :: l) = String a t.
Proof.
  destruct x as [|a r]; [contradiction|]. intros _.
  exists a, r. split; [reflexivity|]. destruct l; eexists; reflexivity.
Qed.

Lemma startswith_slash_path (x : string) (l : list string) :
  x <> "" -> PyStr.contains "/" x = false ->
  PyStr.startswith "/" (path_of (x :: l)) = false.
Proof.
  intros Hx Hs. destruct (path_of_head x l Hx) as (a & r & -> & t & ->).
  rewrite contains_char_cons in Hs. apply orb_false_iff in Hs as [Ha _].
  unfold PyStr.startswith. cbn [String.prefix].
  destruct (ascii_dec "/" a) as [<-|_]; [discriminate Ha | reflexivity].
Qed.

Lemma endswith_char_absent (c : ascii) (s : string) :
  PyStr.contains (String c "") s = false -> PyStr.endswith (String c "") s = false.
Proof.
  induction s as [|a r IH]; [reflexivity|].
  rewrite contains_char_cons. intros H. apply orb_false_iff in H as [Hc Hr].
  cbn [PyStr.endswith String.eqb]. rewrite Hc, (IH Hr). reflexivity.
Qed.

Lemma endswith_char_app (c a : ascii) (s t : string) :
  PyStr.endswith (String c "") (s +:+ String a t) =
  PyStr.endswith (String c "") (String a t).
Proof.
  induction s as [|b r IH]; [reflexivity|].
  cbn [String.append]. cbn [PyStr.endswith] in *. rewrite IH.
  replace (String.eqb (String c "") (String b (r +:+ String a t))) with false;
    [reflexivity|].
  cbn [String.eqb]. destruct (Ascii.eqb c b); [|reflexivity].
  destruct r; reflexivity.
Qed.

Lemma endswith_slash_path (l : list string) :
  l <> [] ->
  forallb (fun x => PyStr.truthy x && negb (PyStr.contains "/" x)) l = true ->
  PyStr.endswith "/" (path_of l) = false.
Proof.
  intros Hne. induction l as [|x l IH]; [contradiction|].
  cbn [forallb]. intros H. apply andb_true_iff in H as [Hx Hl].
  apply andb_true_iff in Hx as [Hx Hs]. apply negb_true_iff in Hs.
  destruct l as [|y l]; [apply endswith_char_absent, Hs|].
  rewrite path_of_cons.
  change ("/" +:+ path_of (y :: l)) with (String "/" (path_of (y :: l))).
  rewrite endswith_char_app.
  specialize (IH ltac:(discriminate) Hl).
  cbn [forallb] in Hl. apply andb_true_iff in Hl as [Hy _].
  apply andb_true_iff in Hy as [Hy _]. apply truthy_iff in Hy.
  destruct (path_of_head y l Hy) as (a & r & _ & t & Ht).
  rewrite Ht in *. cbn [PyStr.endswith String.eqb] in *.
  rewrite IH. destruct (Ascii.eqb "/" "/"); reflexivity.
Qed.

(** ** The component loop of [normpath] *)

Lemma ordinary_tests (c : string) :
  ordinary c = true ->
  String.eqb c "" = false /\ String.eqb c "." = false /\ String.eqb c ".." = false.
Proof.
  unfold ordinary, PyStr.truthy. intros H.
  apply andb_true_iff in H as [H H2]. apply andb_true_iff in H as [H0 H1].
  apply negb_true_iff in H0, H1, H2. auto.
Qed.

Lemma normpath_comps_ordinary (i : nat) (P : list string) :
  forallb ordinary P = true ->
  forall rest acc,
    PosixPath.normpath_comps i (P ++ rest) acc =
    PosixPath.normpath_comps i rest (acc ++ P).
Proof.
  induction P as [|p P IH]; intros HP rest acc.
  - rewrite app_nil_r. reflexivity.
  - cbn [forallb] in HP. apply andb_true_iff in HP as [Hp HP].
    destruct (ordinary_tests p Hp) as (H0 & H1 & H2).
    cbn [app PosixPath.normpath_comps]. rewrite H0, H1, H2. cbn [orb negb].
    rewrite (IH HP), <- app_assoc. reflexivity.
Qed.

Lemma repeat_snoc {A : Type} (x : A) (n : nat) : repeat x n ++ [x] = repeat x (S n).
Proof. symmetry. apply (List.repeat_cons n x). Qed.

Lemma last_repeat (n : nat) : List.last (repeat ".." (S n)) "" = "..".
Proof. rewrite <- repeat_snoc. apply last_last. Qed.

Lemma normpath_comps_parents (k : nat) :
  forall u P rest,
    forallb ordinary P = true ->
    PosixPath.normpath_comps 0 (repeat ".." k ++ rest) (repeat ".." u ++ P) =
    PosixPath.normpath_comps 0 rest
      (repeat ".." (u + (k - length P)) ++ firstn (length P - k) P).
Proof.
  induction k as [|k IH]; intros u P rest HP.
  - cbn [repeat app]. rewrite !Nat.sub_0_r, Nat.add_0_r, firstn_all. reflexivity.
  - cbn [repeat app PosixPath.normpath_comps]. cbn [String.eqb Ascii.eqb Bool.eqb orb negb].
    induction P as [|p P' _] using rev_ind.
    + rewrite app_nil_r. cbn [length Nat.sub firstn].
      destruct u as [|u].
      * cbn [repeat length Nat.eqb andb orb app].
        change [".."] with (repeat ".." 1 ++ []).
        rewrite (IH 1 [] rest eq_refl). cbn [length]. rewrite !Nat.sub_0_r.
        cbn [firstn]. reflexivity.
      * rewrite last_repeat.
        replace (length (repeat ".." (S u)) =? 0) with false by reflexivity.
        cbn [andb negb orb String.eqb Ascii.eqb Bool.eqb].
        rewrite repeat_snoc.
        rewrite <- (app_nil_r (repeat ".." (S (S u)))).
        rewrite (IH (S (S u)) [] rest eq_refl). cbn [length]. rewrite !Nat.sub_0_r.
        cbn [firstn]. rewrite !app_nil_r. f_equal. f_equal. lia.
    + rewrite forallb_app in HP. apply andb_true_iff in HP as [HP' Hp].
      cbn [forallb] in Hp. rewrite andb_true_r in Hp.
      destruct (ordinary_tests p Hp) as (_ & _ & H2).
      rewrite app_assoc, last_last, H2, removelast_last.
      replace (length ((repeat ".." u ++ P') ++ [p]) =? 0) with false
        by (rewrite length_app; cbn [length]; symmetry; apply Nat.eqb_neq; lia).
      cbn [andb negb orb].
      rewrite (IH u P' rest HP'). rewrite length_app. cbn [length].
      replace (length P' + 1 - S k) with (length P' - k) by lia.
      replace (S k - (length P' + 1)) with (k - length P') by lia.
      rewrite firstn_app.
      replace (length P' - k - length P') with 0 by lia.
      cbn [firstn]. rewrite app_nil_r. reflexivity.
Qed.

End PathFacts.

Section RelativeReferences.

Lemma forallb_weaken {A : Type} (f g : A -> bool) (l : list A) :
  (forall x, f x = true -> g x = true) -> forallb f l = true -> forallb g l = true.
Proof.
  intros Hfg. induction l as [|x l IH]; [reflexivity|].
  cbn [forallb]. intros H. apply andb_true_iff in H as [Hx Hl].
  rewrite (Hfg x Hx), (IH Hl). reflexivity.
Qed.

Lemma forallb_repeat {A : Type} (f : A -> bool) (x : A) (n : nat) :
  f x = true -> forallb f (repeat x n) = true.
Proof. intros H. induction n as [|n IH]; cbn; rewrite ?H, ?IH; reflexivity. Qed.

Lemma plain_comp_parts (c : string) :
  plain_comp c = true ->
  PyStr.truthy c = true /\ ordinary c = true
  /\ PyStr.contains "/" c = false /\ PyStr.contains "\" c = false.
Proof.
  unfold plain_comp, ordinary. intros H.
  apply andb_true_iff in H as [H Hb]. apply andb_true_iff in H as [H Hs].
  apply andb_true_iff in H as [H H2]. apply andb_true_iff in H as [H0 H1].
  apply negb_true_iff in Hs, Hb. rewrite H0, H1, H2. auto.
Qed.

Lemma ref_comp_parts (c : string) :
  ref_comp c = true ->
  plain_comp c = true
  /\ PyStr.contains "#" c = false /\ PyStr.contains "?" c = false.
Proof.
  unfold ref_comp. intros H.
  apply andb_true_iff in H as [H Hq]. apply andb_true_iff in H as [H Hf].
  apply negb_true_iff in Hf, Hq. auto.
Qed.

Lemma plain_path_no_parent (q : string) (l : list string) :
  plain_comp q = true -> PyStr.startswith "../" (path_of (q :: l)) = false.
Proof.
  intros Hq. destruct (PyStr.startswith "../" (path_of (q :: l))) eqn:E; [|reflexivity].
  apply prefix_iff in E as [r Hr].
  assert (Ht : exists t, path_of (q :: l) = q +:+ t).
  { destruct l as [|y l]; [exists ""; symmetry; apply append_nil_r|].
    eexists. apply path_of_cons. }
  destruct Ht as [t Ht]. rewrite Ht in Hr.
  destruct (plain_comp_parts q Hq) as (_ & _ & Hs & _).
  destruct q as [|a [|b [|c q']]]; try discriminate Hq.
  - cbn in Hr. injection Hr as -> _. discriminate Hq.
  - cbn in Hr. injection Hr as -> -> _. discriminate Hq.
  - cbn in Hr. injection Hr as -> -> -> _.
    rewrite !contains_char_cons in Hs. discriminate Hs.
Qed.

Lemma strip_parents_of_path (m : nat) (q : string) (l : list string) :
  plain_comp q = true ->
  strip_parent_refs (path_of (repeat ".." m ++ q :: l)) = path_of (q :: l).
Proof.
  intros Hq. induction m as [|m IH].
  - apply strip_parent_refs_other, plain_path_no_parent, Hq.
  - cbn [repeat app].
    destruct (repeat ".." m ++ q :: l) as [|y rest] eqn:E.
    + destruct (repeat ".." m); discriminate E.
    + rewrite path_of_cons. exact IH.
Qed.

Lemma join_path_of (dir : list string) (x : string) (l : list string) :
  forallb plain_comp dir = true ->
  x <> "" -> PyStr.contains "/" x = false ->
  PosixPath.join (path_of dir) (path_of (x :: l)) = path_of (dir ++ x :: l).
Proof.
  intros Hdir Hx Hs. unfold PosixPath.join.
  rewrite (startswith_slash_path x l Hx Hs).
  destruct dir as [|d dir]; [reflexivity|].
  assert (Hne : path_of (d :: dir) <> "").
  { apply path_of_nonempty; [discriminate|].
    eapply forallb_weaken; [|exact Hdir]. intros c Hc. apply plain_comp_parts, Hc. }
  apply truthy_iff in Hne. rewrite Hne. cbn [negb orb].
  rewrite endswith_slash_path; [|discriminate|].
  - symmetry. apply path_of_app; discriminate.
  - eapply forallb_weaken; [|exact Hdir]. intros c Hc.
    destruct (plain_comp_parts c Hc) as (Ht & _ & Hsl & _). rewrite Ht, Hsl. reflexivity.
Qed.

Lemma normpath_path_of (x : string) (l : list string) :
  x <> "" ->
  forallb (fun c => negb (PyStr.contains "/" c)) (x :: l) = true ->
  PosixPath.normpath (path_of (x :: l)) =
  if PyStr.truthy (path_of (PosixPath.normpath_comps 0 (x :: l) []))
  then path_of (PosixPath.normpath_comps 0 (x :: l) []) else ".".
Proof.
  intros Hx Hs. unfold PosixPath.normpath.
  destruct (path_of_head x l Hx) as (a & r & Hxa & t & Ht).
  assert (Hslash : PyStr.startswith "/" (path_of (x :: l)) = false).
  { apply startswith_slash_path; [exact Hx|].
    cbn [forallb] in Hs. apply andb_true_iff in Hs as [Hs _].
    apply negb_true_iff, Hs. }
  rewrite Hslash, (split_path_of (x :: l)) by (discriminate || exact Hs).
  rewrite Ht. reflexivity.
Qed.

Lemma forallb_firstn {A : Type} (f : A -> bool) (l : list A) :
  forallb f l = true -> forall n, forallb f (firstn n l) = true.
Proof.
  induction l as [|x l IH]; intros H n; [destruct n; reflexivity|].
  cbn [forallb] in H. apply andb_true_iff in H as [Hx Hl].
  destruct n as [|n]; [reflexivity|]. cbn [firstn forallb].
  rewrite Hx, (IH Hl). reflexivity.
Qed.

End RelativeReferences.

Section RelativeResolution.

Variables (dir ref : list string) (k : nat).
Hypothesis Hdir : forallb plain_comp dir = true.
Hypothesis Href : forallb ref_comp ref = true.
Hypothesis Hne : ref <> [].

Lemma ref_comps_plain : forallb plain_comp ref = true.
Proof.
  eapply forallb_weaken; [|exact Href]. intros c Hc. apply ref_comp_parts, Hc.
Qed.

(** The reference starts with a component that is not empty and has no
    separator. *)
Lemma reference_head :
  exists x l, repeat ".." k ++ ref = x :: l /\ x <> ""
              /\ PyStr.contains "/" x = false.
Proof.
  pose proof ref_comps_plain as Hp.
  destruct k as [|k'].
  - destruct ref as [|r0 ref']; [contradiction|]. exists r0, ref'.
    cbn [forallb] in Hp.
    apply andb_true_iff in Hp as [Hr0 _].
    destruct (plain_comp_parts r0 Hr0) as (Ht & _ & Hs & _).
    apply truthy_iff in Ht. auto.
  - eexists _, _. split; [reflexivity|]. split; [discriminate | reflexivity].
Qed.

(** Neither [#] nor [?] cuts the reference, and it is not empty. *)
Lemma reference_whole :
  base_src_of (path_of (repeat ".." k ++ ref)) = path_of (repeat ".." k ++ ref)
  /\ PyStr.truthy (path_of (repeat ".." k ++ ref)) = true.
Proof.
  assert (Hfree : forall c, c <> "/"%char ->
            PyStr.contains (String c "") ".." = false ->
            (forall y, ref_comp y = true -> PyStr.contains (String c "") y = false) ->
            PyStr.contains (String c "") (path_of (repeat ".." k ++ ref)) = false).
  { intros c Hc Hdd Hy. apply path_of_char_free; [exact Hc|].
    rewrite forallb_app. apply andb_true_iff. split.
    - apply forallb_repeat. rewrite Hdd. reflexivity.
    - eapply forallb_weaken; [|exact Href]. intros y Hyr. rewrite (Hy y Hyr). reflexivity. }
  split.
  - unfold base_src_of.
    rewrite (split_absent "#") by
      (apply Hfree; [discriminate | reflexivity | intros y Hy; apply ref_comp_parts, Hy]).
    cbn [hd].
    rewrite (split_absent "?") by
      (apply Hfree; [discriminate | reflexivity | intros y Hy; apply ref_comp_parts, Hy]).
    reflexivity.
  - destruct reference_head as (x & l & -> & Hx & _).
    apply truthy_iff.
    destruct (path_of_head x l Hx) as (a & r & _ & t & ->). discriminate.
Qed.

(** The components [normpath] is left with. *)
Lemma joined_components :
  PosixPath.normpath_comps 0 (dir ++ repeat ".." k ++ ref) [] =
  repeat ".." (k - length dir) ++ firstn (length dir - k) dir ++ ref.
Proof.
  assert (Hord : forallb ordinary dir = true).
  { eapply forallb_weaken; [|exact Hdir]. intros c Hc. apply plain_comp_parts, Hc. }
  rewrite (normpath_comps_ordinary 0 dir Hord). cbn [app].
  rewrite <- (app_nil_l dir) at 1. change (@nil string) with (repeat ".." 0).
  rewrite (normpath_comps_parents k 0 dir _ Hord). cbn [Nat.add].
  rewrite <- (app_nil_r ref) at 1.
  rewrite normpath_comps_ordinary.
  - cbn [PosixPath.normpath_comps]. rewrite <- app_assoc. reflexivity.
  - eapply forallb_weaken; [|exact ref_comps_plain].
    intros c Hc. apply plain_comp_parts, Hc.
Qed.

(** The reference joined to the directory, through [normpath] and the
    path normalizer. *)
Lemma joined_and_normalized :
  _normalize_path
    (PosixPath.normpath
       (PosixPath.join (path_of dir) (path_of (repeat ".." k ++ ref)))) =
  path_of (firstn (length dir - k) dir ++ ref).
Proof.
  pose proof ref_comps_plain as Hplain.
  destruct reference_head as (x & l & Hsrc & Hx & Hxs).
  rewrite Hsrc, (join_path_of dir x l Hdir Hx Hxs), <- Hsrc.
  assert (Hall : exists y t, dir ++ repeat ".." k ++ ref = y :: t /\ y <> ""
                   /\ forallb (fun c => negb (PyStr.contains "/" c)) (y :: t) = true).
  { assert (Hs : forallb (fun c => negb (PyStr.contains "/" c))
                         (dir ++ repeat ".." k ++ ref) = true).
    { rewrite !forallb_app.
      apply andb_true_iff; split; [|apply andb_true_iff; split].
      - eapply forallb_weaken; [|exact Hdir]. intros c Hc.
        destruct (plain_comp_parts c Hc) as (_ & _ & -> & _). reflexivity.
      - apply forallb_repeat. reflexivity.
      - eapply forallb_weaken; [|exact Hplain]. intros c Hc.
        destruct (plain_comp_parts c Hc) as (_ & _ & -> & _). reflexivity. }
    destruct dir as [|d dir'].
    - exists x, l. cbn [app]. rewrite <- Hsrc. auto.
    - exists d, (dir' ++ repeat ".." k ++ ref). split; [reflexivity|].
      split; [|exact Hs].
      cbn [forallb] in Hdir. apply andb_true_iff in Hdir as [Hd _].
      apply truthy_iff, plain_comp_parts, Hd. }
  destruct Hall as (y & t & Hyt & Hy & Hys).
  rewrite Hyt, (normpath_path_of y t Hy Hys), <- Hyt, joined_components.
  set (Q := firstn (length dir - k) dir ++ ref).
  assert (HQall : forallb plain_comp Q = true).
  { unfold Q. rewrite forallb_app. apply andb_true_iff. split; [|exact Hplain].
    apply forallb_firstn, Hdir. }
  assert (HQ : exists q Q', Q = q :: Q' /\ plain_comp q = true).
  { unfold Q in *. destruct ref as [|r0 ref']; [contradiction|].
    destruct (firstn (length dir - k) dir) as [|d rest].
    - exists r0, ref'. cbn [app forallb] in HQall.
      apply andb_true_iff in HQall. split; [reflexivity | apply HQall].
    - exists d, (rest ++ r0 :: ref'). split; [reflexivity|].
      cbn [app forallb] in HQall. apply andb_true_iff in HQall. apply HQall. }
  destruct HQ as (q & Q' & HQ & Hq).
  assert (Htruthy : PyStr.truthy (path_of (repeat ".." (k - length dir) ++ Q)) = true).
  { apply truthy_iff, path_of_nonempty.
    - rewrite HQ. destruct (repeat ".." (k - length dir)); discriminate.
    - rewrite forallb_app. apply andb_true_iff. split.
      + apply forallb_repeat. reflexivity.
      + eapply forallb_weaken; [|exact HQall]. intros c Hc. apply plain_comp_parts, Hc. }
  rewrite Htruthy. unfold _normalize_path.
  rewrite replace_absent.
  - rewrite HQ. apply strip_parents_of_path, Hq.
  - apply path_of_char_free; [discriminate|].
    rewrite forallb_app. apply andb_true_iff. split.
    + apply forallb_repeat. reflexivity.
    + eapply forallb_weaken; [|exact HQall]. intros c Hc.
      destruct (plain_comp_parts c Hc) as (_ & _ & _ & ->). reflexivity.
Qed.

End RelativeResolution.

(** X16. What relative resolution computes.  For a containing directory
    written from plain components and a reference made of [k] parent steps
    followed by plain components, the resolved path is the directory
    without its last [k] components followed by the components of the
    reference; parent steps beyond the root of the package are dropped. *)
Theorem resolve_relative_reference (dir ref : list string) (k : nat)
    (Hdir : forallb plain_comp dir = true)
    (Href : forallb ref_comp ref = true)
    (Hne : ref <> [])
    (Hinternal : _is_external_url (path_of (repeat ".." k ++ ref)) = false) :
  resolve_image_path (path_of (repeat ".." k ++ ref)) (path_of dir) =
  Some (path_of (firstn (length dir - k) dir ++ ref)).
Proof.
  unfold resolve_image_path. rewrite Hinternal.
  destruct (reference_whole ref k Href Hne) as [-> ->]. cbn [negb].
  rewrite (joined_and_normalized dir ref k Hdir Href Hne). reflexivity.
Qed.

Lemma resolve_relative_reference_witness :
  resolve_image_path "../images/cover.jpg" "OEBPS/Text" = Some "OEBPS/images/cover.jpg"
  /\ resolve_image_path "../../../cover.jpg" "OEBPS/Text" = Some "cover.jpg".
Proof.
  split.
  - apply (resolve_relative_reference ["OEBPS"; "Text"] ["images"; "cover.jpg"] 1);
      [reflexivity | reflexivity | discriminate | reflexivity].
  - apply (resolve_relative_reference ["OEBPS"; "Text"] ["cover.jpg"] 3);
      [reflexivity | reflexivity | discriminate | reflexivity].
Defined.

(* ===================================================================== *)
(** * Further properties: the images and the documents of a package       *)
(* ===================================================================== *)

Section PackageFacts.

Variable cwd : string.
Variable walk : list (string * list string * list string).
Variable epub_directory_path : string.
Variable str_of : node -> string.
Variable fs : file_system.

(** A loop that may raise keeps what each of its turns keeps. *)
Lemma fold_option_invariant {A S : Type} (f : S -> A -> option S) (Inv : S -> Prop)
    (l : list A) :
  (forall s a s', In a l -> Inv s -> f s a = Some s' -> Inv s') ->
  forall s s', Inv s -> fold_option f l s = Some s' -> Inv s'.
Proof.
  induction l as [|a l IH]; intros Hstep s s' Hs Hfold; cbn [fold_option] in Hfold.
  - injection Hfold as <-. exact Hs.
  - destruct (f s a) as [s1|] eqn:Hf; [|discriminate].
    apply (IH (fun s0 a0 s0' Hin => Hstep s0 a0 s0' (or_intror Hin)) s1 s');
      [|exact Hfold].
    apply (Hstep s a s1); [left; reflexivity | exact Hs | exact Hf].
Qed.

(** A loop none of whose turns raises does not raise. *)
Lemma fold_option_total {A S : Type} (f : S -> A -> option S) (l : list A) :
  (forall s a, In a l -> exists s', f s a = Some s') ->
  forall s, exists s', fold_option f l s = Some s'.
Proof.
  induction l as [|a l IH]; intros Hstep s; cbn [fold_option].
  - eexists. reflexivity.
  - destruct (Hstep s a (or_introl eq_refl)) as [s1 ->].
    apply IH. intros s0 a0 Hin. apply Hstep. right. exact Hin.
Qed.

Lemma extract_content_sections_ret (html_file_path : string) :
  exists secs, extract_content_sections str_of fs html_file_path = Ret secs.
Proof.
  unfold extract_content_sections, load_soup, open_file, path_exists.
  destruct (fs html_file_path) as [| |x h]; cbn; try (eexists; reflexivity).
  destruct x as [|soup]; cbn.
  - destruct h as [|soup]; cbn; [eexists; reflexivity|].
    destruct (find soup "body"); [|eexists; reflexivity].
    unfold sections_of_body. rewrite segment_store_free. eexists; reflexivity.
  - destruct (find soup "body"); [|eexists; reflexivity].
    unfold sections_of_body. rewrite segment_store_free. eexists; reflexivity.
Qed.

Lemma append_nonempty_r (a b : string) : b <> "" -> a +:+ b <> "".
Proof. destruct a; [trivial | discriminate]. Qed.

Lemma join_nonempty (root file : string) :
  file <> "" -> PosixPath.join root file <> "".
Proof.
  intros Hf. unfold PosixPath.join.
  destruct (PyStr.startswith "/" file); [exact Hf|].
  destruct (_ || _); repeat apply append_nonempty_r; exact Hf.
Qed.

Lemma relpath_total (path start : string) :
  path <> "" -> exists r, PosixPath.relpath cwd path start = Some r.
Proof.
  intros Hp. apply truthy_iff in Hp. unfold PosixPath.relpath. rewrite Hp.
  cbn [negb]. destruct (_ =? 0); eexists; reflexivity.
Qed.

(** ** Discovery *)

Lemma discover_files_spec (root : string) (files : list string) :
  forall acc acc',
    fold_option (discover_file cwd epub_directory_path root) files acc = Some acc' ->
    forall p, p ∈ acc' <->
      p ∈ acc
      \/ exists file relative_path,
           In file files /\ is_image_file file = true
           /\ PosixPath.relpath cwd (PosixPath.join root file) epub_directory_path
              = Some relative_path
           /\ p = _normalize_path relative_path.
Proof.
  induction files as [|file files IH]; intros acc acc' Hfold p;
    cbn [fold_option] in Hfold.
  - injection Hfold as <-. split; [auto|]. intros [H|(f & r & [] & _)]. exact H.
  - unfold discover_file at 1 in Hfold.
    destruct (is_image_file file) eqn:Himg.
    + destruct (PosixPath.relpath cwd (PosixPath.join root file) epub_directory_path)
        as [rel|] eqn:Hrel; [|discriminate].
      rewrite (IH _ _ Hfold p), elem_of_union, elem_of_singleton. split.
      * intros [[->|H]|(f & r & Hin & Hf)]; [right|left; exact H|right].
        -- exists file, rel. split; [left; reflexivity | auto].
        -- exists f, r. split; [right; exact Hin | exact Hf].
      * intros [H|(f & r & [<-|Hin] & Hi & Hr & ->)].
        -- left. right. exact H.
        -- left. left. congruence.
        -- right. exists f, r. auto.
    + rewrite (IH _ _ Hfold p). split.
      * intros [H|(f & r & Hin & Hf)]; [left; exact H|right].
        exists f, r. split; [right; exact Hin | exact Hf].
      * intros [H|(f & r & [<-|Hin] & Hi & Hr & ->)]; [left; exact H| |].
        -- congruence.
        -- right. exists f, r. auto.
Qed.

Lemma discover_walk_spec (entries : list (string * list string * list string)) :
  forall acc acc',
    fold_option
      (fun image_paths '(root, _, files) =>
         fold_option (discover_file cwd epub_directory_path root) files image_paths)
      entries acc = Some acc' ->
    forall p, p ∈ acc' <-> p ∈ acc \/ image_of_file cwd entries epub_directory_path p.
Proof.
  induction entries as [|[[root dirs] files] entries IH]; intros acc acc' Hfold p;
    cbn [fold_option] in Hfold.
  - injection Hfold as <-. split; [auto|].
    intros [H|(r & d & f & x & rel & [] & _)]. exact H.
  - destruct (fold_option (discover_file cwd epub_directory_path root) files acc)
      as [acc1|] eqn:Hfiles; [|discriminate].
    rewrite (IH _ _ Hfold p), (discover_files_spec _ _ _ _ Hfiles p).
    unfold image_of_file. split.
    + intros [[H|(f & rel & Hin & Hf)]|(r & d & fl & f & rel & Hin & Hf)].
      * left. exact H.
      * right. exists root, dirs, files, f, rel. split; [left; reflexivity|]. auto.
      * right. exists r, d, fl, f, rel. split; [right; exact Hin | exact Hf].
    + intros [H|(r & d & fl & f & rel & [Heq|Hin] & Hf)].
      * left. left. exact H.
      * injection Heq as <- <- <-. left. right. exists f, rel. exact Hf.
      * right. exists r, d, fl, f, rel. auto.
Qed.

(** ** The documents *)

Lemma book_files_entries (valid_images : gset string) (root : string)
    (dirs files : list string)
    (Hroot : In (root, dirs, files) walk) (Hskip : skipped_root root = false)
    (files' : list string) :
  (forall f, In f files' -> In f files) ->
  forall data data',
    (forall key secs, data !! key = Some secs ->
       entry_of_file cwd walk epub_directory_path str_of fs valid_images key secs) ->
    fold_option (book_file cwd epub_directory_path str_of fs valid_images root)
                files' data = Some data' ->
    forall key secs, data' !! key = Some secs ->
      entry_of_file cwd walk epub_directory_path str_of fs valid_images key secs.
Proof.
  intros Hsub data data' Hdata Hfold.
  revert Hfold. revert Hdata. revert data'. revert data.
  induction files' as [|file files' IH]; intros data data' Hdata Hfold;
    cbn [fold_option] in Hfold.
  - injection Hfold as <-. exact Hdata.
  - destruct (book_file cwd epub_directory_path str_of fs valid_images root data file)
      as [data1|] eqn:Hfile; [|discriminate].
    apply (IH (fun f Hf => Hsub f (or_intror Hf)) data1 data'); [|exact Hfold].
    unfold book_file in Hfile.
    destruct (is_html_file file) eqn:Hhtml; [|injection Hfile as <-; exact Hdata].
    destruct (PosixPath.relpath cwd (PosixPath.join root file) epub_directory_path)
      as [rel|] eqn:Hrel; [|discriminate].
    destruct (extract_content_sections str_of fs (PosixPath.join root file))
      as [sections|e] eqn:Hsec; [|discriminate].
    destruct (negb (length sections =? 0)) eqn:Hlen;
      [|injection Hfile as <-; exact Hdata].
    injection Hfile as <-. intros key secs Hlook.
    destruct (decide (PyStr.replace "\" "/" rel = key)) as [<-|Hne].
    + rewrite lookup_insert_eq in Hlook. injection Hlook as <-.
      exists root, dirs, files, file, rel, sections.
      repeat split; try assumption; try reflexivity.
      * apply Hsub. left. reflexivity.
      * intros ->. discriminate Hlen.
    + rewrite lookup_insert_ne in Hlook by exact Hne. apply (Hdata _ _ Hlook).
Qed.

Lemma book_entries (valid_images : gset string)
    (data : gmap string (list (section (list string)))) :
  fold_option (book_root cwd epub_directory_path str_of fs valid_images) walk ∅
  = Some data ->
  forall key secs, data !! key = Some secs ->
    entry_of_file cwd walk epub_directory_path str_of fs valid_images key secs.
Proof.
  apply (fold_option_invariant
           (book_root cwd epub_directory_path str_of fs valid_images)
           (fun d => forall key secs, d !! key = Some secs ->
              entry_of_file cwd walk epub_directory_path str_of fs valid_images
                            key secs)).
  - intros d [[root dirs] files] d' Hin Hd Hstep. unfold book_root in Hstep.
    destruct (skipped_root root) eqn:Hskip; [injection Hstep as <-; exact Hd|].
    apply (book_files_entries valid_images root dirs files Hin Hskip files
             (fun f Hf => Hf) d d' Hd Hstep).
  - intros key secs H. rewrite lookup_empty in H. discriminate H.
Qed.

(** The keys of the result only grow, and every document the loop meets
    gets a key. *)
Lemma book_files_keys (valid_images : gset string) (root : string)
    (files : list string) :
  forall data data',
    fold_option (book_file cwd epub_directory_path str_of fs valid_images root)
                files data = Some data' ->
    forall key,
      (is_Some (data !! key)
       \/ exists file relative_path sections,
            In file files /\ is_html_file file = true
            /\ PosixPath.relpath cwd (PosixPath.join root file) epub_directory_path
               = Some relative_path
            /\ key = PyStr.replace "\" "/" relative_path
            /\ extract_content_sections str_of fs (PosixPath.join root file)
               = Ret sections
            /\ sections <> []) ->
      is_Some (data' !! key).
Proof.
  induction files as [|file files IH]; intros data data' Hfold key Hkey;
    cbn [fold_option] in Hfold.
  - injection Hfold as <-.
    destruct Hkey as [H|(f & r & s & [] & _)]. exact H.
  - destruct (book_file cwd epub_directory_path str_of fs valid_images root data file)
      as [data1|] eqn:Hfile; [|discriminate].
    apply (IH data1 data' Hfold key).
    assert (Hgrow : is_Some (data !! key) -> is_Some (data1 !! key)).
    { intros Hk. unfold book_file in Hfile.
      destruct (is_html_file file); [|injection Hfile as <-; exact Hk].
      destruct (PosixPath.relpath cwd (PosixPath.join root file) epub_directory_path)
        as [rel|]; [|discriminate].
      destruct (extract_content_sections str_of fs (PosixPath.join root file))
        as [sections|e]; [|discriminate].
      destruct (negb (length sections =? 0)); injection Hfile as <-; [|exact Hk].
      destruct (decide (PyStr.replace "\" "/" rel = key)) as [<-|Hne].
      - rewrite lookup_insert_eq. eexists. reflexivity.
      - rewrite lookup_insert_ne by exact Hne. exact Hk. }
    destruct Hkey as [Hk | (f & r & s & [<-|Hin] & Hhtml & Hrel & -> & Hsec & Hne)].
    + left. apply Hgrow, Hk.
    + left. unfold book_file in Hfile. rewrite Hhtml, Hrel, Hsec in Hfile.
      destruct s as [|s0 s']; [contradiction|]. cbn [length Nat.eqb negb] in Hfile.
      injection Hfile as <-. rewrite lookup_insert_eq. eexists. reflexivity.
    + right. exists f, r, s. auto 10.
Qed.

Lemma book_keys (valid_images : gset string)
    (entries : list (string * list string * list string)) :
  forall data data',
    fold_option (book_root cwd epub_directory_path str_of fs valid_images) entries data
    = Some data' ->
    forall key,
      (is_Some (data !! key)
       \/ exists secs, entry_of_file cwd entries epub_directory_path str_of fs
                         valid_images key secs) ->
      is_Some (data' !! key).
Proof.
  induction entries as [|[[root dirs] files] entries IH]; intros data data' Hfold key Hkey;
    cbn [fold_option] in Hfold.
  - injection Hfold as <-.
    destruct Hkey as [H|(secs & r & d & fl & f & rel & s & [] & _)]. exact H.
  - destruct (book_root cwd epub_directory_path str_of fs valid_images data
                (root, dirs, files)) as [data1|] eqn:Hroot; [|discriminate].
    apply (IH data1 data' Hfold key).
    unfold book_root in Hroot.
    destruct Hkey as [Hk | (secs & r & d & fl & f & rel & s & [Heq|Hin] & Hf & Hskip
                            & Hhtml & Hrel & Hkey & Hsec & Hne & Hsecs)].
    + left. destruct (skipped_root root); [injection Hroot as <-; exact Hk|].
      apply (book_files_keys valid_images root files data data1 Hroot key).
      left. exact Hk.
    + injection Heq as <- <- <-. left. rewrite Hskip in Hroot.
      apply (book_files_keys valid_images root files data data1 Hroot key).
      right. exists f, rel, s. auto 10.
    + right. exists secs, r, d, fl, f, rel, s.
      split; [exact Hin|]. auto 10.
Qed.

Lemma resolve_section_validated (html_rel_dir : string) (valid_images : gset string)
    (s : section (list string)) :
  section_validated valid_images (resolve_section html_rel_dir valid_images s).
Proof.
  unfold section_validated, resolve_section. cbn [section_images content]. split.
  - apply resolved_validated.
  - apply List.Forall_forall. intros b Hb.
    apply in_map_iff in Hb as [b0 [<- _]]. cbn [images]. apply resolved_validated.
Qed.

End PackageFacts.

(** X17. The image paths of a package.  When discovery returns, a path is
    in the set exactly when it is the normalized relative path of a file
    of the listing whose lower-cased name ends with an image extension; so
    every path of the set is free of backslashes and of a leading [../]. *)
Theorem discovered_images
    (cwd : string) (walk : list (string * list string * list string))
    (epub_directory_path : string) (valid_images : gset string)
    (Hrun : discover_epub_images cwd walk epub_directory_path = Some valid_images) :
  (forall p, p ∈ valid_images <-> image_of_file cwd walk epub_directory_path p)
  /\ (forall p, p ∈ valid_images -> clean_path p).
Proof.
  assert (H : forall p, p ∈ valid_images <->
                        image_of_file cwd walk epub_directory_path p).
  { intros p. rewrite (discover_walk_spec cwd epub_directory_path walk _ _ Hrun p).
    split; [intros [H|H]; [set_solver | exact H] | auto]. }
  split; [exact H|].
  intros p Hp. apply H in Hp as (r & d & f & x & rel & _ & _ & _ & _ & ->).
  apply normalize_path_clean.
Qed.

Lemma discovered_images_witness :
  discover_epub_images SamplePackage.cwd SamplePackage.listing SamplePackage.top
  = Some SamplePackage.images
  /\ (forall p, p ∈ SamplePackage.images <->
                image_of_file SamplePackage.cwd SamplePackage.listing
                  SamplePackage.top p)
  /\ (forall p, p ∈ SamplePackage.images -> clean_path p).
Proof.
  assert (Hrun : discover_epub_images SamplePackage.cwd SamplePackage.listing
                   SamplePackage.top = Some SamplePackage.images)
    by (vm_compute; reflexivity).
  split; [exact Hrun|].
  exact (discovered_images SamplePackage.cwd SamplePackage.listing
           SamplePackage.top SamplePackage.images Hrun).
Defined.

(** X18. Where the entries of the book content come from.  Every key of
    the result is the relative path, with forward slashes, of a file of
    the listing whose name ends with [.html], [.xhtml] or [.htm] and whose
    directory path contains none of [META-INF], [__MACOSX], [.git]; its
    value is the non-empty list of sections extracted from that file, each
    resolved against the directory of the key and the discovered images.
    Conversely every such file with a section has its key in the result. *)
Theorem book_content_entries
    (cwd : string) (walk : list (string * list string * list string))
    (epub_directory_path : string) (str_of : node -> string) (fs : file_system)
    (data : gmap string (list (section (list string))))
    (Hrun : extract_book_content cwd walk epub_directory_path str_of fs = Some data) :
  exists valid_images,
    discover_epub_images cwd walk epub_directory_path = Some valid_images
    /\ (forall key secs, data !! key = Some secs ->
          entry_of_file cwd walk epub_directory_path str_of fs valid_images key secs)
    /\ (forall key secs,
          entry_of_file cwd walk epub_directory_path str_of fs valid_images key secs ->
          is_Some (data !! key)).
Proof.
  unfold extract_book_content in Hrun.
  destruct (discover_epub_images cwd walk epub_directory_path) as [valid|];
    [|discriminate].
  exists valid. split; [reflexivity|]. split.
  - apply (book_entries cwd walk epub_directory_path str_of fs valid data Hrun).
  - intros key secs Hentry.
    apply (book_keys cwd epub_directory_path str_of fs valid walk ∅ data Hrun key).
    right. exists secs. exact Hentry.
Qed.

Lemma book_content_entries_witness :
  extract_book_content SamplePackage.cwd SamplePackage.listing SamplePackage.top
    Samples.no_markup SamplePackage.files = Some SamplePackage.book
  /\ exists valid_images,
       discover_epub_images SamplePackage.cwd SamplePackage.listing SamplePackage.top
       = Some valid_images
       /\ (forall key secs, SamplePackage.book !! key = Some secs ->
             entry_of_file SamplePackage.cwd SamplePackage.listing SamplePackage.top
               Samples.no_markup SamplePackage.files valid_images key secs)
       /\ (forall key secs,
             entry_of_file SamplePackage.cwd SamplePackage.listing SamplePackage.top
               Samples.no_markup SamplePackage.files valid_images key secs ->
             is_Some (SamplePackage.book !! key)).
Proof.
  assert (Hrun : extract_book_content SamplePackage.cwd SamplePackage.listing
                   SamplePackage.top Samples.no_markup SamplePackage.files
                 = Some SamplePackage.book)
    by (vm_compute; reflexivity).
  split; [exact Hrun|].
  exact (book_content_entries SamplePackage.cwd SamplePackage.listing
           SamplePackage.top Samples.no_markup SamplePackage.files
           SamplePackage.book Hrun).
Defined.

(** X19. In the book content no file has an empty list of sections, and
    every image path, of a section or of a block, is validated: it is not
    empty, and it is a discovered image of the package or begins with an
    external prefix. *)
Theorem book_content_validated
    (cwd : string) (walk : list (string * list string * list string))
    (epub_directory_path : string) (str_of : node -> string) (fs : file_system)
    (data : gmap string (list (section (list string))))
    (Hrun : extract_book_content cwd walk epub_directory_path str_of fs = Some data) :
  exists valid_images,
    discover_epub_images cwd walk epub_directory_path = Some valid_images
    /\ map_Forall (fun _ secs => secs <> []
                                 /\ Forall (section_validated valid_images) secs) data.
Proof.
  unfold extract_book_content in Hrun.
  destruct (discover_epub_images cwd walk epub_directory_path) as [valid|];
    [|discriminate].
  exists valid. split; [reflexivity|].
  intros key secs Hlook.
  destruct (book_entries cwd walk epub_directory_path str_of fs valid data Hrun
              key secs Hlook)
    as (root & dirs & files & file & rel & sections & _ & _ & _ & _ & _ & _ & _
        & Hne & ->).
  split.
  - destruct sections; [contradiction | discriminate].
  - apply List.Forall_forall. intros s Hs.
    apply in_map_iff in Hs as [s0 [<- _]]. apply resolve_section_validated.
Qed.

Lemma book_content_validated_witness :
  extract_book_content SamplePackage.cwd SamplePackage.listing SamplePackage.top
    Samples.no_markup SamplePackage.files = Some SamplePackage.book
  /\ exists valid_images,
       discover_epub_images SamplePackage.cwd SamplePackage.listing SamplePackage.top
       = Some valid_images
       /\ map_Forall (fun _ secs => secs <> []
                                    /\ Forall (section_validated valid_images) secs)
            SamplePackage.book.
Proof.
  assert (Hrun : extract_book_content SamplePackage.cwd SamplePackage.listing
                   SamplePackage.top Samples.no_markup SamplePackage.files
                 = Some SamplePackage.book)
    by (vm_compute; reflexivity).
  split; [exact Hrun|].
  exact (book_content_validated SamplePackage.cwd SamplePackage.listing
           SamplePackage.top Samples.no_markup SamplePackage.files
           SamplePackage.book Hrun).
Defined.

(** X20. Neither discovery nor the extraction of the book content raises
    when no file name of the listing is empty: every file that cannot be
    read or parsed gives no entry instead. *)
Theorem book_content_never_raises
    (cwd : string) (walk : list (string * list string * list string))
    (epub_directory_path : string) (str_of : node -> string) (fs : file_system)
    (Hnames : Forall (fun entry => Forall (fun file => file <> "") (snd entry)) walk) :
  exists valid_images data,
    discover_epub_images cwd walk epub_directory_path = Some valid_images
    /\ extract_book_content cwd walk epub_directory_path str_of fs = Some data.
Proof.
  assert (Hname : forall root dirs files file,
            In (root, dirs, files) walk -> In file files -> file <> "").
  { intros root dirs files file Hin Hf.
    pose proof (proj1 (List.Forall_forall _ _) Hnames _ Hin) as H. cbn in H.
    apply (proj1 (List.Forall_forall _ _) H _ Hf). }
  assert (Hdisc : exists valid, discover_epub_images cwd walk epub_directory_path
                                = Some valid).
  { unfold discover_epub_images. apply fold_option_total.
    intros acc [[root dirs] files] Hin. apply fold_option_total.
    intros acc' file Hf. unfold discover_file.
    destruct (is_image_file file); [|eexists; reflexivity].
    destruct (relpath_total cwd (PosixPath.join root file) epub_directory_path)
      as [rel ->]; [|eexists; reflexivity].
    apply join_nonempty, (Hname root dirs files file Hin Hf). }
  destruct Hdisc as [valid Hvalid]. exists valid.
  unfold extract_book_content. rewrite Hvalid.
  destruct (fold_option_total
              (book_root cwd epub_directory_path str_of fs valid) walk) with (s := (∅ : gmap string (list (section (list string)))))
    as [data Hdata].
  - intros d [[root dirs] files] Hin. unfold book_root.
    destruct (skipped_root root); [eexists; reflexivity|].
    apply fold_option_total. intros d' file Hf. unfold book_file.
    destruct (is_html_file file); [|eexists; reflexivity].
    destruct (relpath_total cwd (PosixPath.join root file) epub_directory_path)
      as [rel ->]; [apply join_nonempty, (Hname root dirs files file Hin Hf)|].
    destruct (extract_content_sections_ret str_of fs (PosixPath.join root file))
      as [secs ->].
    destruct (negb _); eexists; reflexivity.
  - exists data. auto.
Qed.

Lemma book_content_never_raises_witness :
  Forall (fun entry => Forall (fun file => file <> "") (snd entry))
    SamplePackage.listing
  /\ exists valid_images data,
       discover_epub_images SamplePackage.cwd SamplePackage.listing SamplePackage.top
       = Some valid_images
       /\ extract_book_content SamplePackage.cwd SamplePackage.listing
            SamplePackage.top Samples.no_markup SamplePackage.files = Some data.
Proof.
  assert (Hnames : Forall (fun entry => Forall (fun file => file <> "") (snd entry))
                     SamplePackage.listing)
    by (repeat constructor; discriminate).
  split; [exact Hnames|].
  exact (book_content_never_raises SamplePackage.cwd SamplePackage.listing
           SamplePackage.top Samples.no_markup SamplePackage.files Hnames).
Defined.

(* ===================================================================== *)
(** * Further properties: the paths of a package                          *)
(* ===================================================================== *)

Section PackagePaths.

Lemma plain_all_truthy (l : list string) :
  forallb plain_comp l = true -> forallb PyStr.truthy l = true.
Proof. apply forallb_weaken. intros c Hc. apply plain_comp_parts, Hc. Qed.

Lemma plain_all_ordinary (l : list string) :
  forallb plain_comp l = true -> forallb ordinary l = true.
Proof. apply forallb_weaken. intros c Hc. apply plain_comp_parts, Hc. Qed.

Lemma plain_all_slash_free (l : list string) :
  forallb plain_comp l = true ->
  forallb (fun c => negb (PyStr.contains "/" c)) l = true.
Proof.
  apply forallb_weaken. intros c Hc.
  destruct (plain_comp_parts c Hc) as (_ & _ & -> & _). reflexivity.
Qed.

Lemma plain_all_app (a b : list string) :
  forallb plain_comp a = true -> forallb plain_comp b = true ->
  forallb plain_comp (a ++ b) = true.
Proof. intros Ha Hb. rewrite forallb_app, Ha, Hb. reflexivity. Qed.

Lemma plain_head (x : string) :
  plain_comp x = true ->
  x <> "" /\ PyStr.contains "/" x = false.
Proof.
  intros Hx. destruct (plain_comp_parts x Hx) as (Ht & _ & Hs & _).
  apply truthy_iff in Ht. auto.
Qed.

(** A path of plain components begins with a character that is no
    separator. *)
Lemma plain_path_first (x : string) (l : list string) :
  plain_comp x = true ->
  exists a t, path_of (x :: l) = String a t /\ Ascii.eqb a "/" = false.
Proof.
  intros Hx. destruct (plain_head x Hx) as [Hne Hs].
  destruct (path_of_head x l Hne) as (a & r & -> & t & ->).
  exists a, t. split; [reflexivity|].
  rewrite contains_char_cons in Hs. apply orb_false_iff in Hs as [Ha _].
  rewrite Ascii.eqb_sym. exact Ha.
Qed.

Lemma filter_truthy_plain (l : list string) :
  forallb plain_comp l = true -> List.filter PyStr.truthy l = l.
Proof.
  induction l as [|x l IH]; [reflexivity|].
  cbn [forallb]. intros H. apply andb_true_iff in H as [Hx Hl].
  destruct (plain_comp_parts x Hx) as (Ht & _).
  cbn [List.filter]. rewrite Ht, (IH Hl). reflexivity.
Qed.

(** A relative path of plain components, joined to a working directory
    that is an absolute path of plain components. *)
Lemma join_working_directory (W L : list string) :
  forallb plain_comp W = true -> forallb plain_comp L = true -> L <> [] ->
  PosixPath.join ("/" +:+ path_of W) (path_of L) = "/" +:+ path_of (W ++ L).
Proof.
  intros HW HL Hne. destruct L as [|x l]; [contradiction|].
  cbn [forallb] in HL. apply andb_true_iff in HL as [Hx Hl].
  destruct (plain_head x Hx) as [Hx0 Hxs].
  unfold PosixPath.join. rewrite (startswith_slash_path x l Hx0 Hxs).
  destruct W as [|w W'].
  - reflexivity.
  - replace (PyStr.endswith "/" ("/" +:+ path_of (w :: W'))) with false.
    + cbn [PyStr.truthy String.append String.eqb negb orb].
      rewrite (path_of_app (w :: W') (x :: l)) by discriminate.
      reflexivity.
    + symmetry.
      assert (He : PyStr.endswith "/" (path_of (w :: W')) = false).
      { apply endswith_slash_path; [discriminate|].
        eapply forallb_weaken; [|exact HW]. intros c Hc.
        destruct (plain_comp_parts c Hc) as (Ht & _ & Hsl & _).
        rewrite Ht, Hsl. reflexivity. }
      cbn [forallb] in HW. apply andb_true_iff in HW as [Hw _].
      destruct (plain_path_first w W' Hw) as (a & t & Hp & Ha).
      rewrite Hp in *. cbn [String.append PyStr.endswith String.eqb] in *.
      rewrite He. destruct (Ascii.eqb "/" a); reflexivity.
Qed.

(** An absolute path of plain components is a fixed point of [normpath]. *)
Lemma normpath_absolute (M : list string) :
  forallb plain_comp M = true -> M <> [] ->
  PosixPath.normpath ("/" +:+ path_of M) = "/" +:+ path_of M.
Proof.
  intros HM Hne. destruct M as [|x l]; [contradiction|].
  pose proof HM as HM'.
  cbn [forallb] in HM'. apply andb_true_iff in HM' as [Hx _].
  destruct (plain_path_first x l Hx) as (a & t & Hp & Ha).
  unfold PosixPath.normpath.
  assert (Hsplit : PyStr.split "/" ("/" +:+ path_of (x :: l)) = "" :: x :: l).
  { change ("/" +:+ path_of (x :: l)) with ("" +:+ String "/" (path_of (x :: l))).
    rewrite split_app_sep by reflexivity.
    rewrite split_path_of by (discriminate || apply plain_all_slash_free, HM).
    reflexivity. }
  rewrite Hsplit.
  assert (Hslashes : (if PyStr.startswith "/" ("/" +:+ path_of (x :: l))
                      then if PyStr.startswith "//" ("/" +:+ path_of (x :: l))
                              && negb (PyStr.startswith "///" ("/" +:+ path_of (x :: l)))
                           then 2 else 1
                      else 0) = 1).
  { rewrite Hp. unfold PyStr.startswith. cbn [String.append String.prefix].
    destruct (ascii_dec "/" "/") as [_|Hc]; [|contradiction].
    destruct (ascii_dec "/" a) as [<-|_]; [discriminate Ha|].
    destruct t; reflexivity. }
  assert (Hcomps : PosixPath.normpath_comps 1 ("" :: x :: l) [] = x :: l).
  { change (PosixPath.normpath_comps 1 ("" :: x :: l) [])
      with (PosixPath.normpath_comps 1 (x :: l) []).
    rewrite <- (app_nil_r (x :: l)) at 1.
    rewrite (normpath_comps_ordinary 1 (x :: l) (plain_all_ordinary _ HM)).
    reflexivity. }
  rewrite Hslashes, Hcomps. fold (path_of (x :: l)).
  rewrite Hp. reflexivity.
Qed.

Lemma path_list_absolute (M : list string) :
  forallb plain_comp M = true -> M <> [] ->
  PosixPath.path_list ("/" +:+ path_of M) = M.
Proof.
  intros HM Hne. unfold PosixPath.path_list.
  change ("/" +:+ path_of M) with ("" +:+ String "/" (path_of M)).
  rewrite split_app_sep by reflexivity.
  rewrite split_path_of by (exact Hne || apply plain_all_slash_free, HM).
  cbn [List.filter PyStr.truthy String.eqb negb]. apply filter_truthy_plain, HM.
Qed.

Lemma common_prefix_len_app (a b : list string) :
  PosixPath.common_prefix_len a (a ++ b) = length a.
Proof.
  induction a as [|x a IH]; [destruct b; reflexivity|].
  cbn [app PosixPath.common_prefix_len length]. rewrite String.eqb_refl, IH. reflexivity.
Qed.

Lemma join_all_plain (X : list string) :
  forallb plain_comp X = true -> PosixPath.join_all X = path_of X.
Proof.
  destruct X as [|x X]; [reflexivity|].
  cbn [forallb PosixPath.join_all]. intros H. apply andb_true_iff in H as [Hx HX].
  assert (Hgen : forall P, forallb plain_comp P = true -> P <> [] ->
            fold_left PosixPath.join X (path_of P) = path_of (P ++ X)).
  { induction X as [|y X IH]; intros P HP Hne.
    - rewrite app_nil_r. reflexivity.
    - cbn [forallb] in HX. apply andb_true_iff in HX as [Hy HX].
      destruct (plain_head y Hy) as [Hy0 Hys].
      cbn [fold_left]. change y with (path_of [y]) at 1.
      rewrite (join_path_of P y [] HP Hy0 Hys).
      rewrite (IH HX (P ++ [y])).
      + rewrite <- app_assoc. reflexivity.
      + apply plain_all_app; [exact HP|]. cbn [forallb]. rewrite Hy. reflexivity.
      + destruct P; discriminate. }
  apply (Hgen [x]); [cbn [forallb]; rewrite Hx; reflexivity | discriminate].
Qed.

(** The absolute path of a relative path of plain components, for a
    working directory that is an absolute path of plain components. *)
Lemma abspath_relative (W L : list string) :
  forallb plain_comp W = true -> forallb plain_comp L = true -> L <> [] ->
  PosixPath.abspath ("/" +:+ path_of W) (path_of L) = "/" +:+ path_of (W ++ L).
Proof.
  intros HW HL Hne. unfold PosixPath.abspath, PosixPath.isabs.
  destruct L as [|x l] eqn:EL; [contradiction|].
  pose proof HL as HL'. cbn [forallb] in HL'. apply andb_true_iff in HL' as [Hx _].
  destruct (plain_head x Hx) as [Hx0 Hxs].
  rewrite (startswith_slash_path x l Hx0 Hxs).
  rewrite (join_working_directory W (x :: l) HW HL Hne).
  apply normpath_absolute; [apply plain_all_app; assumption|].
  destruct W; discriminate.
Qed.

(** The path, relative to a directory, of what lies below that directory. *)
Lemma relpath_inside (W T X : list string) :
  forallb plain_comp W = true -> forallb plain_comp T = true ->
  forallb plain_comp X = true -> T <> [] -> X <> [] ->
  PosixPath.relpath ("/" +:+ path_of W) (path_of (T ++ X)) (path_of T)
  = Some (path_of X).
Proof.
  intros HW HT HX HTne HXne.
  assert (HTX : forallb plain_comp (T ++ X) = true) by (apply plain_all_app; assumption).
  assert (HTXne : T ++ X <> []) by (destruct T; [contradiction | discriminate]).
  unfold PosixPath.relpath.
  assert (Htruthy : PyStr.truthy (path_of (T ++ X)) = true).
  { apply truthy_iff, path_of_nonempty; [exact HTXne | apply plain_all_truthy, HTX]. }
  rewrite Htruthy. cbn [negb].
  rewrite (abspath_relative W T HW HT HTne), (abspath_relative W (T ++ X) HW HTX HTXne).
  rewrite (path_list_absolute (W ++ T))
    by first [apply plain_all_app; assumption | destruct W; [exact HTne | discriminate]].
  rewrite (path_list_absolute (W ++ T ++ X))
    by first [apply plain_all_app; assumption | destruct W; [exact HTXne | discriminate]].
  rewrite (app_assoc W T X), common_prefix_len_app, Nat.sub_diag.
  cbn [repeat app]. rewrite skipn_app, skipn_all, Nat.sub_diag. cbn [skipn app].
  destruct X as [|x X']; [contradiction|].
  change (skipn 0 (x :: X')) with (x :: X'). cbn [length Nat.eqb].
  rewrite (join_all_plain (x :: X') HX). reflexivity.
Qed.

Lemma upto_last_absent (c : ascii) (s : string) :
  PyStr.contains (String c "") s = false -> PyStr.upto_last c s = "".
Proof.
  induction s as [|a r IH]; [reflexivity|].
  rewrite contains_char_cons. intros H. apply orb_false_iff in H as [Hc Hr].
  cbn [PyStr.upto_last]. rewrite (IH Hr), Ascii.eqb_sym, Hc. reflexivity.
Qed.

Lemma upto_last_app (c : ascii) (s t : string) :
  PyStr.contains (String c "") t = false ->
  PyStr.upto_last c (s +:+ String c t) = s +:+ String c "".
Proof.
  intros Ht. induction s as [|a r IH].
  - cbn [String.append PyStr.upto_last]. rewrite (upto_last_absent c t Ht).
    rewrite Ascii.eqb_refl. reflexivity.
  - cbn [String.append PyStr.upto_last]. rewrite IH.
    destruct r; reflexivity.
Qed.

Lemma rstrip_char_app (c : ascii) (s : string) :
  s <> "" -> PyStr.endswith (String c "") s = false ->
  PyStr.rstrip_char c (s +:+ String c "") = s.
Proof.
  induction s as [|a r IH]; [contradiction|]. intros _ He.
  cbn [String.append PyStr.rstrip_char].
  destruct r as [|b r'].
  - cbn [String.append PyStr.rstrip_char]. rewrite Ascii.eqb_refl.
    cbn [PyStr.endswith String.eqb] in He.
    rewrite orb_false_r in He.
    destruct (Ascii.eqb c a) eqn:Hca; [discriminate He|].
    rewrite Ascii.eqb_sym, Hca. reflexivity.
  - assert (He' : PyStr.endswith (String c "") (String b r') = false).
    { cbn [PyStr.endswith] in He. apply orb_false_iff in He as [_ He]. exact He. }
    rewrite (IH ltac:(discriminate) He'). reflexivity.
Qed.

Lemma all_char_first (c a : ascii) (t : string) :
  Ascii.eqb a c = false -> PyStr.all_char c (String a t) = false.
Proof. intros H. cbn [PyStr.all_char]. rewrite H. reflexivity. Qed.

(** The directory of a file named by plain components. *)
Lemma dirname_path_of (S : list string) (f : string) :
  forallb plain_comp S = true -> plain_comp f = true ->
  PosixPath.dirname (path_of (S ++ [f])) = path_of S.
Proof.
  intros HS Hf. destruct (plain_head f Hf) as [Hf0 Hfs].
  unfold PosixPath.dirname.
  destruct S as [|x l].
  - cbn [app]. change (path_of [f]) with f.
    rewrite (upto_last_absent "/" f Hfs). reflexivity.
  - rewrite (path_of_app (x :: l) [f]) by discriminate.
    change (path_of [f]) with f.
    change ("/" +:+ f) with (String "/" f).
    rewrite (upto_last_app "/" (path_of (x :: l)) f Hfs).
    pose proof HS as HS'. cbn [forallb] in HS'. apply andb_true_iff in HS' as [Hx _].
    destruct (plain_path_first x l Hx) as (a & t & Hp & Ha).
    assert (Hend : PyStr.endswith "/" (path_of (x :: l)) = false).
    { apply endswith_slash_path; [discriminate|].
      eapply forallb_weaken; [|exact HS]. intros c Hc.
      destruct (plain_comp_parts c Hc) as (Ht & _ & Hsl & _).
      rewrite Ht, Hsl. reflexivity. }
    assert (Hne : path_of (x :: l) <> "") by (rewrite Hp; discriminate).
    rewrite (rstrip_char_app "/" (path_of (x :: l)) Hne Hend).
    rewrite Hp. cbn [String.append PyStr.truthy String.eqb negb andb].
    rewrite (all_char_first "/" a _ Ha). reflexivity.
Qed.

(** A path of plain components has no backslash and no leading [../]. *)
Lemma plain_path_clean (X : list string) :
  forallb plain_comp X = true -> clean_path (path_of X).
Proof.
  intros HX. split.
  - apply path_of_char_free; [discriminate|].
    eapply forallb_weaken; [|exact HX]. intros c Hc.
    destruct (plain_comp_parts c Hc) as (_ & _ & _ & ->). reflexivity.
  - destruct X as [|x l]; [reflexivity|].
    cbn [forallb] in HX. apply andb_true_iff in HX as [Hx _].
    apply plain_path_no_parent, Hx.
Qed.

End PackagePaths.

Section PackageRoundTrip.

Variables (absolute : bool) (W T : list string).
Hypothesis HW : forallb plain_comp W = true.
Hypothesis HT : forallb plain_comp T = true.
Hypothesis HTne : T <> [].

Lemma package_base_plain :
  forallb plain_comp (package_base absolute W T) = true
  /\ package_base absolute W T <> [].
Proof.
  unfold package_base. destruct absolute; [auto|]. split.
  - apply plain_all_app; assumption.
  - destruct W; [exact HTne | discriminate].
Qed.

Lemma abspath_below (X : list string) :
  forallb plain_comp X = true ->
  PosixPath.abspath ("/" +:+ path_of W) (package_path absolute (T ++ X))
  = "/" +:+ path_of (package_base absolute W T ++ X).
Proof.
  intros HX.
  assert (HTX : forallb plain_comp (T ++ X) = true) by (apply plain_all_app; assumption).
  assert (HTXne : T ++ X <> []) by (destruct T; [contradiction | discriminate]).
  unfold package_path, package_base. destruct absolute.
  - unfold PosixPath.abspath, PosixPath.isabs.
    replace (PyStr.startswith "/" ("/" +:+ path_of (T ++ X))) with true
      by (symmetry; apply prefix_iff; eexists; reflexivity).
    apply normpath_absolute; assumption.
  - rewrite (abspath_relative W (T ++ X) HW HTX HTXne), app_assoc. reflexivity.
Qed.

(** A file of a directory of the package, as the walk names it. *)
Lemma join_below (S : list string) (f : string) :
  forallb plain_comp S = true -> plain_comp f = true ->
  PosixPath.join (package_path absolute (T ++ S)) f
  = package_path absolute (T ++ S ++ [f]).
Proof.
  intros HS Hf. destruct (plain_head f Hf) as [Hf0 Hfs].
  assert (HTS : forallb plain_comp (T ++ S) = true) by (apply plain_all_app; assumption).
  unfold package_path. destruct absolute.
  - change f with (path_of [f]) at 1.
    rewrite (join_working_directory (T ++ S) [f] HTS);
      [rewrite <- app_assoc; reflexivity | | discriminate].
    cbn [forallb]. rewrite Hf. reflexivity.
  - change f with (path_of [f]) at 1.
    rewrite (join_path_of (T ++ S) f [] HTS Hf0 Hfs), <- app_assoc. reflexivity.
Qed.

(** The path of a file of the package relative to the package directory. *)
Lemma relpath_below (S : list string) (f : string) :
  forallb plain_comp S = true -> plain_comp f = true ->
  PosixPath.relpath ("/" +:+ path_of W)
    (PosixPath.join (package_path absolute (T ++ S)) f) (package_path absolute T)
  = Some (path_of (S ++ [f])).
Proof.
  intros HS Hf.
  assert (HX : forallb plain_comp (S ++ [f]) = true).
  { apply plain_all_app; [exact HS|]. cbn [forallb]. rewrite Hf. reflexivity. }
  destruct package_base_plain as [Hb Hbne].
  rewrite (join_below S f HS Hf). unfold PosixPath.relpath.
  replace (PyStr.truthy (package_path absolute (T ++ S ++ [f]))) with true.
  - cbn [negb]. rewrite (abspath_below (S ++ [f]) HX).
    pose proof (abspath_below [] eq_refl) as Hstart. rewrite !app_nil_r in Hstart.
    rewrite Hstart, (path_list_absolute (package_base absolute W T) Hb Hbne).
    rewrite (path_list_absolute (package_base absolute W T ++ S ++ [f]))
      by first [apply plain_all_app; assumption
               | destruct (package_base absolute W T); [contradiction | discriminate]].
    rewrite common_prefix_len_app, Nat.sub_diag.
    cbn [repeat app]. rewrite skipn_app, skipn_all, Nat.sub_diag. cbn [app].
    change (skipn 0 (S ++ [f])) with (S ++ [f]).
    rewrite (join_all_plain (S ++ [f]) HX).
    destruct (S ++ [f]) eqn:E; [destruct S; discriminate E|]. reflexivity.
  - symmetry. apply truthy_iff. unfold package_path.
    destruct absolute; [discriminate|].
    apply path_of_nonempty; [destruct T; [contradiction | discriminate]|].
    apply plain_all_truthy, plain_all_app; assumption.
Qed.

End PackageRoundTrip.

(** X21. Discovery and resolution agree on the paths of a package.  Take a
    package directory and a working directory written from plain
    components, an image file of the listing at the directory [Si] of the
    package, and a document at the directory [Sh].  A reference made of
    [k] parent steps and plain components that leads from [Sh] to the image
    is resolved, against the directory of the document's key, to the very
    path discovery recorded for the image: the reference is kept. *)
Theorem package_reference_round_trip
    (absolute : bool) (W T Si Sh R : list string) (img html : string) (k : nat)
    (walk : list (string * list string * list string)) (dirs files : list string)
    (valid_images : gset string)
    (HW : forallb plain_comp W = true)
    (HT : forallb plain_comp T = true) (HTne : T <> [])
    (HSi : forallb plain_comp Si = true) (Himg : plain_comp img = true)
    (HSh : forallb plain_comp Sh = true) (Hhtml : plain_comp html = true)
    (HR : forallb ref_comp R = true) (HRne : R <> [])
    (Hinternal : _is_external_url (path_of (repeat ".." k ++ R)) = false)
    (Hlisted : In (package_path absolute (T ++ Si), dirs, files) walk)
    (Hfile : In img files) (Hext : is_image_file img = true)
    (Htarget : firstn (length Sh - k) Sh ++ R = Si ++ [img])
    (Hrun : discover_epub_images ("/" +:+ path_of W) walk (package_path absolute T)
            = Some valid_images) :
  PosixPath.relpath ("/" +:+ path_of W)
    (PosixPath.join (package_path absolute (T ++ Sh)) html) (package_path absolute T)
  = Some (path_of (Sh ++ [html]))
  /\ path_of (Si ++ [img]) ∈ valid_images
  /\ resolve_and_validate_images [path_of (repeat ".." k ++ R)]
       (PosixPath.dirname (PyStr.replace "\" "/" (path_of (Sh ++ [html]))))
       valid_images
     = [path_of (Si ++ [img])].
Proof.
  assert (Hkey : forallb plain_comp (Sh ++ [html]) = true).
  { apply plain_all_app; [exact HSh|]. cbn [forallb]. rewrite Hhtml. reflexivity. }
  assert (Hpath : forallb plain_comp (Si ++ [img]) = true).
  { apply plain_all_app; [exact HSi|]. cbn [forallb]. rewrite Himg. reflexivity. }
  assert (Hin : path_of (Si ++ [img]) ∈ valid_images).
  { apply (discover_walk_spec _ _ walk _ _ Hrun). right.
    exists (package_path absolute (T ++ Si)), dirs, files, img, (path_of (Si ++ [img])).
    split; [exact Hlisted|]. split; [exact Hfile|]. split; [exact Hext|].
    split; [apply relpath_below; assumption|].
    symmetry. apply normalize_path_fixed, plain_path_clean, Hpath. }
  split; [apply relpath_below; assumption|]. split; [exact Hin|].
  rewrite (replace_absent "\" "/" _ (proj1 (plain_path_clean _ Hkey))).
  rewrite (dirname_path_of Sh html HSh Hhtml).
  assert (Hres : resolve_image_path (path_of (repeat ".." k ++ R)) (path_of Sh)
                 = Some (path_of (Si ++ [img]))).
  { unfold resolve_image_path. rewrite Hinternal.
    destruct (reference_whole R k HR HRne) as [-> ->]. cbn [negb].
    rewrite (joined_and_normalized Sh R k HSh HR HRne), Htarget. reflexivity. }
  unfold resolve_and_validate_images. cbn [resolve_loop]. rewrite Hres.
  assert (Hne : PyStr.truthy (path_of (Si ++ [img])) = true).
  { apply truthy_iff, path_of_nonempty; [destruct Si; discriminate|].
    apply plain_all_truthy, Hpath. }
  rewrite Hne. cbn [negb orb].
  rewrite (bool_decide_eq_false_2 (path_of (Si ++ [img]) ∈ (∅ : gset string)))
    by set_solver.
  rewrite (bool_decide_eq_true_2 _ Hin), orb_true_r. reflexivity.
Qed.

Lemma package_reference_round_trip_witness :
  PosixPath.relpath SamplePackage.cwd
    (PosixPath.join "book/OEBPS/Text" "ch1.xhtml") SamplePackage.top
  = Some "OEBPS/Text/ch1.xhtml"
  /\ "OEBPS/images/cover.jpg" ∈ SamplePackage.images
  /\ resolve_and_validate_images ["../images/cover.jpg"]
       (PosixPath.dirname (PyStr.replace "\" "/" "OEBPS/Text/ch1.xhtml"))
       SamplePackage.images
     = ["OEBPS/images/cover.jpg"].
Proof.
  apply (package_reference_round_trip false ["home"; "u"] ["book"]
           ["OEBPS"; "images"] ["OEBPS"; "Text"] ["images"; "cover.jpg"]
           "cover.jpg" "ch1.xhtml" 1 SamplePackage.listing [] ["cover.jpg"; "Fig1.PNG"]
           SamplePackage.images);
    first [reflexivity | discriminate | cbn; tauto | vm_compute; reflexivity].
Defined.

(* ===================================================================== *)
(** * Further properties: the choice of the cover                         *)
(* ===================================================================== *)

Section Cover.

Lemma cover_named_set (f : string) : cover_named f = true -> unset (Some f) = false.
Proof. destruct f; [discriminate | reflexivity]. Qed.

Lemma image_file_set (f : string) : is_image_file f = true -> unset (Some f) = false.
Proof. destruct f; [discriminate | reflexivity]. Qed.

Lemma filter_nil_none {A : Type} (p : A -> bool) (l : list A) :
  List.filter p l = [] -> forall x, In x l -> p x = false.
Proof.
  intros H x Hx. destruct (p x) eqn:E; [|reflexivity].
  assert (Hin : In x (List.filter p l)) by (apply filter_In; auto).
  rewrite H in Hin. destruct Hin.
Qed.

(** The three outcomes of the search. *)
Lemma find_cover_cases (all_files : list string) :
  (exists c, List.find cover_named all_files = Some c
             /\ find_cover all_files = Some c)
  \/ (List.find cover_named all_files = None
      /\ List.filter is_image_file all_files = []
      /\ find_cover all_files = None)
  \/ (List.find cover_named all_files = None
      /\ exists c, In c (List.filter is_image_file all_files)
                   /\ find_cover all_files = Some c).
Proof.
  unfold find_cover.
  destruct (List.find cover_named all_files) as [f|] eqn:E1.
  - left. exists f. split; [reflexivity|].
    apply find_some in E1 as [_ Hf]. rewrite (cover_named_set f Hf), (cover_named_set f Hf).
    reflexivity.
  - right. cbn [unset].
    destruct (List.filter is_image_file all_files) as [|i rest] eqn:E2.
    + left. auto.
    + right. split; [reflexivity|]. cbn [length Nat.eqb negb hd andb].
      destruct (List.find _ (i :: rest)) as [img|] eqn:E3.
      * apply find_some in E3 as [Hin _]. exists img. split; [exact Hin|].
        assert (Himg : is_image_file img = true).
        { rewrite <- E2 in Hin. apply filter_In in Hin. apply Hin. }
        rewrite (image_file_set img Himg). cbn [andb].
        rewrite (image_file_set img Himg). reflexivity.
      * exists i. split; [left; reflexivity|].
        assert (Hi : is_image_file i = true).
        { assert (Hin : In i (List.filter is_image_file all_files))
            by (rewrite E2; left; reflexivity).
          apply filter_In in Hin. apply Hin. }
        pose proof (image_file_set i Hi) as Hset. cbn [unset andb] in *.
        rewrite Hset. reflexivity.
Qed.

End Cover.

(** X22. The choice of the cover.  No cover is found exactly when no file
    of the archive has a cover-like name with an image extension and no
    file path ends, case aside, with an image extension.  A cover that is
    found is a file of the archive of one of these two kinds; and a file
    without a cover-like name is chosen only when no file has one. *)
Theorem cover_selection (all_files : list string) :
  (find_cover all_files = None <->
   Forall (fun f => cover_named f = false /\ is_image_file f = false) all_files)
  /\ (forall c, find_cover all_files = Some c ->
        In c all_files /\ (cover_named c = true \/ is_image_file c = true))
  /\ (forall c, find_cover all_files = Some c -> cover_named c = false ->
        Forall (fun f => cover_named f = false) all_files).
Proof.
  destruct (find_cover_cases all_files)
    as [(c & Hfind & Hc) | [(Hnone & Himgs & Hc) | (Hnone & c & Hin & Hc)]].
  - pose proof (find_some _ _ Hfind) as [Hin Hnamed].
    split; [|split].
    + rewrite Hc. split; [discriminate|]. intros Hall.
      destruct (proj1 (List.Forall_forall _ _) Hall c Hin) as [Hn _]. congruence.
    + intros c' Hc'. rewrite Hc in Hc'. injection Hc' as <-. auto.
    + intros c' Hc' Hn. rewrite Hc in Hc'. injection Hc' as <-. congruence.
  - split; [|split].
    + split; [|intros _; exact Hc]. intros _. apply List.Forall_forall. intros f Hf.
      split; [apply (find_none _ _ Hnone f Hf) | apply (filter_nil_none _ _ Himgs f Hf)].
    + intros c Hc'. rewrite Hc in Hc'. discriminate Hc'.
    + intros c Hc'. rewrite Hc in Hc'. discriminate Hc'.
  - apply filter_In in Hin as [Hin Himg].
    split; [|split].
    + rewrite Hc. split; [discriminate|]. intros Hall.
      destruct (proj1 (List.Forall_forall _ _) Hall c Hin) as [_ Hn]. congruence.
    + intros c' Hc'. rewrite Hc in Hc'. injection Hc' as <-. auto.
    + intros c' _ _. apply List.Forall_forall. intros f Hf.
      apply (find_none _ _ Hnone f Hf).
Qed.

(* ===================================================================== *)
(** * Further properties: shortening a text                               *)
(* ===================================================================== *)

Section Truncation.

Lemma length_append (a b : string) :
  String.length (a +:+ b) = String.length a + String.length b.
Proof. induction a as [|c r IH]; cbn; congruence. Qed.

Lemma length_take_chars (n : nat) (s : string) :
  String.length (take_chars n s) = Nat.min n (String.length s).
Proof.
  revert s. induction n as [|n IH]; intros [|a r]; cbn; try reflexivity.
  rewrite IH. reflexivity.
Qed.

Lemma take_chars_prefix (n : nat) (s : string) :
  exists dropped, s = take_chars n s +:+ dropped.
Proof.
  revert s. induction n as [|n IH]; intros s.
  - exists s. destruct s; reflexivity.
  - destruct s as [|a r]; [exists ""; reflexivity|].
    destruct (IH r) as [d Hd]. exists d. cbn. congruence.
Qed.

Lemma length_slice_to (k : Z) (s : string) :
  Z.of_nat (String.length (slice_to k s)) =
  (if k <? 0 then Z.max (Z.of_nat (String.length s) + k) 0
   else Z.min k (Z.of_nat (String.length s)))%Z.
Proof.
  unfold slice_to. rewrite length_take_chars.
  destruct (Z.ltb_spec k 0); lia.
Qed.

End Truncation.

(** X23. Shortening a text.  With a limit of at least 3 the result is
    never longer than the limit: it has the length of the text or, when
    the text is longer, exactly the limit.  With a limit below 3 a text
    longer than the limit comes out longer than the limit.  In all cases
    the result is the text itself or a prefix of it followed by three
    dots. *)
Theorem truncate_text_length (text : string) (max_length : Z) :
  ((3 <= max_length)%Z ->
   Z.of_nat (String.length (truncate_text text max_length)) =
   Z.min (Z.of_nat (String.length text)) max_length)
  /\ ((max_length < 3)%Z -> (max_length < Z.of_nat (String.length text))%Z ->
      (max_length < Z.of_nat (String.length (truncate_text text max_length)))%Z)
  /\ (truncate_text text max_length = text
      \/ exists kept dropped,
           text = kept +:+ dropped
           /\ truncate_text text max_length = kept +:+ "...").
Proof.
  unfold truncate_text.
  destruct (Z.leb_spec (Z.of_nat (String.length text)) max_length) as [Hfit|Hlong].
  - split; [intros _; lia|]. split; [intros _ H; lia | left; reflexivity].
  - pose proof (length_slice_to (max_length - 3) text) as Hlen.
    split; [|split].
    + intros H3. rewrite length_append, Nat2Z.inj_add, Hlen.
      destruct (Z.ltb_spec (max_length - 3) 0); cbn [String.length]; lia.
    + intros H3 _. rewrite length_append, Nat2Z.inj_add, Hlen.
      destruct (Z.ltb_spec (max_length - 3) 0); cbn [String.length]; lia.
    + right. unfold slice_to.
      destruct (take_chars_prefix
                  (Z.to_nat (if (max_length - 3 <? 0)%Z
                             then Z.max (Z.of_nat (String.length text)
                                         + (max_length - 3)) 0
                             else Z.min (max_length - 3)
                                        (Z.of_nat (String.length text))))
                  text) as [d Hd].
      eexists _, d. split; [exact Hd | reflexivity].
Qed.

(* ===================================================================== *)
(** * Further properties: the images of a content element                 *)
(* ===================================================================== *)

Section ChildImages.

Lemma named_tag_of_name (d : node) (name : string) :
  name <> "" -> name_of d = name -> is_named_tag d = true.
Proof.
  intros Hne Hn. destruct d as [s|s|n a c]; cbn in *; try congruence.
  subst n. apply truthy_iff, Hne.
Qed.

Lemma found_values (f : node -> option string) (child : node) (name x : string) :
  name <> "" ->
  In x (flat_map (fun e => opt_list (f e)) (find_all child name)) <->
  exists d, In d (descendants child) /\ name_of d = name /\ f d = Some x.
Proof.
  intros Hne. rewrite in_flat_map. unfold find_all. split.
  - intros (d & Hd & Hx). apply filter_In in Hd as [Hd Hn].
    apply andb_true_iff in Hn as [_ Hn]. apply String.eqb_eq in Hn.
    exists d. split; [exact Hd|]. split; [exact Hn|].
    destruct (f d) as [y|]; [|destruct Hx]. destruct Hx as [->|[]]. reflexivity.
  - intros (d & Hd & Hn & Hx). exists d. split.
    + apply filter_In. split; [exact Hd|].
      rewrite (named_tag_of_name d name Hne Hn). apply String.eqb_eq, Hn.
    + rewrite Hx. left. reflexivity.
Qed.

Lemma append_if_new_In (l : list string) (o : option string) (x : string) :
  In x (append_if_new l o) <-> In x l \/ o = Some x.
Proof.
  unfold append_if_new. destruct o as [y|].
  - destruct (str_in y l) eqn:E.
    + apply str_in_In in E. split; [auto|]. intros [H|H]; [exact H|].
      injection H as ->. exact E.
    + rewrite in_app_iff. cbn [In]. split.
      * intros [H|[->|[]]]; auto.
      * intros [H|H]; [auto|]. injection H as ->. auto.
  - split; [auto|]. intros [H|H]; [exact H | discriminate H].
Qed.

Lemma src_of_nonempty (d : node) (x : string) : src_of d = Some x -> x <> "".
Proof.
  unfold src_of. destruct (get (attrs_of d) "src") as [[s|l]|]; try discriminate.
  destruct (PyStr.truthy s) eqn:E; [|discriminate].
  intros H. injection H as <-. apply truthy_iff, E.
Qed.

Lemma href_of_nonempty (d : node) (x : string) : href_of d = Some x -> x <> "".
Proof.
  unfold href_of.
  destruct (py_or _ _) as [[s|l]|]; try discriminate.
  destruct (PyStr.truthy s) eqn:E; [|discriminate].
  intros H. injection H as <-. apply truthy_iff, E.
Qed.

Lemma descendant_values (child : node) (x : string) :
  In x (flat_map (fun img => opt_list (src_of img)) (find_all child "img")
        ++ flat_map (fun svg_img => opt_list (href_of svg_img)) (find_all child "image"))
  <-> exists d, In d (descendants child)
                /\ ((name_of d = "img" /\ src_of d = Some x)
                    \/ (name_of d = "image" /\ href_of d = Some x)).
Proof.
  rewrite in_app_iff, (found_values src_of), (found_values href_of) by discriminate.
  split.
  - intros [(d & Hd & Hn & Hx) | (d & Hd & Hn & Hx)]; exists d; auto.
  - intros (d & Hd & [[Hn Hx] | [Hn Hx]]); [left | right]; exists d; auto.
Qed.

End ChildImages.

(** X24. The images of a content element are exactly its image
    references: a value is in the list if and only if it is the [src] of
    an [img], or the [href] (else the [xlink:href]) of an [image], that is
    the element itself or lies below it, the value being a string that is
    not empty. *)
Theorem child_images_exact (child : node) :
  (forall x, In x (extract_child_images child) <-> image_reference child x)
  /\ Forall (fun x => x <> "") (extract_child_images child).
Proof.
  assert (H : forall x, In x (extract_child_images child) <-> image_reference child x).
  { intros x. unfold extract_child_images, image_reference.
    destruct (String.eqb (name_of child) "img") eqn:Himg;
      [|destruct (String.eqb (name_of child) "image") eqn:Hsvg].
    - apply String.eqb_eq in Himg.
      rewrite append_if_new_In, descendant_values. split.
      + intros [(d & Hd & Hx) | Hx]; [exists d; auto|].
        exists child. split; [left; reflexivity | left; auto].
      + intros (d & [-> | Hd] & Hx); [|left; exists d; auto].
        destruct Hx as [[_ Hx] | [Hn _]]; [right; exact Hx | congruence].
    - apply String.eqb_eq in Hsvg.
      rewrite append_if_new_In, descendant_values. split.
      + intros [(d & Hd & Hx) | Hx]; [exists d; auto|].
        exists child. split; [left; reflexivity | right; auto].
      + intros (d & [-> | Hd] & Hx); [|left; exists d; auto].
        destruct Hx as [[Hn _] | [_ Hx]]; [congruence | right; exact Hx].
    - apply String.eqb_neq in Himg, Hsvg.
      rewrite descendant_values. split.
      + intros (d & Hd & Hx). exists d. auto.
      + intros (d & [-> | Hd] & Hx); [|exists d; auto].
        destruct Hx as [[Hn _] | [Hn _]]; contradiction. }
  split; [exact H|].
  apply List.Forall_forall. intros x Hx.
  apply H in Hx as (d & _ & [[_ Hs] | [_ Hs]]);
    [apply (src_of_nonempty d x Hs) | apply (href_of_nonempty d x Hs)].
Qed.

(* ===================================================================== *)
(** * Further properties: references from the root                        *)
(* ===================================================================== *)

Section RootReferences.

Variable R : list string.
Hypothesis HR : forallb ref_comp R = true.
Hypothesis HRne : R <> [].

Lemma root_reference_plain : forallb plain_comp R = true.
Proof.
  eapply forallb_weaken; [|exact HR]. intros c Hc. apply ref_comp_parts, Hc.
Qed.

Lemma root_reference_char_free (c : ascii) :
  c <> "/"%char ->
  (forall y, ref_comp y = true -> PyStr.contains (String c "") y = false) ->
  PyStr.contains (String c "") ("/" +:+ path_of R) = false.
Proof.
  intros Hc Hy. change ("/" +:+ path_of R) with (String "/" (path_of R)).
  rewrite contains_char_cons.
  replace (Ascii.eqb c "/") with false by (symmetry; apply Ascii.eqb_neq, Hc).
  apply path_of_char_free; [exact Hc|].
  eapply forallb_weaken; [|exact HR]. intros y Hyr. rewrite (Hy y Hyr). reflexivity.
Qed.

Lemma root_reference_resolved (html_rel_dir : string) :
  resolve_image_path ("/" +:+ path_of R) html_rel_dir = Some ("/" +:+ path_of R).
Proof.
  pose proof root_reference_plain as Hplain.
  unfold resolve_image_path.
  replace (_is_external_url ("/" +:+ path_of R)) with false by reflexivity.
  unfold base_src_of.
  rewrite (split_absent "#") by
    (apply root_reference_char_free;
     [discriminate | intros y Hy; apply ref_comp_parts, Hy]).
  cbn [hd].
  rewrite (split_absent "?") by
    (apply root_reference_char_free;
     [discriminate | intros y Hy; apply ref_comp_parts, Hy]).
  cbn [hd].
  replace (PyStr.truthy ("/" +:+ path_of R)) with true by reflexivity.
  cbn [negb]. unfold PosixPath.join.
  replace (PyStr.startswith "/" ("/" +:+ path_of R)) with true
    by (symmetry; apply prefix_iff; eexists; reflexivity).
  rewrite (normpath_absolute R Hplain HRne).
  f_equal. apply normalize_path_fixed. split.
  - apply root_reference_char_free; [discriminate|].
    intros y Hy. apply ref_comp_parts in Hy as [Hy _].
    apply plain_comp_parts in Hy. apply Hy.
  - reflexivity.
Qed.

End RootReferences.

(** X25. A reference from the root.  A reference that begins with [/] and
    goes on with plain components is resolved to itself, whatever the
    directory of the document; so it is dropped whenever no known image
    path begins with [/]. *)
Theorem root_reference_dropped
    (R : list string) (html_rel_dir : string) (valid_images : gset string)
    (HR : forallb ref_comp R = true) (HRne : R <> [])
    (Hrelative : forall p, p ∈ valid_images -> PyStr.startswith "/" p = false) :
  resolve_image_path ("/" +:+ path_of R) html_rel_dir = Some ("/" +:+ path_of R)
  /\ resolve_and_validate_images ["/" +:+ path_of R] html_rel_dir valid_images = [].
Proof.
  pose proof (root_reference_resolved R HR HRne html_rel_dir) as Hres.
  split; [exact Hres|].
  unfold resolve_and_validate_images. cbn [resolve_loop]. rewrite Hres.
  replace (PyStr.truthy ("/" +:+ path_of R)) with true by reflexivity.
  replace (_is_external_url ("/" +:+ path_of R)) with false by reflexivity.
  cbn [negb orb].
  rewrite (bool_decide_eq_false_2 (("/" +:+ path_of R) ∈ (∅ : gset string)))
    by set_solver.
  rewrite bool_decide_eq_false_2; [reflexivity|].
  intros Hin. apply Hrelative in Hin.
  assert (Hs : PyStr.startswith "/" ("/" +:+ path_of R) = true)
    by (apply prefix_iff; eexists; reflexivity).
  congruence.
Qed.

Lemma root_reference_dropped_witness :
  resolve_image_path "/images/cover.jpg" "OEBPS/Text" = Some "/images/cover.jpg"
  /\ resolve_and_validate_images ["/images/cover.jpg"] "OEBPS/Text"
       SamplePackage.images = [].
Proof.
  apply (root_reference_dropped ["images"; "cover.jpg"] "OEBPS/Text"
           SamplePackage.images); [reflexivity | discriminate |].
  intros p Hp. unfold SamplePackage.images in Hp.
  apply elem_of_union in Hp as [Hp|Hp]; apply elem_of_singleton in Hp; subst p;
    reflexivity.
Defined.
